(** * The validation-join-filter pipeline of the financial dashboard

    A shallow embedding of [src/utils/secureDataProcessor.js]: the field
    validators, the record sanitizers, the join of tasks with forms and
    stocks, the grouping by company and [secureFilterData], together with
    the part of the JavaScript runtime these functions call. *)

From Stdlib Require Import ZArith QArith Qround Qpower Qcanon Ascii String List Bool Lia.
From Stdlib Require Import Permutation Sorted Lqa.
From stdpp Require Import gmap strings list.

Local Open Scope Z_scope.

(** ** Completions: a call returns a value or throws *)

Inductive Exn : Type :=
  | Error (msg : string)        (* [throw new Error(msg)] *)
  | TypeError (msg : string).   (* thrown by the runtime itself *)

Inductive Result (A : Type) : Type :=
  | Ok (a : A)
  | Throw (e : Exn).
Arguments Ok {A} a.
Arguments Throw {A} e.

Global Instance Result_ret : MRet Result := fun A a => Ok a.
Global Instance Result_bind : MBind Result := fun A B f m =>
  match m with
  | Ok a => f a
  | Throw e => Throw e
  end.

Definition returns {A} (m : Result A) : Prop := exists a, m = Ok a.

(** ** Numbers

    A JavaScript Number is a binary64 value.  A finite one is kept as the
    rational it denotes, in lowest terms; the two zeros are identified,
    because nothing in the program tells them apart (there is no division
    and no [Object.is]). *)

Inductive Number : Type :=
  | NaN
  | Inf (negative : bool)
  | Fin (q : Q).

Definition Qlt_bool (x y : Q) : bool := negb (Qle_bool y x).

(** [a < b] of the language: false as soon as one side is [NaN]. *)
Definition Num_lt (a b : Number) : bool :=
  match a, b with
  | NaN, _ | _, NaN => false
  | Inf true, Inf true => false
  | Inf true, _ => true
  | _, Inf true => false
  | Inf false, _ => false
  | Fin _, Inf false => true
  | Fin x, Fin y => Qlt_bool x y
  end.

Definition Num_gt (a b : Number) : bool := Num_lt b a.

(** [a <= b] of the language. *)
Definition Num_le (a b : Number) : bool :=
  match a, b with
  | NaN, _ | _, NaN => false
  | Inf true, _ => true
  | _, Inf false => true
  | Inf false, _ => false
  | Fin _, Inf true => false
  | Fin x, Fin y => Qle_bool x y
  end.

Definition Num_ge (a b : Number) : bool := Num_le b a.

(** [a === b] on two numbers. *)
Definition Num_eq (a b : Number) : bool :=
  match a, b with
  | Inf s, Inf s' => Bool.eqb s s'
  | Fin x, Fin y => Qeq_bool x y
  | _, _ => false
  end.

Definition isNaN (n : Number) : bool :=
  match n with NaN => true | _ => false end.

Definition isFinite (n : Number) : bool :=
  match n with Fin _ => true | _ => false end.

(** [ToBoolean] of a number: [0] and [NaN] are falsy. *)
Definition Num_truthy (n : Number) : bool :=
  match n with
  | NaN => false
  | Inf _ => true
  | Fin q => negb (Qeq_bool q 0)
  end.

Definition ofZ (z : Z) : Number := Fin (inject_Z z).

(** *** Rounding a rational to the nearest binary64 value *)

Definition pow2 (e : Z) : Q := Qpower 2 e.
Definition pow10 (e : Z) : Q := Qpower 10 e.

(** For [q > 0], the [e] with [2^e <= q < 2^(e+1)]. *)
Definition floor_log2 (q : Q) : Z :=
  let e0 := Z.log2 (Qnum q) - Z.log2 (Zpos (Qden q)) in
  if Qle_bool (pow2 e0) q then e0 else e0 - 1.

(** Nearest integer, ties to even. *)
Definition round_half_even (x : Q) : Z :=
  let f := Qfloor x in
  match Qcompare (x - inject_Z f) (1 # 2) with
  | Lt => f
  | Gt => f + 1
  | Eq => if Z.even f then f else f + 1
  end.

(** A positive rational rounded to 53 significant bits, the exponent of the
    last place not below -1074, overflowing to infinity from [2^1024]. *)
Definition round64_pos (q : Q) : Number :=
  let u := Z.max (floor_log2 q - 52) (-1074) in
  let v := (inject_Z (round_half_even (q / pow2 u)) * pow2 u)%Q in
  if Qle_bool (pow2 1024) v then Inf false else Fin (Qred v).

Definition Num_neg (n : Number) : Number :=
  match n with
  | NaN => NaN
  | Inf s => Inf (negb s)
  | Fin q => Fin (Qred (- q))
  end.

Definition round64 (q : Q) : Number :=
  match Qcompare q 0 with
  | Eq => Fin 0
  | Gt => round64_pos q
  | Lt => Num_neg (round64_pos (- q))
  end.

(** The largest integer below which every integer is a Number. *)
Definition MAX_SAFE_INTEGER : Number := ofZ (2 ^ 53 - 1).

(** ** Strings

    A string is its sequence of code units; the model covers the code
    units below 256, one [ascii] each. *)

Definition chars (s : string) : list ascii := list_ascii_of_string s.
Definition of_chars (l : list ascii) : string := string_of_list_ascii l.

Definition code (c : ascii) : Z := Z.of_nat (nat_of_ascii c).

(** White space and line terminators below 256: TAB, LF, VT, FF, CR, SP and
    NBSP. *)
Definition is_white (c : ascii) : bool :=
  let n := code c in
  ((9 <=? n) && (n <=? 13)) || (n =? 32) || (n =? 160).

Definition is_digit (c : ascii) : bool :=
  let n := code c in (48 <=? n) && (n <=? 57).

Definition digit_value (c : ascii) : Z := code c - 48.

Fixpoint trimStart (s : string) : string :=
  match s with
  | EmptyString => EmptyString
  | String c r => if is_white c then trimStart r else s
  end.

Definition str_rev (s : string) : string := of_chars (rev (chars s)).

Definition trimEnd (s : string) : string := str_rev (trimStart (str_rev s)).

(** [s.trim()] *)
Definition trim (s : string) : string := trimEnd (trimStart s).

(** [s.substring(0, n)] for a length [n] *)
Fixpoint substring0 (n : nat) (s : string) : string :=
  match n, s with
  | S n', String c r => String c (substring0 n' r)
  | _, _ => EmptyString
  end.

Fixpoint str_filter (keep : ascii -> bool) (s : string) : string :=
  match s with
  | EmptyString => EmptyString
  | String c r =>
      if keep c then String c (str_filter keep r) else str_filter keep r
  end.

(** [s.startsWith(p)] *)
Fixpoint startsWith (p s : string) : bool :=
  match p, s with
  | EmptyString, _ => true
  | String a p', String b s' => if Ascii.eqb a b then startsWith p' s' else false
  | String _ _, EmptyString => false
  end.

(** [s.endsWith(p)] *)
Definition endsWith (s p : string) : bool := startsWith (str_rev p) (str_rev s).

(** The longest prefix of decimal digits, and what follows it. *)
Fixpoint span_digits (s : string) : string * string :=
  match s with
  | String c r =>
      if is_digit c then let (d, t) := span_digits r in (String c d, t)
      else (EmptyString, s)
  | EmptyString => (EmptyString, EmptyString)
  end.

(** The value of a string of decimal digits. *)
Definition digits_value (s : string) : Z :=
  fold_left (fun acc c => 10 * acc + digit_value c) (chars s) 0.

Definition digit_char (d : Z) : ascii := ascii_of_nat (Z.to_nat (48 + d)).

Fixpoint decimal_from (fuel : nat) (n : Z) (acc : string) : string :=
  match fuel with
  | O => acc
  | S f =>
      let acc' := String (digit_char (n mod 10)) acc in
      if n <? 10 then acc' else decimal_from f (n / 10) acc'
  end.

(** The decimal digits of [n >= 0]. *)
Definition decimal (n : Z) : string :=
  decimal_from (S (Z.to_nat (Z.log2 n))) n EmptyString.

Definition Z_toString (z : Z) : string :=
  if z <? 0 then String "-" (decimal (- z)) else decimal z.

Fixpoint zeros (n : nat) : string :=
  match n with O => EmptyString | S n' => String "0" (zeros n') end.

Definition str_drop (n : nat) (s : string) : string := of_chars (drop n (chars s)).

(** *** Number to string *)

(** For [q > 0], the [c] with [10^c <= q < 10^(c+1)]: a search upwards from
    just below the estimate that the binary logarithm gives. *)
Fixpoint floor_log10_from (fuel : nat) (c : Z) (q : Q) : Z :=
  match fuel with
  | O => c
  | S f => if Qlt_bool q (pow10 (c + 1)) then c else floor_log10_from f (c + 1) q
  end.

Definition floor_log10 (q : Q) : Z :=
  floor_log10_from 4 (floor_log2 q * 30103 / 100000 - 1) q.

(** The shortest digit string [s] (of [k] digits) and the exponent [n] with
    [s * 10^(n-k)] a decimal that rounds to [q]; the closest one when two
    of that length do, the even one on a tie. *)
Fixpoint shortest_digits (fuel : nat) (k n : Z) (q : Q) : Z * Z * Z :=
  let scaled := (q * pow10 (k - n))%Q in
  let lo := Qfloor scaled in
  let hi := lo + 1 in
  let back s := Num_eq (round64 (inject_Z s * pow10 (n - k))) (Fin q) in
  let pick s := if s =? 10 ^ k then (1, 1, n + 1) else (s, k, n) in
  match fuel with
  | O => pick (round_half_even scaled)
  | S f =>
      match back lo, back hi with
      | true, true => pick (round_half_even scaled)
      | true, false => pick lo
      | false, true => pick hi
      | false, false => shortest_digits f (k + 1) n q
      end
  end.

Definition Q_toString_pos (q : Q) : string :=
  let '(s, k, n) := shortest_digits 16 1 (floor_log10 q + 1) q in
  let ds := decimal s in
  if (k <=? n) && (n <=? 21) then ds +:+ zeros (Z.to_nat (n - k))
  else if (0 <? n) && (n <=? 21) then
    substring0 (Z.to_nat n) ds +:+ "." +:+ str_drop (Z.to_nat n) ds
  else if (-6 <? n) && (n <=? 0) then "0." +:+ zeros (Z.to_nat (- n)) +:+ ds
  else
    let e := n - 1 in
    let ex := (if e <? 0 then "e-" else "e+") +:+ decimal (Z.abs e) in
    if k =? 1 then ds +:+ ex
    else substring0 1 ds +:+ "." +:+ str_drop 1 ds +:+ ex.

(** [Number::toString] in radix 10. *)
Definition Number_toString (x : Number) : string :=
  match x with
  | NaN => "NaN"
  | Inf false => "Infinity"
  | Inf true => "-Infinity"
  | Fin q =>
      match Qcompare q 0 with
      | Eq => "0"
      | Gt => Q_toString_pos q
      | Lt => "-" +:+ Q_toString_pos (- q)
      end
  end.

(** ** Values

    What a caller can pass where the program expects a string or a number.
    An object is kept as what converting it to a string gives: a string, or
    nothing when the conversion throws (a throwing [toString], an object
    without prototype). *)

Inductive JsVal : Type :=
  | JUndefined
  | JNull
  | JBool (b : bool)
  | JNum (n : Number)
  | JBigInt (z : Z)
  | JStr (s : string)
  | JSymbol
  | JObject (str : option string).

(** [ToString(v)] *)
Definition ToString (v : JsVal) : Result string :=
  match v with
  | JUndefined => Ok "undefined"
  | JNull => Ok "null"
  | JBool true => Ok "true"
  | JBool false => Ok "false"
  | JNum n => Ok (Number_toString n)
  | JBigInt z => Ok (Z_toString z)
  | JStr s => Ok s
  | JSymbol => Throw (TypeError "Cannot convert a Symbol value to a string")
  | JObject (Some s) => Ok s
  | JObject None => Throw (TypeError "Cannot convert object to primitive value")
  end.

(** [ToBoolean(v)] *)
Definition truthy (v : JsVal) : bool :=
  match v with
  | JUndefined | JNull => false
  | JBool b => b
  | JNum n => Num_truthy n
  | JBigInt z => negb (z =? 0)
  | JStr s => negb (String.eqb s "")
  | JSymbol | JObject _ => true
  end.

Definition Str_truthy (s : string) : bool := negb (String.eqb s "").

(** An optional sign in front of a numeric literal. *)
Definition split_sign (s : string) : bool * string :=
  match s with
  | String "-" r => (true, r)
  | String "+" r => (false, r)
  | _ => (false, s)
  end.

Definition with_sign (negative : bool) (n : Number) : Number :=
  if negative then Num_neg n else n.

(** [parseInt(s, 10)] on a string: leading white space, a sign, then the
    longest run of digits; what follows is ignored. *)
Definition parseInt_str (s : string) : Number :=
  let (negative, s2) := split_sign (trimStart s) in
  let (ds, _) := span_digits s2 in
  if String.eqb ds "" then NaN
  else with_sign negative (round64 (inject_Z (digits_value ds))).

(** The exponent part of a decimal literal, 0 when there is none. *)
Definition exponent_part (s : string) : Z :=
  match s with
  | String c r =>
      if Ascii.eqb c "e" || Ascii.eqb c "E" then
        let (negative, r2) := split_sign r in
        let (ds, _) := span_digits r2 in
        if String.eqb ds "" then 0
        else if negative then - digits_value ds else digits_value ds
      else 0
  | EmptyString => 0
  end.

(** [parseFloat(s)] on a string: the longest prefix that is a decimal
    literal, after leading white space. *)
Definition parseFloat_str (s : string) : Number :=
  let (negative, s2) := split_sign (trimStart s) in
  if startsWith "Infinity" s2 then Inf negative
  else
    let (ip, r1) := span_digits s2 in
    let (fp, r2) :=
      match r1 with
      | String "." r => span_digits r
      | _ => (EmptyString, r1)
      end in
    if String.eqb ip "" && String.eqb fp "" then NaN
    else
      let e := exponent_part r2 - Z.of_nat (String.length fp) in
      with_sign negative
        (round64 (inject_Z (digits_value (ip +:+ fp)) * pow10 e)).

(** [parseInt(v, 10)] and [parseFloat(v)]: the argument is first converted
    to a string, which throws for a symbol. *)
Definition parseInt (v : JsVal) : Result Number :=
  s ← ToString v; mret (parseInt_str s).

Definition parseFloat (v : JsVal) : Result Number :=
  s ← ToString v; mret (parseFloat_str s).

(** ** Dates

    A valid Date is its time value, the milliseconds since the epoch in
    UTC. *)

Definition msPerDay : Z := 86400000.

(** Days since the epoch of a day of the proleptic Gregorian calendar,
    month in 1..12. *)
Definition days_from_civil (y m d : Z) : Z :=
  let y' := if m <=? 2 then y - 1 else y in
  let era := y' / 400 in
  let yoe := y' - era * 400 in
  let mp := (m + 9) mod 12 in
  let doy := (153 * mp + 2) / 5 + d - 1 in
  let doe := yoe * 365 + yoe / 4 - yoe / 100 + doy in
  era * 146097 + doe - 719468.

(** Year, month (1..12) and day of month of a day number. *)
Definition civil_from_days (z : Z) : Z * Z * Z :=
  let z' := z + 719468 in
  let era := z' / 146097 in
  let doe := z' - era * 146097 in
  let yoe := (doe - doe / 1460 + doe / 36524 - doe / 146096) / 365 in
  let doy := doe - (365 * yoe + yoe / 4 - yoe / 100) in
  let mp := (5 * doy + 2) / 153 in
  let d := doy - (153 * mp + 2) / 5 + 1 in
  let m := if mp <? 10 then mp + 3 else mp - 9 in
  let y := yoe + era * 400 in
  (if m <=? 2 then y + 1 else y, m, d).

Definition YearFromTime (t : Z) : Z := fst (fst (civil_from_days (t / msPerDay))).
(** Months count from 0, as [getMonth] does. *)
Definition MonthFromTime (t : Z) : Z := snd (fst (civil_from_days (t / msPerDay))) - 1.
Definition DateFromTime (t : Z) : Z := snd (civil_from_days (t / msPerDay)).

Definition pad (width : nat) (n : Z) : string :=
  let ds := decimal n in
  zeros (width - String.length ds) +:+ ds.

(** [d.toISOString().split('T')[0]]: the UTC calendar day, with the
    six-digit signed year outside 0..9999. *)
Definition isoDay (t : Z) : string :=
  let y := YearFromTime t in
  let ys :=
    if (0 <=? y) && (y <=? 9999) then pad 4 y
    else (if y <? 0 then "-" else "+") +:+ pad 6 (Z.abs y) in
  ys +:+ "-" +:+ pad 2 (MonthFromTime t + 1) +:+ "-" +:+ pad 2 (DateFromTime t).

(** [/^\d{4}-\d{2}-\d{2}$/.test(s)] *)
Definition isDateShape (s : string) : bool :=
  match chars s with
  | [y1; y2; y3; y4; h1; m1; m2; h2; d1; d2] =>
      forallb is_digit [y1; y2; y3; y4; m1; m2; d1; d2]
      && Ascii.eqb h1 "-" && Ascii.eqb h2 "-"
  | _ => false
  end.

(** ** URLs *)

Record URL : Type := mkURL {
  protocol : string;
  hostname : string;
  href : string
}.

(** ** What the host environment decides

    The parsing of a date string (beyond the syntax, engines differ on days
    such as the 30th of February), the offset of local time, and the URL
    parser of the platform. *)

Class Runtime : Type := {
  (** the time value of [new Date(s)]; absent when it is [NaN] *)
  Date_parse : string -> option Z;
  (** the offset of local time at a time value, in milliseconds *)
  LocalTZA : Z -> Z;
  (** [new URL(s)], which throws on a string that is no absolute URL *)
  URL_new : string -> Result URL
}.

Definition getFullYear `{Runtime} (t : Z) : Z := YearFromTime (t + LocalTZA t).
Definition getMonth `{Runtime} (t : Z) : Z := MonthFromTime (t + LocalTZA t).

(** ** Field validators *)

Definition MAX_ROWS : Z := 10000.

(** The characters that [replace] removes: less-than, greater-than, the
    double quote, the apostrophe and the ampersand. *)
Definition is_dangerous (c : ascii) : bool :=
  let n := code c in
  (n =? 60) || (n =? 62) || (n =? 34) || (n =? 39) || (n =? 38).

(** [validateString(value, maxLength)]; [maxLength] is 255 when the caller
    gives none. *)
Definition validateString (value : JsVal) (maxLength : nat) : option string :=
  match value with
  | JStr s =>
      Some (substring0 maxLength (trim (str_filter (fun c => negb (is_dangerous c)) s)))
  | _ => None
  end.

(** [validateNumber(value, min, max)]; the bounds are [-Infinity] and
    [Infinity] when the caller gives none. *)
Definition validateNumber (value : JsVal) (min max : Number) : Result (option Number) :=
  num ← parseFloat value;
  if isNaN num || negb (isFinite num) then mret None
  else if Num_lt num min || Num_gt num max then mret None
  else mret (Some num).

(** [validateInteger(value, min, max)] *)
Definition validateInteger (value : JsVal) (min max : Number) : Result (option Number) :=
  num ← parseInt value;
  if isNaN num || negb (isFinite num) then mret None
  else if Num_lt num min || Num_gt num max then mret None
  else mret (Some num).

(** [validateDate(dateString)]: the Date, as its time value. *)
Definition validateDate `{Runtime} (dateString : JsVal) : option Z :=
  match dateString with
  | JStr s =>
      if negb (Str_truthy s) then None
      else if negb (isDateShape s) then None
      else
        match Date_parse s with
        | None => None
        | Some date =>
            if (getFullYear date <? 1900) || (getFullYear date >? 2030) then None
            else Some date
        end
  | _ => None
  end.

(** [validateURL(urlString)]: what [new URL] throws is caught. *)
Definition validateURL `{Runtime} (urlString : JsVal) : option string :=
  match urlString with
  | JStr s =>
      if negb (Str_truthy s) then None
      else
        match URL_new s with
        | Ok url =>
            if String.eqb (protocol url) "https:" && endsWith (hostname url) "sec.gov"
            then Some (href url)
            else None
        | Throw _ => None
        end
  | _ => None
  end.

(** ** Record sanitizers *)

(** A row of a parsed CSV file: the cell of each column that the row has, a
    string. *)
Abbreviation Row := (gmap string string).

(** [row.column]: [undefined] for a column the row lacks.  In the records
    below, a field name that two records share carries a prefix in all but
    one of them: [stock_cik] and [form_cik] for [cik], [form_id] for [id],
    [rec_symbol], [rec_ccp], [rec_ltd], [rec_formName] and [rec_formURL] in
    the joined record. *)
Definition field (row : Row) (column : string) : JsVal :=
  match row !! column with
  | Some s => JStr s
  | None => JUndefined
  end.

Record Stock : Type := mkStock {
  symbol : string;
  companyName : string;
  stock_cik : string
}.

Record Form : Type := mkForm {
  form_id : string;
  formName : string;
  form_cik : string;
  valueDate : string;
  filingDate : string;
  formURL : string
}.

Record Task : Type := mkTask {
  formId : string;
  ccp : Number;
  ltd : Number;
  textListLen : option Number;
  tableIndex : option Number;
  sumDivider : option Number;
  jsonTable : option Number;
  valueColumn : option Number
}.

Definition sanitizeStockData (row : Row) : Result (option Stock) :=
  let symbol := validateString (field row "Symbol") 10 in
  let companyName := validateString (field row "CompanyName") 200 in
  cik ← validateInteger (field row "CIK") (ofZ 1) (ofZ 9999999999);
  match symbol, companyName, cik with
  | Some symbol, Some companyName, Some cik =>
      if negb (Str_truthy symbol) || negb (Str_truthy companyName)
         || negb (Num_truthy cik)
      then mret None
      else mret (Some {| symbol := symbol; companyName := companyName;
                         stock_cik := Number_toString cik |})
  | _, _, _ => mret None
  end.

Definition sanitizeFormData `{Runtime} (row : Row) : Result (option Form) :=
  id ← validateInteger (field row "id") (ofZ 1) (ofZ MAX_ROWS);
  let formName := validateString (field row "FormName") 100 in
  cik ← validateInteger (field row "CIK") (ofZ 1) (ofZ 9999999999);
  let valueDate := validateDate (field row "ValueDate") in
  let filingDate := validateDate (field row "FilingDate") in
  let formURL := validateURL (field row "FormURL") in
  match id, formName, cik, valueDate, filingDate, formURL with
  | Some id, Some formName, Some cik, Some valueDate, Some filingDate, Some formURL =>
      if negb (Num_truthy id) || negb (Str_truthy formName) || negb (Num_truthy cik)
         || negb (Str_truthy formURL)
      then mret None
      else mret (Some {| form_id := Number_toString id; formName := formName;
                         form_cik := Number_toString cik;
                         valueDate := isoDay valueDate;
                         filingDate := isoDay filingDate;
                         formURL := formURL |})
  | _, _, _, _, _, _ => mret None
  end.

(** [row.column ? validate(row.column) : otherwise] *)
Definition optional (row : Row) (column : string)
    (validate : JsVal -> Result (option Number)) (otherwise : option Number)
    : Result (option Number) :=
  if truthy (field row column) then validate (field row column) else mret otherwise.

Definition sanitizeTaskData (row : Row) : Result (option Task) :=
  formId ← validateInteger (field row "Form_id") (ofZ 1) (ofZ MAX_ROWS);
  ccp ← validateNumber (field row "CCP") (ofZ 0) MAX_SAFE_INTEGER;
  ltd ← validateNumber (field row "LTD") (ofZ 0) MAX_SAFE_INTEGER;
  textListLen ← optional row "TextListLen" (fun v => validateInteger v (ofZ 0) (ofZ 1000)) None;
  tableIndex ← optional row "TableIndex" (fun v => validateInteger v (ofZ 0) (ofZ 100)) None;
  sumDivider ← optional row "SumDivider"
    (fun v => validateNumber v (round64 (1 # 1000)) (ofZ 10000)) (Some (ofZ 1));
  jsonTable ← optional row "JsonTable" (fun v => validateInteger v (ofZ 0) (ofZ 1)) None;
  valueColumn ← optional row "ValueColumn" (fun v => validateInteger v (ofZ 0) (ofZ 10)) None;
  match formId, ccp, ltd with
  | Some formId, Some ccp, Some ltd =>
      mret (Some {| formId := Number_toString formId; ccp := ccp; ltd := ltd;
                    textListLen := textListLen; tableIndex := tableIndex;
                    sumDivider := sumDivider; jsonTable := jsonTable;
                    valueColumn := valueColumn |})
  | _, _, _ => mret None
  end.

(** ** Joining tasks with forms and stocks *)

Record CombinedRecord : Type := mkCombined {
  id : string;
  company : string;
  rec_symbol : string;
  cik : string;
  year : Z;
  quarter : Z;
  date : Z;
  dateString : string;
  quarterLabel : string;
  rec_ccp : Number;
  rec_ltd : Number;
  rec_formName : string;
  rec_formURL : string
}.

(** [.map(sanitize).filter(Boolean)] over the rows of one file. *)
Fixpoint sanitizeAll {A} (sanitize : Row -> Result (option A)) (rows : list Row)
    : Result (list A) :=
  match rows with
  | [] => mret []
  | row :: rest =>
      r ← sanitize row;
      rs ← sanitizeAll sanitize rest;
      mret (match r with Some a => a :: rs | None => rs end)
  end.

(** [new Map()] filled by [forEach]: a later entry replaces an earlier one
    with the same key. *)
Definition buildMap {A} (key : A -> string) (l : list A) : gmap string A :=
  fold_left (fun m a => <[key a := a]> m) l ∅.

(** [Math.ceil((month + 1) / 3)] *)
Definition quarterOfMonth (month : Z) : Z := - ((- (month + 1)) / 3).

(** What one task contributes, once its form id is known to be new:
    nothing, or one record. *)
Definition combineTask `{Runtime} (stocksMap : gmap string Stock)
    (formsMap : gmap string Form) (task : Task) : option CombinedRecord :=
  match formsMap !! formId task with
  | None => None
  | Some form =>
      match stocksMap !! form_cik form with
      | None => None
      | Some stock =>
          match Date_parse (valueDate form) with
          | None => None
          | Some time =>
              let year := getFullYear time in
              let month := getMonth time in
              let quarter := quarterOfMonth month in
              if Num_lt (ccp task) (ofZ 0) || Num_lt (ltd task) (ofZ 0) then None
              else if Num_gt (ccp task) (ofZ (10 ^ 12)) || Num_gt (ltd task) (ofZ (10 ^ 12))
              then None
              else Some {|
                id := formId task;
                company := companyName stock;
                rec_symbol := symbol stock;
                cik := stock_cik stock;
                year := year;
                quarter := quarter;
                date := time;
                dateString := valueDate form;
                quarterLabel := "Q" +:+ Z_toString quarter +:+ " " +:+ Z_toString year;
                rec_ccp := ccp task;
                rec_ltd := ltd task;
                rec_formName := formName form;
                rec_formURL := formURL form
              |}
          end
      end
  end.

(** The state of the loop over the tasks: [combinedData] and
    [processedFormIds]. *)
Definition JoinState : Type := list CombinedRecord * gset string.

(** The body of [sanitizedTasks.forEach]. *)
Definition joinStep `{Runtime} (stocksMap : gmap string Stock)
    (formsMap : gmap string Form) (st : JoinState) (task : Task) : JoinState :=
  let (combinedData, processedFormIds) := st in
  if bool_decide (formId task ∈ processedFormIds) then st
  else
    let processedFormIds := {[formId task]} ∪ processedFormIds in
    match combineTask stocksMap formsMap task with
    | None => (combinedData, processedFormIds)
    | Some record => (combinedData ++ [record], processedFormIds)
    end.

Definition joinFrom `{Runtime} (stocksMap : gmap string Stock)
    (formsMap : gmap string Form) (st : JoinState) (tasks : list Task) : JoinState :=
  fold_left (joinStep stocksMap formsMap) tasks st.

(** [combinedData] when the loop ends. *)
Definition joinTasks `{Runtime} (stocksMap : gmap string Stock)
    (formsMap : gmap string Form) (tasks : list Task) : list CombinedRecord :=
  fst (joinFrom stocksMap formsMap ([], ∅) tasks).

(** ** Sorting by date

    [.sort((a, b) => new Date(a.date) - new Date(b.date))]: the stable sort
    on the time values. *)

Fixpoint insertByDate (x : CombinedRecord) (l : list CombinedRecord) : list CombinedRecord :=
  match l with
  | [] => [x]
  | y :: rest => if date x <=? date y then x :: l else y :: insertByDate x rest
  end.

Definition sortByDate (l : list CombinedRecord) : list CombinedRecord :=
  fold_right insertByDate [] l.

(** ** Objects used as maps

    An object literal filled by assignment: its own properties in the order
    of their creation, one binding for each key. *)

Definition JsObject (V : Type) : Type := list (string * V).

Fixpoint own {V} (o : JsObject V) (k : string) : option V :=
  match o with
  | [] => None
  | (k', v) :: rest => if String.eqb k' k then Some v else own rest k
  end.

(** [o[k] = v] on an own property [k] of [o]. *)
Fixpoint assign {V} (o : JsObject V) (k : string) (v : V) : JsObject V :=
  match o with
  | [] => []
  | (k', v') :: rest =>
      if String.eqb k' k then (k', v) :: rest else (k', v') :: assign rest k v
  end.

(** The properties every object inherits from [Object.prototype]. *)
Definition Object_prototype_names : list string :=
  [ "constructor"; "hasOwnProperty"; "isPrototypeOf"; "propertyIsEnumerable";
    "toLocaleString"; "toString"; "valueOf"; "__proto__";
    "__defineGetter__"; "__defineSetter__"; "__lookupGetter__"; "__lookupSetter__" ].

Definition inherited (k : string) : bool := bool_decide (k ∈ Object_prototype_names).

(** A key that is an array index: the decimal form of an integer from 0 to
    [2^32 - 2]. *)
Definition is_array_index (k : string) : bool :=
  forallb is_digit (chars k)
  && String.eqb (decimal (digits_value k)) k
  && (digits_value k <=? 2 ^ 32 - 2).

Fixpoint insertIndex (k : string) (l : list string) : list string :=
  match l with
  | [] => [k]
  | k' :: rest =>
      if digits_value k <=? digits_value k' then k :: l else k' :: insertIndex k rest
  end.

(** [Object.keys(o)]: the array indices in ascending order, then the other
    keys in the order of their creation. *)
Definition Object_keys {V} (o : JsObject V) : list string :=
  let keys := map fst o in
  fold_right insertIndex [] (filter (fun k => is_array_index k = true) keys)
  ++ filter (fun k => is_array_index k ≠ true) keys.

(** ** Grouping by company *)

(** The records of one company, in their order. *)
Definition groupOf (k : string) (l : list CombinedRecord) : list CombinedRecord :=
  List.filter (fun c => String.eqb (company c) k) l.

(** The body of [combinedData.forEach] that fills [groupedData].  A company
    named like an inherited property finds that property instead of a
    missing group, and [push] is not a function of it. *)
Definition groupStep (groupedData : JsObject (list CombinedRecord)) (item : CombinedRecord)
    : Result (JsObject (list CombinedRecord)) :=
  match own groupedData (company item) with
  | Some items => Ok (assign groupedData (company item) (items ++ [item]))
  | None =>
      if inherited (company item)
      then Throw (TypeError "groupedData[item.company].push is not a function")
      else Ok (groupedData ++ [(company item, [item])])
  end.

Fixpoint groupFrom (groupedData : JsObject (list CombinedRecord))
    (items : list CombinedRecord) : Result (JsObject (list CombinedRecord)) :=
  match items with
  | [] => Ok groupedData
  | item :: rest => g ← groupStep groupedData item; groupFrom g rest
  end.

Definition groupByCompany (combinedData : list CombinedRecord)
    : Result (JsObject (list CombinedRecord)) :=
  groupFrom [] combinedData.

(** ** The dataset *)

Record DataQuality : Type := mkDataQuality {
  stocksSanitized : nat;
  formsSanitized : nat;
  tasksSanitized : nat;
  originalStocks : nat;
  originalForms : nat;
  originalTasks : nat
}.

Record Stats : Type := mkStats {
  totalRecords : nat;
  companiesCount : nat;
  yearsSpan : nat;
  dataQuality : DataQuality
}.

Record Dataset : Type := mkDataset {
  combinedData : list CombinedRecord;
  groupedData : JsObject (list CombinedRecord);
  companies : list string;
  dateRange_min : Z;
  dateRange_max : Z;
  stats : Stats
}.

Fixpoint insertString (s : string) (l : list string) : list string :=
  match l with
  | [] => [s]
  | s' :: rest => if String.leb s s' then s :: l else s' :: insertString s rest
  end.

(** [.sort()] on strings: by code units. *)
Definition sortStrings (l : list string) : list string := fold_right insertString [] l.

Fixpoint insertZ (x : Z) (l : list Z) : list Z :=
  match l with
  | [] => [x]
  | y :: rest => if x <=? y then x :: l else y :: insertZ x rest
  end.

(** [.sort((a, b) => a - b)] *)
Definition sortNumbers (l : list Z) : list Z := fold_right insertZ [] l.

(** [[...new Set(l)]]: the first occurrence of each element, in order. *)
Fixpoint distinctFrom (seen : list Z) (l : list Z) : list Z :=
  match l with
  | [] => []
  | x :: rest =>
      if bool_decide (x ∈ seen) then distinctFrom seen rest
      else x :: distinctFrom (x :: seen) rest
  end.

Definition message (e : Exn) : string :=
  match e with Error msg | TypeError msg => msg end.

(** [try { ... } catch (error) { throw new Error(`Data processing failed:
    ${error.message}`) }] *)
Definition rethrow {A} (m : Result A) : Result A :=
  match m with
  | Ok a => Ok a
  | Throw e => Throw (Error ("Data processing failed: " +:+ message e))
  end.

(** [processSecureFinancialData], from the point where the three files are
    loaded. *)
Definition processLoaded `{Runtime} (stocksData formsData tasksData : list Row)
    : Result Dataset :=
  rethrow (
    sanitizedStocks ← sanitizeAll sanitizeStockData stocksData;
    sanitizedForms ← sanitizeAll sanitizeFormData formsData;
    sanitizedTasks ← sanitizeAll sanitizeTaskData tasksData;
    if 1000 <? Z.of_nat (length sanitizedStocks) then Throw (Error "Too many stock records")
    else if 5000 <? Z.of_nat (length sanitizedForms) then Throw (Error "Too many form records")
    else if 10000 <? Z.of_nat (length sanitizedTasks) then Throw (Error "Too many task records")
    else
      let stocksMap := buildMap stock_cik sanitizedStocks in
      let formsMap := buildMap form_id sanitizedForms in
      let joined := joinTasks stocksMap formsMap sanitizedTasks in
      if Z.of_nat (length joined) =? 0
      then Throw (Error "No valid data after processing and validation")
      else
        let combinedData := sortByDate joined in
        groupedData ← groupByCompany combinedData;
        let companies := sortStrings (Object_keys groupedData) in
        let years := sortNumbers (distinctFrom [] (map year combinedData)) in
        if (Z.of_nat (length companies) =? 0) || (Z.of_nat (length years) =? 0)
        then Throw (Error "No companies or years found in processed data")
        else mret {|
          combinedData := combinedData;
          groupedData := groupedData;
          companies := companies;
          dateRange_min := fold_right Z.min (hd 0 years) years;
          dateRange_max := fold_right Z.max (hd 0 years) years;
          stats := {|
            totalRecords := length combinedData;
            companiesCount := length companies;
            yearsSpan := length years;
            dataQuality := {|
              stocksSanitized := length sanitizedStocks;
              formsSanitized := length sanitizedForms;
              tasksSanitized := length sanitizedTasks;
              originalStocks := length stocksData;
              originalForms := length formsData;
              originalTasks := length tasksData
            |}
          |}
        |}).

(** ** Filtering *)

(** What is passed as [selectedCompanies]: an array, or something else. *)
Inductive Arg : Type :=
  | Arr (elems : list JsVal)
  | NotArr (v : JsVal).

(** A parameter with a default value: the default stands in for
    [undefined]. *)
Definition orDefault (v d : JsVal) : JsVal :=
  match v with JUndefined => d | _ => v end.

(** The test of [groupedData[company].filter]. *)
Definition keepItem (validStartYear validEndYear validStartQuarter validEndQuarter : Number)
    (item : CombinedRecord) : bool :=
  let y := ofZ (year item) in
  let q := ofZ (quarter item) in
  let isInYearRange := Num_ge y validStartYear && Num_le y validEndYear in
  if Num_eq y validStartYear && Num_eq y validEndYear then
    isInYearRange && Num_ge q validStartQuarter && Num_le q validEndQuarter
  else if Num_eq y validStartYear then isInYearRange && Num_ge q validStartQuarter
  else if Num_eq y validEndYear then isInYearRange && Num_le q validEndQuarter
  else isInYearRange.

(** [selectedCompanies.map(company => validateString(company, 200))
    .filter(Boolean)] *)
Definition sanitizeCompanies (selectedCompanies : list JsVal) : list string :=
  omap (fun company =>
          match validateString company 200 with
          | Some s => if Str_truthy s then Some s else None
          | None => None
          end) selectedCompanies.

(** Whether the loop over the companies takes this one. *)
Definition selected (sanitizedCompanies : list string) (company : string) : bool :=
  (Z.of_nat (length sanitizedCompanies) =? 0) || bool_decide (company ∈ sanitizedCompanies).

(** [filtered] when the loop over [Object.keys(groupedData)] ends. *)
Definition matching (groupedData : JsObject (list CombinedRecord))
    (sanitizedCompanies : list string) (sy ey sq eq : Number) : list CombinedRecord :=
  flat_map (fun company =>
              if selected sanitizedCompanies company
              then List.filter (keepItem sy ey sq eq) (default [] (own groupedData company))
              else [])
           (Object_keys groupedData).

(** The property that the test of the filter decides: the year within the
    two bounds, the quarter held to the first bound in the first year and to
    the last bound in the last year. *)
Definition inRange (sy ey sq eq : Z) (r : CombinedRecord) : Prop :=
  sy <= year r <= ey
  /\ (year r = sy -> sq <= quarter r)
  /\ (year r = ey -> quarter r <= eq).

(** [groupedData] as a partition of [combinedData]: one group for each
    company name, holding the records of that company and no other, each
    record in the group of its own company, and all groups together holding
    each record once. *)
Definition partitions (g : JsObject (list CombinedRecord)) (cd : list CombinedRecord) : Prop :=
  NoDup (map fst g)
  /\ (forall k items, (k, items) ∈ g -> items = groupOf k cd)
  /\ (forall c, c ∈ cd -> exists items, (company c, items) ∈ g /\ c ∈ items)
  /\ concat (map snd g) ≡ₚ cd.

(** A validated number within its bounds, or nothing. *)
Definition inBounds (min max : Number) (r : option Number) : Prop :=
  match r with
  | Some x => isFinite x = true /\ Num_le min x = true /\ Num_le x max = true
  | None => True
  end.

(** A record that the object offers to a selection: one of a group whose
    company the selection takes. *)
Definition offered (g : JsObject (list CombinedRecord)) (sanitizedCompanies : list string)
    (r : CombinedRecord) : Prop :=
  exists k items, (k, items) ∈ g /\ selected sanitizedCompanies k = true /\ r ∈ items.

(** What the checks of [secureFilterData] ask of the four scalar
    parameters, with the numbers they validate to. *)
Definition validFilter (startYear endYear startQuarter endQuarter : JsVal)
    (sy ey sq eq : Number) : Prop :=
  validateInteger startYear (ofZ 1900) (ofZ 2030) = Ok (Some sy)
  /\ validateInteger endYear (ofZ 1900) (ofZ 2030) = Ok (Some ey)
  /\ validateInteger (orDefault startQuarter (JNum (ofZ 1))) (ofZ 1) (ofZ 4) = Ok (Some sq)
  /\ validateInteger (orDefault endQuarter (JNum (ofZ 4))) (ofZ 1) (ofZ 4) = Ok (Some eq)
  /\ Num_gt sy ey = false.

(** The end of [secureFilterData]: at most 5000 records, then the sort. *)
Definition limitAndSort (filtered : list CombinedRecord) : list CombinedRecord :=
  if 5000 <? Z.of_nat (length filtered) then sortByDate (take (Z.to_nat 5000) filtered)
  else sortByDate filtered.

Definition secureFilterData (groupedData : JsObject (list CombinedRecord))
    (selectedCompanies : Arg) (startYear endYear startQuarter endQuarter : JsVal)
    : Result (list CombinedRecord) :=
  let startQuarter := orDefault startQuarter (JNum (ofZ 1)) in
  let endQuarter := orDefault endQuarter (JNum (ofZ 4)) in
  validStartYear ← validateInteger startYear (ofZ 1900) (ofZ 2030);
  validEndYear ← validateInteger endYear (ofZ 1900) (ofZ 2030);
  validStartQuarter ← validateInteger startQuarter (ofZ 1) (ofZ 4);
  validEndQuarter ← validateInteger endQuarter (ofZ 1) (ofZ 4);
  match validStartYear, validEndYear, validStartQuarter, validEndQuarter with
  | Some sy, Some ey, Some sq, Some eq =>
      if negb (Num_truthy sy) || negb (Num_truthy ey)
         || negb (Num_truthy sq) || negb (Num_truthy eq)
      then Throw (Error "Invalid filter parameters")
      else if Num_gt sy ey then Throw (Error "Start year cannot be after end year")
      else
        match selectedCompanies with
        | NotArr _ => Throw (Error "Selected companies must be an array")
        | Arr elems =>
            if 50 <? Z.of_nat (length elems) then Throw (Error "Too many companies selected")
            else
              let sanitizedCompanies := sanitizeCompanies elems in
              mret (limitAndSort (matching groupedData sanitizedCompanies sy ey sq eq))
        end
  | _, _, _, _ => Throw (Error "Invalid filter parameters")
  end.

(** ** A runtime to run the examples on

    Local time is UTC.  A date string of the shape [YYYY-MM-DD] with a
    month from 01 to 12 and a day from 01 to 31 is that day at midnight UTC,
    a day beyond the end of its month counting on into the next one (as V8
    does); the strings that the validators never pass on are not dates.
    The URL parser knows [http://host/path] and [https://host/path] with a
    lower-case host name and a plain path without dot segments, which the
    platform's parser leaves as they are, and throws on every other
    string. *)

Module Reference.

Definition two_digits (a b : ascii) : Z := 10 * digit_value a + digit_value b.

Definition parseDay (s : string) : option Z :=
  if isDateShape s then
    match chars s with
    | [y1; y2; y3; y4; _; m1; m2; _; d1; d2] =>
        let y := 100 * two_digits y1 y2 + two_digits y3 y4 in
        let m := two_digits m1 m2 in
        let d := two_digits d1 d2 in
        if (1 <=? m) && (m <=? 12) && (1 <=? d) && (d <=? 31)
        then Some ((days_from_civil y m 1 + d - 1) * msPerDay)
        else None
    | _ => None
    end
  else None.

Definition is_lower (c : ascii) : bool :=
  let n := code c in (97 <=? n) && (n <=? 122).

Definition is_upper (c : ascii) : bool :=
  let n := code c in (65 <=? n) && (n <=? 90).

Definition is_host_char (c : ascii) : bool :=
  is_lower c || is_digit c || Ascii.eqb c "." || Ascii.eqb c "-".

Definition is_path_char (c : ascii) : bool :=
  is_lower c || is_upper c || is_digit c
  || Ascii.eqb c "/" || Ascii.eqb c "-" || Ascii.eqb c "_" || Ascii.eqb c ".".

(** Whether a path has a segment [.] or [..], which the platform's parser
    resolves. *)
Fixpoint has_dot_segment (path : string) : bool :=
  match path with
  | EmptyString => false
  | String c r =>
      (Ascii.eqb c "/"
       && (String.eqb r "." || String.eqb r ".."
           || startsWith "./" r || startsWith "../" r))
      || has_dot_segment r
  end.

(** The text before the first [/], and the rest. *)
Fixpoint span_host (s : string) : string * string :=
  match s with
  | String c r =>
      if Ascii.eqb c "/" then (EmptyString, s)
      else let (h, t) := span_host r in (String c h, t)
  | EmptyString => (EmptyString, EmptyString)
  end.

(** Labels of lower-case letters, digits and hyphens, each starting with
    a letter, separated by single dots. *)
Fixpoint plain_host (at_label_start : bool) (s : string) : bool :=
  match s with
  | EmptyString => negb at_label_start
  | String c r =>
      if at_label_start then is_lower c && plain_host false r
      else if Ascii.eqb c "." then plain_host true r
      else is_host_char c && plain_host false r
  end.

Definition parse_after (scheme rest : string) : Result URL :=
  let (host, path) := span_host rest in
  if plain_host true host && negb (startsWith "xn--" host)
     && forallb is_path_char (chars path) && negb (has_dot_segment path)
  then Ok {| protocol := scheme +:+ ":";
             hostname := host;
             href := scheme +:+ "://" +:+ host
                     +:+ (if String.eqb path "" then "/" else path) |}
  else Throw (TypeError "Invalid URL").

Definition parseURL (s : string) : Result URL :=
  if startsWith "https://" s then parse_after "https" (str_drop 8 s)
  else if startsWith "http://" s then parse_after "http" (str_drop 7 s)
  else Throw (TypeError "Invalid URL").

Definition runtime : Runtime := {|
  Date_parse := parseDay;
  LocalTZA := fun _ => 0;
  URL_new := parseURL
|}.
End Reference.

(** ** The quarter options *)

(** [a + b] on numbers. *)
Definition Num_add (a b : Number) : Number :=
  match a, b with
  | NaN, _ | _, NaN => NaN
  | Inf s, Inf s' => if Bool.eqb s s' then Inf s else NaN
  | Inf s, Fin _ | Fin _, Inf s => Inf s
  | Fin x, Fin y => round64 (Qred (x + y))
  end.

(** [a - b] *)
Definition Num_sub (a b : Number) : Number := Num_add a (Num_neg b).

(** [for (let i = first; i <= last; i++) body(i)], collecting what the
    rounds push; [fuel] bounds the number of rounds. *)
Fixpoint forUpTo {A} (fuel : nat) (i last : Number) (body : Number -> list A) : list A :=
  match fuel with
  | O => []
  | S fuel' =>
      if Num_le i last then body i ++ forUpTo fuel' (Num_add i (ofZ 1)) last body
      else []
  end.

Record QuarterOption : Type := mkQuarterOption {
  opt_value : string;
  opt_label : string;
  opt_year : Number;
  opt_quarter : Number
}.

(** The object pushed for one year and one quarter. *)
Definition quarterOption (year quarter : Number) : QuarterOption :=
  {| opt_value := Number_toString year +:+ "-Q" +:+ Number_toString quarter;
     opt_label := "Q" +:+ Number_toString quarter +:+ " " +:+ Number_toString year;
     opt_year := year;
     opt_quarter := quarter |}.

(** [generateSecureQuarterOptions(minYear, maxYear)].  The check on the
    span leaves the outer loop at most 51 rounds; the inner loop has 4. *)
Definition generateSecureQuarterOptions (minYear maxYear : JsVal)
    : Result (list QuarterOption) :=
  validMinYear ← validateInteger minYear (ofZ 1900) (ofZ 2030);
  validMaxYear ← validateInteger maxYear (ofZ 1900) (ofZ 2030);
  match validMinYear, validMaxYear with
  | Some lo, Some hi =>
      if negb (Num_truthy lo) || negb (Num_truthy hi)
      then Throw (Error "Invalid year range")
      else if Num_gt lo hi then Throw (Error "Invalid year range: min > max")
      else if Num_gt (Num_sub hi lo) (ofZ 50) then Throw (Error "Year range too large")
      else
        mret (forUpTo 51 lo hi (fun year =>
                forUpTo 4 (ofZ 1) (ofZ 4) (fun quarter => [quarterOption year quarter])))
  | _, _ => Throw (Error "Invalid year range")
  end.

(** ** The filter of [dataProcessor.js]

    [filterData] has the loop and the test of [secureFilterData] without
    the checks and the limit.  Its parameters are taken as they come: the
    years and quarters are numbers here, the selection an array. *)

(** [selectedCompanies.includes(company)] for a string [company] *)
Definition includes (selectedCompanies : list JsVal) (company : string) : bool :=
  existsb (fun v => match v with JStr s => String.eqb s company | _ => false end)
          selectedCompanies.

Definition filterData (groupedData : JsObject (list CombinedRecord))
    (selectedCompanies : list JsVal) (startYear endYear startQuarter endQuarter : Number)
    : list CombinedRecord :=
  sortByDate
    (flat_map (fun company =>
                 if (Z.of_nat (length selectedCompanies) =? 0)
                    || includes selectedCompanies company
                 then List.filter (keepItem startYear endYear startQuarter endQuarter)
                                  (default [] (own groupedData company))
                 else [])
              (Object_keys groupedData)).

(** ** The handlers of the dashboard *)

(** [handleCompanyChange(company)]: the selection after the call, from the
    loaded data (if any) and the selection before. *)
Definition handleCompanyChange (rawData : option Dataset) (selectedCompanies : list string)
    (company : string) : list string :=
  if String.eqb company "all" then
    match rawData with
    | Some data => companies data
    | None => []
    end
  else
    match rawData with
    | None => selectedCompanies
    | Some data =>
        if negb (bool_decide (company ∈ companies data)) then selectedCompanies
        else
          let newSelection :=
            if bool_decide (company ∈ selectedCompanies)
            then List.filter (fun c => negb (String.eqb c company)) selectedCompanies
            else selectedCompanies ++ [company] in
          if 20 <? Z.of_nat (length newSelection) then take 20 newSelection
          else newSelection
    end.

(** [handleDateRangeChange(newStart, newEnd)]: the range after the call,
    from the number of quarter options and the range before.  What
    [parseInt] throws is caught. *)
Definition handleDateRangeChange (quarterOptions : list QuarterOption)
    (dateRange : Number * Number) (newStart newEnd : JsVal) : Number * Number :=
  match parseInt newStart with
  | Throw _ => dateRange
  | Ok start =>
      match parseInt newEnd with
      | Throw _ => dateRange
      | Ok end_ =>
          let len := ofZ (Z.of_nat (length quarterOptions)) in
          if isNaN start || isNaN end_ then dateRange
          else if Num_lt start (ofZ 0) || Num_lt end_ (ofZ 0) then dateRange
          else if Num_ge start len || Num_ge end_ len then dateRange
          else if Num_gt start end_ then dateRange
          else (start, end_)
      end
  end.

Definition colors : list string :=
  [ "#8884d8"; "#82ca9d"; "#ffc658"; "#ff7300"; "#2563eb";
    "#dc2626"; "#059669"; "#7c3aed"; "#ea580c"; "#0891b2";
    "#be123c"; "#047857"; "#7c2d12" ].

(** [Number.isInteger(v)]: the integer that [v] is, if it is one. *)
Definition asInteger (v : JsVal) : option Z :=
  match v with
  | JNum (Fin q) => if (Qden (Qred q) =? 1)%positive then Some (Qnum (Qred q)) else None
  | _ => None
  end.

(** [getCompanyColor(index)]: [colors[validIndex % colors.length]], absent
    if the array had no such element. *)
Definition getCompanyColor (index : JsVal) : option string :=
  let validIndex :=
    match asInteger index with
    | Some z => if 0 <=? z then z else 0
    | None => 0
    end in
  colors !! Z.to_nat (validIndex mod Z.of_nat (length colors)).

(** ** The loader, from the response on

    [loadSecureCSV] once [fetch] has answered within the time limit: the
    checks on the response, the parse, and the checks of the [complete]
    callback.  The CSV parser is the library's and is taken as given. *)

Definition MAX_FILE_SIZE : Z := 10 * 1024 * 1024.

Record Response : Type := mkResponse {
  ok : bool;
  status : Z;
  statusText : string;
  (** [headers.get('content-type')] and [headers.get('content-length')] *)
  contentType : option string;
  contentLength : option string;
  (** [await response.text()] *)
  text : string
}.

(** What [Papa.parse] hands to [complete], or the message it hands to
    [error]; [data] is absent when [results.data] is no array. *)
Inductive Parsed : Type :=
  | Complete (data : option (list Row))
  | Failed (message : string).

(** [haystack.includes(needle)] on strings *)
Fixpoint str_includes (needle haystack : string) : bool :=
  startsWith needle haystack
  || match haystack with
     | EmptyString => false
     | String _ rest => str_includes needle rest
     end.

Definition is_hex (c : ascii) : bool :=
  let n := code c in
  is_digit c || ((97 <=? n) && (n <=? 102)) || ((65 <=? n) && (n <=? 70)).

Definition hex_value (c : ascii) : Z :=
  let n := code c in
  if is_digit c then n - 48 else if 97 <=? n then n - 87 else n - 55.

Fixpoint span_hex (s : string) : string * string :=
  match s with
  | String c r =>
      if is_hex c then let (d, t) := span_hex r in (String c d, t)
      else (EmptyString, s)
  | EmptyString => (EmptyString, EmptyString)
  end.

(** [parseInt(s)] without a radix: base 16 after [0x], base 10 otherwise. *)
Definition parseInt_auto (s : string) : Number :=
  let (negative, s2) := split_sign (trimStart s) in
  if startsWith "0x" s2 || startsWith "0X" s2 then
    let (ds, _) := span_hex (str_drop 2 s2) in
    if String.eqb ds "" then NaN
    else with_sign negative
           (round64 (inject_Z (fold_left (fun acc c => 16 * acc + hex_value c) (chars ds) 0)))
  else
    let (ds, _) := span_digits s2 in
    if String.eqb ds "" then NaN
    else with_sign negative (round64 (inject_Z (digits_value ds))).

(** [col in firstRow]: an own cell, or a property every object inherits. *)
Definition hasColumn (firstRow : Row) (col : string) : bool :=
  bool_decide (is_Some (firstRow !! col)) || inherited col.

(** [missingColumns.join(', ')] *)
Fixpoint join (sep : string) (l : list string) : string :=
  match l with
  | [] => EmptyString
  | [x] => x
  | x :: rest => x +:+ sep +:+ join sep rest
  end.

(** The [complete] callback: the rows when the table has a first row with
    every expected column. *)
Definition complete (expectedColumns : list string) (data : option (list Row))
    : Result (list Row) :=
  match data with
  | None => Throw (Error "Invalid CSV structure")
  | Some [] => Throw (Error "Empty CSV file")
  | Some (firstRow :: rest) =>
      let missingColumns :=
        List.filter (fun col => negb (hasColumn firstRow col)) expectedColumns in
      if 0 <? Z.of_nat (length missingColumns)
      then Throw (Error ("Missing required columns: " +:+ join ", " missingColumns))
      else Ok (firstRow :: rest)
  end.

Definition loadSecureCSV (parse : string -> Z -> Parsed) (response : Response)
    (expectedColumns : list string) (maxRows : Z) : Result (list Row) :=
  if negb (ok response)
  then Throw (Error ("HTTP " +:+ Z_toString (status response) +:+ ": "
                      +:+ statusText response))
  else if match contentType response with
          | Some ct => Str_truthy ct && negb (str_includes "text/" ct)
                       && negb (str_includes "application/" ct)
          | None => false
          end
  then Throw (Error "Invalid content type")
  else if match contentLength response with
          | Some cl => Str_truthy cl && Num_gt (parseInt_auto cl) (ofZ MAX_FILE_SIZE)
          | None => false
          end
  then Throw (Error "File too large")
  else if MAX_FILE_SIZE <? Z.of_nat (String.length (text response))
  then Throw (Error "File content too large")
  else
    match parse (text response) maxRows with
    | Complete data => complete expectedColumns data
    | Failed message => Throw (Error ("CSV parsing error: " +:+ message))
    end.

(** ** The data of the chart

    The second effect of the dashboard, from the point where [filtered] is
    there: one entry for each quarter label, with one property for each
    company and metric.  The keys of these properties end with [_CCP] or
    [_LTD], so none of them names a property that the entry has from the
    start or inherits. *)

Record ChartEntry : Type := mkChartEntry {
  entry_quarter : string;
  entry_date : Z;
  entry_year : Z;
  quarterNum : Z;
  (** the properties [`${item.company}_CCP`] and [`${item.company}_LTD`] *)
  series : JsObject Number
}.

(** [o[k] = v]: a property that [o] lacks is created, as its last one. *)
Definition setProperty {V} (o : JsObject V) (k : string) (v : V) : JsObject V :=
  match own o k with
  | Some _ => assign o k v
  | None => o ++ [(k, v)]
  end.

(** The two assignments to [entry] for one item, on the properties that
    they concern. *)
Definition writeSeries (selectedMetrics : string) (item : CombinedRecord)
    (s : JsObject Number) : JsObject Number :=
  let s1 :=
    if String.eqb selectedMetrics "all" || String.eqb selectedMetrics "ccp"
    then setProperty s (company item +:+ "_CCP") (rec_ccp item)
    else s in
  if String.eqb selectedMetrics "all" || String.eqb selectedMetrics "ltd"
  then setProperty s1 (company item +:+ "_LTD") (rec_ltd item)
  else s1.

Definition addSeries (selectedMetrics : string) (item : CombinedRecord) (entry : ChartEntry)
    : ChartEntry :=
  {| entry_quarter := entry_quarter entry; entry_date := entry_date entry;
     entry_year := entry_year entry; quarterNum := quarterNum entry;
     series := writeSeries selectedMetrics item (series entry) |}.

(** The body of [filtered.forEach].  [chartDataMap] is a [Map]: its entries
    in the order of their insertion.  The entry that [get] returns is the
    object in the map, so the assignments to it change the map. *)
Definition chartStep (selectedMetrics : string) (chartDataMap : JsObject ChartEntry)
    (item : CombinedRecord) : JsObject ChartEntry :=
  let key := quarterLabel item in
  let chartDataMap :=
    match own chartDataMap key with
    | Some _ => chartDataMap
    | None =>
        chartDataMap ++ [(key, {| entry_quarter := key; entry_date := date item;
                                  entry_year := year item; quarterNum := quarter item;
                                  series := [] |})]
    end in
  match own chartDataMap key with
  | Some entry => assign chartDataMap key (addSeries selectedMetrics item entry)
  | None => chartDataMap
  end.

Definition chartDataMap (selectedMetrics : string) (filtered : list CombinedRecord)
    : JsObject ChartEntry :=
  fold_left (chartStep selectedMetrics) filtered [].

Fixpoint insertEntry (x : ChartEntry) (l : list ChartEntry) : list ChartEntry :=
  match l with
  | [] => [x]
  | y :: rest => if entry_date x <=? entry_date y then x :: l else y :: insertEntry x rest
  end.

(** [Array.from(chartDataMap.values()).sort((a, b) => new Date(a.date) -
    new Date(b.date))] *)
Definition chartArray (selectedMetrics : string) (filtered : list CombinedRecord)
    : list ChartEntry :=
  fold_right insertEntry [] (map snd (chartDataMap selectedMetrics filtered)).

(** The records of one quarter label, in their order. *)
Definition labelled (label : string) (l : list CombinedRecord) : list CombinedRecord :=
  List.filter (fun r => String.eqb (quarterLabel r) label) l.

(** What the loop keeps true of [chartDataMap] after the items [done]: one
    entry for each label met, with the date, year and quarter of the first
    item of that label and the series written by all its items in turn. *)
Definition charted (selectedMetrics : string) (m : JsObject ChartEntry)
    (done : list CombinedRecord) : Prop :=
  NoDup (map fst m)
  /\ (forall label entry, own m label = Some entry ->
        entry_quarter entry = label
        /\ exists first rest,
             labelled label done = first :: rest
             /\ entry_date entry = date first /\ entry_year entry = year first
             /\ quarterNum entry = quarter first
             /\ series entry = fold_left (fun s r => writeSeries selectedMetrics r s)
                                         (first :: rest) [])
  /\ (forall r, r ∈ done -> own m (quarterLabel r) <> None).

(** The order of the chart: non-decreasing by date. *)
Definition byEntryDate (a b : ChartEntry) : Prop := entry_date a <= entry_date b.

(** ** The slider of the dashboard

    [dateRange] is set when the data is loaded, to the first and the last
    index of the quarter options, and by [handleDateRangeChange] from then
    on. *)

(** [[0, quarters.length - 1]] *)
Definition initialRange (quarterOptions : list QuarterOption) : Number * Number :=
  (ofZ 0, Num_sub (ofZ (Z.of_nat (length quarterOptions))) (ofZ 1)).

(** The range after a series of calls of [handleDateRangeChange], each with
    its two arguments. *)
Definition slide (quarterOptions : list QuarterOption) (events : list (JsVal * JsVal))
    (dateRange : Number * Number) : Number * Number :=
  fold_left (fun range event => handleDateRangeChange quarterOptions range event.1 event.2)
            events dateRange.

(** ** Notions used by the statements *)

(** What the range check of [validateNumber] and [validateInteger] leaves
    through. *)
Definition checked (num : Number) (min max : Number) : option Number :=
  if isNaN num || negb (isFinite num) then None
  else if Num_lt num min || Num_gt num max then None
  else Some num.

(** The order of the result: non-decreasing by date. *)
Definition byDate (a b : CombinedRecord) : Prop := date a <= date b.

(** What the loop keeps true of [groupedData] after the records [done]. *)
Definition grouped (g : JsObject (list CombinedRecord)) (done : list CombinedRecord) : Prop :=
  NoDup (map fst g)
  /\ (forall k items, own g k = Some items -> items = groupOf k done /\ items <> [])
  /\ (forall c, c ∈ done -> own g (company c) <> None)
  /\ concat (map snd g) ≡ₚ done.


(** A name is stable when the sanitizer of the selection keeps it as it
    is. *)
Definition stable (name : string) : Prop :=
  validateString (JStr name) 200 = Some name /\ name <> "".

(** What [parseInt] gives: no number, an integer below [2^53] in magnitude,
    or something of magnitude [2^53] or more. *)
Inductive parsedInt : Number -> Prop :=
  | parsed_NaN : parsedInt NaN
  | parsed_safe z : - 2 ^ 53 < z < 2 ^ 53 -> parsedInt (ofZ z)
  | parsed_Inf s : parsedInt (Inf s)
  | parsed_high q : (inject_Z (2 ^ 53) <= q)%Q -> parsedInt (Fin q)
  | parsed_low q : (q <= inject_Z (- 2 ^ 53))%Q -> parsedInt (Fin q).

(** *** Ranges, and notions of the further properties *)

(** The [n] integers from [lo] on. *)
Fixpoint zrange (lo : Z) (n : nat) : list Z :=
  match n with
  | O => []
  | S n' => lo :: zrange (lo + 1) n'
  end.

(** The options of the years from [lo] to [hi]: four for each year. *)
Definition quartersOfYears (lo hi : Z) : list QuarterOption :=
  flat_map (fun y => map (fun q => quarterOption (ofZ y) (ofZ q)) [1; 2; 3; 4])
           (zrange lo (Z.to_nat (hi - lo + 1))).

(** Equality of two numbers as values of the model. *)
Definition Num_same (a b : Number) : bool :=
  match a, b with
  | NaN, NaN => true
  | Inf s, Inf s' => Bool.eqb s s'
  | Fin x, Fin y => (Qnum x =? Qnum y) && (Qden x =? Qden y)%positive
  | _, _ => false
  end.

(** An integer that is written as its decimal digits and read back as
    itself. *)
Definition reads_back (z : Z) : bool :=
  String.eqb (Number_toString (ofZ z)) (Z_toString z)
  && Num_same (parseInt_str (Number_toString (ofZ z))) (ofZ z).

(** A string without the characters that [validateString] removes. *)
Definition clean (s : string) : Prop := Forall (fun c => is_dangerous c = false) (chars s).

(** The order of [companies]: by code units. *)
Definition byName (a b : string) : Prop := String.leb a b = true.

(** Two indices into the quarter options, the first not after the
    second. *)
Definition validRange (quarterOptions : list QuarterOption) (dateRange : Number * Number)
    : Prop :=
  exists i j, dateRange = (ofZ i, ofZ j) /\ 0 <= i <= j /\ j < Z.of_nat (length quarterOptions).

(** ** Data for the examples *)

Definition row (cells : list (string * string)) : Row := list_to_map cells.

Definition appleStock : Row :=
  row [("Symbol", "AAPL"); ("CompanyName", "Apple Inc."); ("CIK", "320193")].

Definition appleForm : Row :=
  row [("id", "1"); ("FormName", "aapl-20231230"); ("CIK", "320193");
       ("ValueDate", "2023-12-30"); ("FilingDate", "2024-02-02");
       ("FormURL", "https://sec.gov/x")].

Definition appleTask : Row := row [("Form_id", "1"); ("CCP", "73100.0"); ("LTD", "106042.0")].


Definition task (formId : string) (ccp ltd : Z) : Task :=
  {| formId := formId; ccp := ofZ ccp; ltd := ofZ ltd; textListLen := None;
     tableIndex := None; sumDivider := Some (ofZ 1); jsonTable := None;
     valueColumn := None |}.

Definition appleStocks : gmap string Stock :=
  buildMap stock_cik [{| symbol := "AAPL"; companyName := "Apple Inc.";
                         stock_cik := "320193" |}].

Definition appleForms : gmap string Form :=
  buildMap form_id [{| form_id := "1"; formName := "aapl-20231230";
                       form_cik := "320193"; valueDate := "2023-12-30";
                       filingDate := "2024-02-02"; formURL := "https://sec.gov/x" |}].

Definition day (y m d : Z) : Z := days_from_civil y m d * msPerDay.

Definition record (company ident : string) (y q t : Z) : CombinedRecord :=
  {| id := ident; company := company; rec_symbol := company; cik := "1";
     year := y; quarter := q; date := t; dateString := isoDay t;
     quarterLabel := "Q" +:+ Z_toString q +:+ " " +:+ Z_toString y;
     rec_ccp := ofZ 1; rec_ltd := ofZ 1; rec_formName := "10-Q";
     rec_formURL := "https://www.sec.gov/" |}.

(** 5000 records of one company on the last day of 2020, and one record of
    another company on the first day of that year. *)
Definition lateRecords : list CombinedRecord :=
  map (fun n => record "Late Corp" (Z_toString (Z.of_nat n)) 2020 4 (day 2020 12 31))
      (seq 1 (Z.to_nat 5000)).

Definition earlyRecord : CombinedRecord := record "Early Corp" "5001" 2020 1 (day 2020 1 1).

Definition crowded : JsObject (list CombinedRecord) :=
  [("Late Corp", lateRecords); ("Early Corp", [earlyRecord])].

(** 51 companies with one record each. *)
Definition manyCompanies : JsObject (list CombinedRecord) :=
  map (fun n => let name := "Company " +:+ Z_toString (Z.of_nat n) in
                (name, [record name (Z_toString (Z.of_nat n)) 2020 1 (day 2020 1 1)]))
      (seq 1 51).

(** A company whose name the sanitizer of the selection changes. *)
Definition ampersand : JsObject (list CombinedRecord) :=
  [("Procter & Gamble", [record "Procter & Gamble" "1" 2020 1 (day 2020 1 1)])].

(** Records of two companies over the quarters of 2019 to 2021. *)
Definition quarters : JsObject (list CombinedRecord) :=
  [("Apple Inc.", [record "Apple Inc." "1" 2019 4 (day 2019 12 28);
                   record "Apple Inc." "2" 2020 1 (day 2020 3 28);
                   record "Apple Inc." "3" 2020 4 (day 2020 12 26);
                   record "Apple Inc." "4" 2021 1 (day 2021 3 27)]);
   ("Microsoft", [record "Microsoft" "5" 2020 3 (day 2020 9 30);
                  record "Microsoft" "6" 2020 4 (day 2020 12 31)])].

(** Three files with two companies and three filings. *)
Definition msftStock : Row :=
  row [("Symbol", "MSFT"); ("CompanyName", "Microsoft Corp"); ("CIK", "789019")].

Definition msftForm : Row :=
  row [("id", "2"); ("FormName", "msft-20200930"); ("CIK", "789019");
       ("ValueDate", "2020-09-30"); ("FilingDate", "2020-10-27");
       ("FormURL", "https://www.sec.gov/y")].

Definition msftTask : Row := row [("Form_id", "2"); ("CCP", "13576"); ("LTD", "59578")].

Definition appleForm2 : Row :=
  row [("id", "3"); ("FormName", "aapl-20200328"); ("CIK", "320193");
       ("ValueDate", "2020-03-28"); ("FilingDate", "2020-05-01");
       ("FormURL", "https://www.sec.gov/z")].

Definition appleTask2 : Row := row [("Form_id", "3"); ("CCP", "40174"); ("LTD", "89086")].

Definition sampleStocks : list Row := [appleStock; msftStock].
Definition sampleForms : list Row := [appleForm; msftForm; appleForm2].
Definition sampleTasks : list Row := [appleTask; msftTask; appleTask2].

(** A dataset of 51 companies, as the dashboard holds it. *)
Definition manyCompaniesData : Dataset :=
  {| combinedData := sortByDate (concat (map snd manyCompanies));
     groupedData := manyCompanies;
     companies := sortStrings (Object_keys manyCompanies);
     dateRange_min := 2020;
     dateRange_max := 2020;
     stats := {| totalRecords := 51; companiesCount := 51; yearsSpan := 1;
                 dataQuality := {| stocksSanitized := 51; formsSanitized := 51;
                                   tasksSanitized := 51; originalStocks := 51;
                                   originalForms := 51; originalTasks := 51 |} |} |}.

(** * Properties *)

(** ** Numbers and their order *)

Lemma Num_lt_false_le x b :
  isFinite x = true -> b <> NaN -> Num_lt x b = false -> Num_le b x = true.
Proof.
  destruct x as [| |x]; try discriminate. intros _ Hb.
  destruct b as [|[]|b]; simpl; try congruence.
  unfold Qlt_bool. intros Hlt. now apply negb_false_iff in Hlt.
Qed.

Lemma Num_gt_false_le x b :
  isFinite x = true -> b <> NaN -> Num_gt x b = false -> Num_le x b = true.
Proof.
  destruct x as [| |x]; try discriminate. intros _ Hb.
  destruct b as [|[]|b]; unfold Num_gt; simpl; try congruence.
  unfold Qlt_bool. intros Hlt. now apply negb_false_iff in Hlt.
Qed.

(** A number that is not below a positive bound is truthy. *)
Lemma Num_truthy_above x b :
  (0 < b)%Q -> Num_le (Fin b) x = true -> Num_truthy x = true.
Proof.
  intros Hb. destruct x as [|[]|x]; simpl; try congruence.
  intros Hle. apply Qle_bool_iff in Hle. apply negb_true_iff.
  destruct (Qeq_bool x 0) eqn:E; [|reflexivity].
  apply Qeq_bool_iff in E. rewrite E in Hle.
  exfalso. eapply Qlt_irrefl, Qlt_le_trans; eauto.
Qed.

(** *** Integers as Numbers *)

Lemma pow2_nonneg e : 0 <= e -> (pow2 e == inject_Z (2 ^ e))%Q.
Proof. intros He. unfold pow2. now rewrite (Zpower_Qpower 2 e He). Qed.

Lemma pow2_pos e : (0 < pow2 e)%Q.
Proof. apply Qpower_0_lt. reflexivity. Qed.

Lemma round_half_even_Z n x : (x == inject_Z n)%Q -> round_half_even x = n.
Proof.
  intros Hx. unfold round_half_even. cbv zeta.
  rewrite (Qfloor_comp _ _ Hx), Qfloor_Z.
  assert (E : (x - inject_Z n == 0)%Q) by (rewrite Hx; ring).
  now rewrite (Qcompare_comp _ _ E _ _ (Qeq_refl _)).
Qed.

Lemma Qred_inject_Z z : Qred (inject_Z z) = inject_Z z.
Proof. apply Qred_identity. simpl. apply Z.gcd_1_r. Qed.

Lemma floor_log2_Z k : 0 < k -> floor_log2 (inject_Z k) = Z.log2 k.
Proof.
  intros Hk.
  assert (H : Qle_bool (pow2 (Z.log2 k)) (inject_Z k) = true).
  { apply Qle_bool_iff. rewrite pow2_nonneg by apply Z.log2_nonneg.
    rewrite <- Zle_Qle. now apply Z.log2_spec. }
  unfold floor_log2. cbv zeta.
  change (Qnum (inject_Z k)) with k. change (Z.pos (Qden (inject_Z k))) with 1.
  change (Z.log2 1) with 0. rewrite Z.sub_0_r. now rewrite H.
Qed.

(** Scaling by a power of two. *)
Lemma pow2_scale (m u : Z) : u <= 0 -> (inject_Z m / pow2 u == inject_Z (m * 2 ^ (- u)))%Q.
Proof.
  intros Hu. unfold pow2.
  replace u with (- - u) at 1 by lia. rewrite Qpower_opp.
  rewrite <- (Zpower_Qpower 2 (- u)) by lia.
  rewrite inject_Z_mult. field.
  intros H0. unfold Qeq in H0. simpl in H0.
  assert (0 < 2 ^ (- u)) by (apply Z.pow_pos_nonneg; lia). lia.
Qed.

Lemma pow2_unscale (m u : Z) : u <= 0 -> (inject_Z (m * 2 ^ (- u)) * pow2 u == inject_Z m)%Q.
Proof.
  intros Hu. rewrite <- pow2_scale by assumption. field.
  intros H0. pose proof (pow2_pos u) as Hp. rewrite H0 in Hp. now apply Qlt_irrefl in Hp.
Qed.

(** An integer below [2^53] is a Number. *)
Lemma round64_small k : 0 < k < 2 ^ 53 -> round64 (inject_Z k) = ofZ k.
Proof.
  intros [Hpos Hlt]. unfold round64.
  assert (Hc : (inject_Z k ?= 0)%Q = Gt).
  { apply Qgt_alt. change 0%Q with (inject_Z 0). now rewrite <- Zlt_Qlt. }
  rewrite Hc. unfold round64_pos. rewrite (floor_log2_Z k Hpos).
  assert (Hlog : Z.log2 k < 53) by (apply Z.log2_lt_pow2; lia).
  pose proof (Z.log2_nonneg k) as Hlog0.
  rewrite Z.max_l by lia.
  set (u := Z.log2 k - 52). assert (Hu : u <= 0) by (unfold u; lia).
  rewrite (round_half_even_Z (k * 2 ^ (- u))) by now apply pow2_scale.
  assert (Hv : (inject_Z (k * 2 ^ (- u)) * pow2 u == inject_Z k)%Q) by now apply pow2_unscale.
  assert (Hsmall : Qle_bool (pow2 1024) (inject_Z (k * 2 ^ (- u)) * pow2 u) = false).
  { rewrite Hv. apply not_true_iff_false. rewrite Qle_bool_iff.
    rewrite pow2_nonneg by lia. rewrite <- Zle_Qle.
    assert (2 ^ 53 < 2 ^ 1024) by (apply Z.pow_lt_mono_r; lia). lia. }
  rewrite Hsmall. unfold ofZ. f_equal.
  rewrite (Qred_complete _ _ Hv). apply Qred_inject_Z.
Qed.

Lemma round_half_even_floor x : Qfloor x <= round_half_even x.
Proof.
  unfold round_half_even. cbv zeta.
  destruct (Qcompare _ _); [destruct (Z.even _)| |]; lia.
Qed.

(** An integer from [2^53] on rounds to a Number from [2^53] on, or to
    infinity. *)
Lemma round64_large k :
  2 ^ 53 <= k ->
  round64 (inject_Z k) = Inf false
  \/ exists q, round64 (inject_Z k) = Fin q /\ (inject_Z (2 ^ 53) <= q)%Q.
Proof.
  intros Hk. assert (Hpos : 0 < k) by (assert (0 < 2 ^ 53) by reflexivity; lia).
  unfold round64.
  assert (Hc : (inject_Z k ?= 0)%Q = Gt).
  { apply Qgt_alt. change 0%Q with (inject_Z 0). now rewrite <- Zlt_Qlt. }
  rewrite Hc. unfold round64_pos. rewrite (floor_log2_Z k Hpos).
  assert (Hlog : 53 <= Z.log2 k) by (apply Z.log2_le_pow2; lia).
  rewrite Z.max_l by lia.
  set (u := Z.log2 k - 52). assert (Hu : 1 <= u) by (unfold u; lia).
  set (m := round_half_even (inject_Z k / pow2 u)).
  assert (Hm : 2 ^ 52 <= m).
  { etransitivity; [|apply round_half_even_floor].
    rewrite <- (Qfloor_Z (2 ^ 52)). apply Qfloor_resp_le.
    apply Qle_shift_div_l; [apply pow2_pos|].
    rewrite pow2_nonneg by lia. rewrite <- inject_Z_mult, <- Zle_Qle.
    rewrite <- Z.pow_add_r by lia. replace (52 + u) with (Z.log2 k) by (unfold u; lia).
    now apply Z.log2_spec. }
  assert (Hv : (inject_Z (2 ^ 53) <= inject_Z m * pow2 u)%Q).
  { rewrite pow2_nonneg by lia. rewrite <- inject_Z_mult, <- Zle_Qle.
    assert (2 ^ 1 <= 2 ^ u) by (apply Z.pow_le_mono_r; lia).
    change (2 ^ 53) with (2 ^ 52 * 2 ^ 1). apply Z.mul_le_mono_nonneg; lia. }
  destruct (Qle_bool _ _); [now left|]. right.
  eexists. split; [reflexivity|]. now rewrite Qred_correct.
Qed.

(** ** The validators *)

Lemma validateNumber_eq value min max :
  validateNumber value min max = (s ← ToString value; mret (checked (parseFloat_str s) min max)).
Proof.
  unfold validateNumber, parseFloat, checked.
  destruct (ToString value) as [s|e]; [|reflexivity].
  cbv [mbind Result_bind mret Result_ret].
  destruct (isNaN _ || _); [reflexivity|]. now destruct (_ || _).
Qed.

Lemma validateInteger_eq value min max :
  validateInteger value min max = (s ← ToString value; mret (checked (parseInt_str s) min max)).
Proof.
  unfold validateInteger, parseInt, checked.
  destruct (ToString value) as [s|e]; [|reflexivity].
  cbv [mbind Result_bind mret Result_ret].
  destruct (isNaN _ || _); [reflexivity|]. now destruct (_ || _).
Qed.

Lemma checked_Some num min max x :
  checked num min max = Some x ->
  x = num /\ isFinite x = true /\ Num_lt x min = false /\ Num_gt x max = false.
Proof.
  unfold checked.
  destruct (isNaN num || negb (isFinite num)) eqn:E0; [discriminate|].
  destruct (Num_lt num min) eqn:E1; [discriminate|].
  destruct (Num_gt num max) eqn:E2; [discriminate|].
  intros [= <-]. destruct num; try discriminate. auto.
Qed.

Lemma checked_bounds num min max x :
  min <> NaN -> max <> NaN -> checked num min max = Some x ->
  isFinite x = true /\ Num_le min x = true /\ Num_le x max = true.
Proof.
  intros Hmin Hmax Hc. apply checked_Some in Hc as (_ & Hf & Hlo & Hhi).
  split; [assumption|]. split.
  - now apply Num_lt_false_le.
  - now apply Num_gt_false_le.
Qed.

(** A validated number is finite. *)
Lemma validateInteger_Fin value min max x :
  validateInteger value min max = Ok (Some x) -> exists q, x = Fin q.
Proof.
  rewrite validateInteger_eq. destruct (ToString value); simpl; [|discriminate].
  intros [= Hc]. apply checked_Some in Hc as (_ & Hf & _).
  destruct x; try discriminate. eauto.
Qed.

Lemma validateInteger_bounds value min max x :
  min <> NaN -> max <> NaN -> validateInteger value min max = Ok (Some x) ->
  isFinite x = true /\ Num_le min x = true /\ Num_le x max = true.
Proof.
  intros Hmin Hmax. rewrite validateInteger_eq.
  destruct (ToString value); simpl; [|discriminate].
  intros [= Hc]. eapply checked_bounds; eauto.
Qed.

Lemma is_digit_value c : is_digit c = true -> 0 <= digit_value c <= 9.
Proof. unfold is_digit, digit_value. lia. Qed.

Lemma span_digits_digits s : forallb is_digit (chars (span_digits s).1) = true.
Proof.
  induction s as [|c r IH]; simpl; [reflexivity|].
  destruct (is_digit c) eqn:Hc; [|reflexivity].
  destruct (span_digits r) as [d t]. simpl in *. now rewrite Hc.
Qed.

Lemma digits_fold_nonneg l acc :
  0 <= acc -> forallb is_digit l = true ->
  0 <= fold_left (fun acc c => 10 * acc + digit_value c) l acc.
Proof.
  revert acc. induction l as [|c l IH]; simpl; intros acc Hacc Hl; [assumption|].
  apply andb_true_iff in Hl as [Hc Hl]. apply is_digit_value in Hc.
  apply IH; [lia | assumption].
Qed.

Lemma digits_value_nonneg s : forallb is_digit (chars s) = true -> 0 <= digits_value s.
Proof. apply digits_fold_nonneg. lia. Qed.

Lemma Num_neg_ofZ z : Num_neg (ofZ z) = ofZ (- z).
Proof.
  unfold Num_neg, ofZ. f_equal. rewrite <- inject_Z_opp. apply Qred_inject_Z.
Qed.

Lemma parseInt_str_parsed s : parsedInt (parseInt_str s).
Proof.
  unfold parseInt_str. destruct (split_sign (trimStart s)) as [negative s2].
  pose proof (span_digits_digits s2) as Hd.
  destruct (span_digits s2) as [ds rest]. simpl in Hd.
  destruct (String.eqb ds ""); [constructor|].
  apply digits_value_nonneg in Hd. set (k := digits_value ds) in *.
  assert (Hk : k = 0 \/ 0 < k < 2 ^ 53 \/ 2 ^ 53 <= k) by lia.
  destruct Hk as [-> | [Hk | Hk]].
  - change (round64 (inject_Z 0)) with (ofZ 0).
    destruct negative; cbv [with_sign]; [rewrite Num_neg_ofZ|];
      apply parsed_safe; split; reflexivity.
  - rewrite (round64_small k Hk).
    destruct negative; cbv [with_sign]; [rewrite Num_neg_ofZ|]; apply parsed_safe; lia.
  - destruct (round64_large k Hk) as [-> | (q & -> & Hq)].
    + destruct negative; constructor.
    + destruct negative; cbv [with_sign Num_neg]; [apply parsed_low | now apply parsed_high].
      rewrite Qred_correct. rewrite inject_Z_opp. now apply Qopp_le_compat.
Qed.

(** Within bounds that are integers below [2^53] in magnitude,
    [validateInteger] returns integers. *)
Lemma validateInteger_integer value a b x :
  - 2 ^ 53 < a -> b < 2 ^ 53 ->
  validateInteger value (ofZ a) (ofZ b) = Ok (Some x) ->
  exists z, x = ofZ z /\ a <= z <= b.
Proof.
  intros Ha Hb. rewrite validateInteger_eq.
  destruct (ToString value) as [s|]; simpl; [|discriminate].
  intros [= Hc]. pose proof (parseInt_str_parsed s) as Hp.
  apply checked_Some in Hc as (-> & Hfin & Hlo & Hhi).
  unfold Num_gt in Hhi. revert Hp Hfin Hlo Hhi.
  generalize (parseInt_str s). intros n Hp.
  destruct Hp as [|z Hz|sg|q Hq|q Hq]; intros Hfin Hlo Hhi; try discriminate.
  - exists z. split; [reflexivity|]. unfold Num_lt, ofZ, Qlt_bool in *.
    apply negb_false_iff, Qle_bool_iff in Hlo, Hhi.
    rewrite <- Zle_Qle in Hlo, Hhi. lia.
  - exfalso. unfold Num_lt, ofZ, Qlt_bool in Hhi.
    apply negb_false_iff, Qle_bool_iff in Hhi.
    assert (H : (inject_Z (2 ^ 53) <= inject_Z b)%Q) by (eapply Qle_trans; eassumption).
    rewrite <- Zle_Qle in H. lia.
  - exfalso. unfold Num_lt, ofZ, Qlt_bool in Hlo.
    apply negb_false_iff, Qle_bool_iff in Hlo.
    assert (H : (inject_Z a <= inject_Z (- 2 ^ 53))%Q) by (eapply Qle_trans; eassumption).
    rewrite <- Zle_Qle in H. lia.
Qed.

Lemma validateNumber_bounds value min max x :
  min <> NaN -> max <> NaN -> validateNumber value min max = Ok (Some x) ->
  isFinite x = true /\ Num_le min x = true /\ Num_le x max = true.
Proof.
  intros Hmin Hmax. rewrite validateNumber_eq.
  destruct (ToString value); simpl; [|discriminate].
  intros [= Hc]. eapply checked_bounds; eauto.
Qed.

Lemma substring0_length n s : (String.length (substring0 n s) <= n)%nat.
Proof.
  revert s. induction n as [|n IH]; intros [|c r]; simpl; try lia.
  specialize (IH r). lia.
Qed.

Lemma validateString_length value maxLength s :
  validateString value maxLength = Some s -> (String.length s <= maxLength)%nat.
Proof.
  destruct value; simpl; try discriminate. intros [= <-]. apply substring0_length.
Qed.

(** What [validateURL] lets through: the string parses, the scheme is
    [https], the host name ends with [sec.gov], and the result is the
    normalised address. *)
Lemma validateURL_Some `{Runtime} value h :
  validateURL value = Some h <->
  exists s url, value = JStr s /\ s <> "" /\ URL_new s = Ok url
    /\ protocol url = "https:" /\ endsWith (hostname url) "sec.gov" = true
    /\ h = href url.
Proof.
  split.
  - destruct value; simpl; try discriminate.
    unfold Str_truthy. destruct (String.eqb_spec s ""); simpl; [discriminate|].
    destruct (URL_new s) as [url|] eqn:Hurl; [|discriminate].
    destruct (String.eqb_spec (protocol url) "https:"); simpl; [|discriminate].
    destruct (endsWith _ _) eqn:Hend; [|discriminate].
    intros [= <-]. exists s, url. repeat split; auto.
  - intros (s & url & -> & Hne & Hurl & Hp & Hend & ->). simpl.
    unfold Str_truthy. destruct (String.eqb_spec s ""); [contradiction|]. simpl.
    rewrite Hurl, Hp, Hend. reflexivity.
Qed.

Lemma validateDate_Some `{Runtime} value t :
  validateDate value = Some t ->
  exists s, value = JStr s /\ isDateShape s = true /\ Date_parse s = Some t
    /\ 1900 <= getFullYear t <= 2030.
Proof.
  destruct value; simpl; try discriminate.
  destruct (negb (Str_truthy s)); [discriminate|].
  destruct (isDateShape s) eqn:Hshape; simpl; [|discriminate].
  destruct (Date_parse s) as [d|] eqn:Hd; [|discriminate].
  destruct (_ || _) eqn:Hy; [discriminate|]. intros [= <-].
  exists s. repeat split; auto; lia.
Qed.

(** A cell of a row is a string or is missing: converting it to a string
    cannot throw. *)
Lemma ToString_field row column : exists s, ToString (field row column) = Ok s.
Proof. unfold field. destruct (row !! column); simpl; eauto. Qed.

Lemma validateInteger_field row column min max :
  exists r, validateInteger (field row column) min max = Ok r.
Proof.
  rewrite validateInteger_eq. destruct (ToString_field row column) as [s ->].
  simpl. eauto.
Qed.

Lemma validateNumber_field row column min max :
  exists r, validateNumber (field row column) min max = Ok r.
Proof.
  rewrite validateNumber_eq. destruct (ToString_field row column) as [s ->].
  simpl. eauto.
Qed.

Lemma optional_field row column validate otherwise :
  (exists r, validate (field row column) = Ok r) ->
  exists r, optional row column validate otherwise = Ok r.
Proof.
  intros [r Hr]. unfold optional. destruct (truthy _); [eauto|].
  exists otherwise. reflexivity.
Qed.



(** ** The join *)

Section Join.
Context {runtime : Runtime}.
Variable stocksMap : gmap string Stock.
Variable formsMap : gmap string Form.

Lemma combineTask_id task record :
  combineTask stocksMap formsMap task = Some record -> id record = formId task.
Proof.
  unfold combineTask.
  destruct (formsMap !! formId task) as [form|]; [|discriminate].
  destruct (stocksMap !! form_cik form) as [stock|]; [|discriminate].
  destruct (Date_parse (valueDate form)) as [time|]; [|discriminate].
  destruct (_ || _); [discriminate|].
  destruct (_ || _); [discriminate|].
  intros [= <-]. reflexivity.
Qed.

(** A task yields no record for one of four reasons: no form with its form
    id, no stock with the form's company key, a value date that is no date,
    an amount below 0 or above [1e12]. *)
Lemma combineTask_None task :
  combineTask stocksMap formsMap task = None <->
  formsMap !! formId task = None
  \/ exists form, formsMap !! formId task = Some form
       /\ (stocksMap !! form_cik form = None
           \/ Date_parse (valueDate form) = None
           \/ Num_lt (ccp task) (ofZ 0) || Num_lt (ltd task) (ofZ 0) = true
           \/ Num_gt (ccp task) (ofZ (10 ^ 12)) || Num_gt (ltd task) (ofZ (10 ^ 12)) = true).
Proof.
  unfold combineTask.
  destruct (formsMap !! formId task) as [form|]; [|split; auto].
  destruct (stocksMap !! form_cik form) as [stock|] eqn:Hs.
  2: { split; [|reflexivity]. intros _. right. exists form.
       split; [reflexivity|]. left. exact Hs. }
  destruct (Date_parse (valueDate form)) as [time|] eqn:Hd.
  2: { split; [|reflexivity]. intros _. right. exists form.
       split; [reflexivity|]. right. left. exact Hd. }
  destruct (Num_lt _ _ || Num_lt _ _) eqn:Hlow.
  { split; [|reflexivity]. intros _. right. exists form.
    split; [reflexivity|]. right. right. left. reflexivity. }
  destruct (Num_gt _ _ || Num_gt _ _) eqn:Hhigh.
  { split; [|reflexivity]. intros _. right. exists form.
    split; [reflexivity|]. right. right. right. reflexivity. }
  split; [discriminate|].
  intros [Hno | (form' & [= <-] & [Hs' | [Hd' | [Hl | Hh]]])]; congruence.
Qed.

(** A task whose form id was met before changes nothing. *)
Lemma joinStep_seen st task :
  formId task ∈ st.2 -> joinStep stocksMap formsMap st task = st.
Proof.
  destruct st as [combinedData processed]. simpl. intros Hin.
  now rewrite bool_decide_eq_true_2.
Qed.

(** Every task marks its form id, whatever becomes of it. *)
Lemma joinStep_processed st task :
  (joinStep stocksMap formsMap st task).2 = {[formId task]} ∪ st.2.
Proof.
  destruct st as [combinedData processed]. simpl.
  destruct (bool_decide_reflect (formId task ∈ processed)) as [Hin|Hnot]; simpl.
  - set_solver.
  - now destruct (combineTask stocksMap formsMap task).
Qed.

Lemma joinFrom_processed tasks st :
  (joinFrom stocksMap formsMap st tasks).2 = list_to_set (map formId tasks) ∪ st.2.
Proof.
  revert st. induction tasks as [|task tasks IH]; intros st; simpl.
  - set_solver.
  - unfold joinFrom in *. simpl. rewrite IH, joinStep_processed. set_solver.
Qed.

Lemma joinFrom_app l1 l2 st :
  joinFrom stocksMap formsMap st (l1 ++ l2)
  = joinFrom stocksMap formsMap (joinFrom stocksMap formsMap st l1) l2.
Proof. unfold joinFrom. apply fold_left_app. Qed.

Lemma joinFrom_cons task tasks st :
  joinFrom stocksMap formsMap st (task :: tasks)
  = joinFrom stocksMap formsMap (joinStep stocksMap formsMap st task) tasks.
Proof. reflexivity. Qed.

(** A record of the result was there before, or comes from a task of the
    list whose form id had not been met. *)
Lemma joinFrom_origin tasks st record :
  record ∈ (joinFrom stocksMap formsMap st tasks).1 ->
  (record ∈ st.1)
  \/ ((id record ∉ st.2)
      /\ exists task, task ∈ tasks /\ combineTask stocksMap formsMap task = Some record).
Proof.
  revert st. induction tasks as [|task tasks IH]; intros st; simpl.
  - auto.
  - intros Hin. apply IH in Hin as [Hin | (Hnew & t & Ht & Hc)].
    + destruct st as [combinedData processed]. simpl in *.
      destruct (bool_decide_reflect (formId task ∈ processed)) as [Hseen|Hnot];
        simpl in *; [auto|].
      destruct (combineTask stocksMap formsMap task) as [r|] eqn:Hc; simpl in *; [|auto].
      apply elem_of_app in Hin as [Hin | Hin]; [auto|].
      apply list_elem_of_singleton in Hin as ->. right. split.
      * now rewrite (combineTask_id _ _ Hc).
      * exists task. split; [left | assumption].
    + right. rewrite joinStep_processed in Hnew. split; [set_solver|].
      exists t. split; [now right | assumption].
Qed.

(** The ids of the records are among the form ids met, and no two records
    share one. *)
Lemma joinFrom_NoDup tasks st :
  NoDup (map id st.1) -> (forall record, record ∈ st.1 -> id record ∈ st.2) ->
  NoDup (map id (joinFrom stocksMap formsMap st tasks).1).
Proof.
  revert st. induction tasks as [|task tasks IH]; intros st Hnd Hsub; simpl.
  - assumption.
  - apply IH; destruct st as [combinedData processed]; simpl in *;
      destruct (bool_decide_reflect (formId task ∈ processed)) as [Hseen|Hnot];
      simpl; auto;
      destruct (combineTask stocksMap formsMap task) as [r|] eqn:Hc; simpl.
    + rewrite map_app. simpl. apply NoDup_app. split; [assumption|]. split.
      * intros x Hx Hx'. apply list_elem_of_singleton in Hx' as ->.
        apply list_elem_of_fmap in Hx as (r' & Hid & Hr').
        apply Hsub in Hr'. rewrite <- Hid, (combineTask_id _ _ Hc) in Hr'. contradiction.
      * apply NoDup_singleton.
    + assumption.
    + intros record Hin. apply elem_of_app in Hin as [Hin | Hin].
      * apply Hsub in Hin. set_solver.
      * apply list_elem_of_singleton in Hin as ->.
        rewrite (combineTask_id _ _ Hc). set_solver.
    + intros record Hin. apply Hsub in Hin. set_solver.
Qed.

Lemma joinTasks_NoDup tasks : NoDup (map id (joinTasks stocksMap formsMap tasks)).
Proof.
  unfold joinTasks. apply joinFrom_NoDup; simpl.
  - constructor.
  - intros record Hin. now apply elem_of_nil in Hin.
Qed.

(** A record carries the id of a form. *)
Lemma combineTask_form task record :
  combineTask stocksMap formsMap task = Some record -> id record ∈ dom formsMap.
Proof.
  intros Hc. rewrite (combineTask_id _ _ Hc). apply elem_of_dom.
  unfold combineTask in Hc. destruct (formsMap !! formId task); [eauto | discriminate].
Qed.

(** There are no more records than forms. *)
Lemma joinTasks_bounded tasks :
  (length (joinTasks stocksMap formsMap tasks) <= size formsMap)%nat.
Proof.
  rewrite <- size_dom, <- (length_map id).
  apply submseteq_length, NoDup_submseteq; [apply joinTasks_NoDup|].
  intros x Hx. apply elem_of_elements.
  apply list_elem_of_fmap in Hx as (r & -> & Hr).
  apply joinFrom_origin in Hr as [Hr | (_ & task & _ & Hc)].
  - now apply elem_of_nil in Hr.
  - eapply combineTask_form; eassumption.
Qed.

(** The later of two tasks with one form id leaves no trace. *)
Lemma joinTasks_later_duplicate l1 t1 l2 t2 l3 :
  formId t1 = formId t2 ->
  joinTasks stocksMap formsMap (l1 ++ t1 :: l2 ++ t2 :: l3)
  = joinTasks stocksMap formsMap (l1 ++ t1 :: l2 ++ l3).
Proof.
  intros Heq. unfold joinTasks. f_equal.
  replace (l1 ++ t1 :: l2 ++ t2 :: l3) with ((l1 ++ t1 :: l2) ++ t2 :: l3)
    by now rewrite <- app_assoc.
  replace (l1 ++ t1 :: l2 ++ l3) with ((l1 ++ t1 :: l2) ++ l3)
    by now rewrite <- app_assoc.
  rewrite (joinFrom_app (l1 ++ t1 :: l2) (t2 :: l3)), (joinFrom_app (l1 ++ t1 :: l2) l3).
  rewrite joinFrom_cons, joinStep_seen; [reflexivity|].
  rewrite joinFrom_processed, map_app. simpl. rewrite Heq. set_solver.
Qed.

(** When the first task with a form id yields no record, no record of the
    result has that id. *)
Lemma joinTasks_first_fails l1 t1 l2 record :
  formId t1 ∉ map formId l1 ->
  combineTask stocksMap formsMap t1 = None ->
  record ∈ joinTasks stocksMap formsMap (l1 ++ t1 :: l2) ->
  id record <> formId t1.
Proof.
  intros Hfirst Hfail. unfold joinTasks. rewrite joinFrom_app, joinFrom_cons.
  intros Hin. apply joinFrom_origin in Hin as [Hin | (Hnew & _)].
  - destruct (joinFrom stocksMap formsMap ([], ∅) l1) as [combinedData processed] eqn:Hst.
    simpl in Hin.
    assert (Hold : record ∈ combinedData).
    { destruct (bool_decide (formId t1 ∈ processed)); simpl in Hin; [assumption|].
      now rewrite Hfail in Hin. }
    replace combinedData with (joinFrom stocksMap formsMap ([], ∅) l1).1 in Hold
      by now rewrite Hst.
    apply joinFrom_origin in Hold as [Hold | (_ & t & Ht & Hc)].
    + now apply elem_of_nil in Hold.
    + rewrite (combineTask_id _ _ Hc). intros Heq. apply Hfirst.
      rewrite <- Heq. apply list_elem_of_fmap. eauto.
  - rewrite joinStep_processed in Hnew. set_solver.
Qed.

End Join.

Lemma buildMap_size {A} (key : A -> string) (l : list A) :
  (size (buildMap key l) <= length l)%nat.
Proof.
  unfold buildMap.
  assert (Hgen : forall m : gmap string A,
            (size (fold_left (fun m a => <[key a := a]> m) l m) <= size m + length l)%nat).
  { induction l as [|a l IH]; intros m; simpl; [lia|].
    specialize (IH (<[key a := a]> m)). rewrite map_size_insert in IH.
    destruct (m !! key a); simpl in IH; lia. }
  specialize (Hgen ∅). now rewrite map_size_empty in Hgen.
Qed.

(** ** Sorting *)

Lemma insertByDate_perm x l : insertByDate x l ≡ₚ x :: l.
Proof.
  induction l as [|y l IH]; simpl; [reflexivity|].
  destruct (date x <=? date y); [reflexivity|].
  rewrite IH. apply perm_swap.
Qed.

Lemma sortByDate_perm l : sortByDate l ≡ₚ l.
Proof.
  induction l as [|x l IH]; simpl; [reflexivity|].
  now rewrite insertByDate_perm, IH.
Qed.

Lemma insertByDate_sorted x l : Sorted byDate l -> Sorted byDate (insertByDate x l).
Proof.
  induction 1 as [|y l Hs IH Hhd]; simpl.
  - repeat constructor.
  - destruct (Z.leb_spec (date x) (date y)) as [Hle|Hgt].
    + repeat constructor; assumption.
    + constructor; [assumption|].
      destruct l as [|z l]; simpl in *.
      * constructor. unfold byDate. lia.
      * inversion Hhd; subst.
        destruct (date x <=? date z); constructor; unfold byDate in *; lia.
Qed.

Lemma sortByDate_sorted l : Sorted byDate (sortByDate l).
Proof.
  induction l as [|x l IH]; simpl; [constructor|]. now apply insertByDate_sorted.
Qed.

Lemma sortByDate_length l : length (sortByDate l) = length l.
Proof. apply Permutation_length, sortByDate_perm. Qed.

(** ** Objects *)

Lemma insertIndex_perm k l : insertIndex k l ≡ₚ k :: l.
Proof.
  induction l as [|k' l IH]; simpl; [reflexivity|].
  destruct (_ <=? _); [reflexivity|]. rewrite IH. apply perm_swap.
Qed.

Lemma Object_keys_perm {V} (o : JsObject V) : Object_keys o ≡ₚ map fst o.
Proof.
  unfold Object_keys.
  transitivity (filter (fun k => is_array_index k = true) (map fst o)
                ++ filter (fun k => is_array_index k ≠ true) (map fst o)).
  - apply Permutation_app_tail.
    induction (filter _ (map fst o)) as [|k l IH]; simpl; [reflexivity|].
    now rewrite insertIndex_perm, IH.
  - apply filter_app_complement.
Qed.

Lemma own_Some_elem {V} (o : JsObject V) k v : own o k = Some v -> (k, v) ∈ o.
Proof.
  induction o as [|[k' v'] o IH]; simpl; [discriminate|].
  destruct (String.eqb_spec k' k) as [->|Hne].
  - intros [= ->]. left.
  - intros Hown. right. auto.
Qed.

Lemma own_None_keys {V} (o : JsObject V) k : own o k = None <-> k ∉ map fst o.
Proof.
  induction o as [|[k' v'] o IH]; simpl.
  - split; [intros _; apply not_elem_of_nil | reflexivity].
  - destruct (String.eqb_spec k' k) as [->|Hne].
    + split; [discriminate|]. intros Hn. exfalso. apply Hn. left.
    + rewrite IH. rewrite not_elem_of_cons. split; [intros ?; split; congruence | tauto].
Qed.

Lemma own_elem {V} (o : JsObject V) k v :
  NoDup (map fst o) -> (k, v) ∈ o -> own o k = Some v.
Proof.
  induction o as [|[k' v'] o IH]; simpl; intros Hnd Hin.
  - now apply elem_of_nil in Hin.
  - apply NoDup_cons in Hnd as [Hk' Hnd].
    apply elem_of_cons in Hin as [[= -> ->] | Hin].
    + now rewrite String.eqb_refl.
    + destruct (String.eqb_spec k' k) as [->|Hne]; [|auto].
      exfalso. apply Hk'. apply list_elem_of_fmap. now exists (k, v).
Qed.

Lemma assign_keys {V} (o : JsObject V) k v : map fst (assign o k v) = map fst o.
Proof.
  induction o as [|[k' v'] o IH]; simpl; [reflexivity|].
  destruct (String.eqb k' k); simpl; congruence.
Qed.

Lemma own_assign {V} (o : JsObject V) k v k' :
  own (assign o k v) k'
  = if String.eqb k k' then (match own o k with Some _ => Some v | None => None end)
    else own o k'.
Proof.
  induction o as [|[k0 v0] o IH]; simpl.
  - now destruct (String.eqb k k').
  - destruct (String.eqb_spec k0 k) as [->|Hne]; simpl.
    + destruct (String.eqb_spec k k'); reflexivity.
    + rewrite IH. destruct (String.eqb_spec k0 k') as [->|Hne'].
      * destruct (String.eqb_spec k k'); [congruence | reflexivity].
      * reflexivity.
Qed.

Lemma own_app_new {V} (o : JsObject V) k v k' :
  own (o ++ [(k, v)]) k'
  = match own o k' with
    | Some v' => Some v'
    | None => if String.eqb k k' then Some v else None
    end.
Proof.
  induction o as [|[k0 v0] o IH]; simpl; [reflexivity|].
  destruct (String.eqb k0 k'); [reflexivity | apply IH].
Qed.

Lemma concat_assign {A} (o : JsObject (list A)) k items x :
  own o k = Some items ->
  concat (map snd (assign o k (items ++ [x]))) ≡ₚ x :: concat (map snd o).
Proof.
  induction o as [|[k0 v0] o IH]; simpl; [discriminate|].
  destruct (String.eqb k0 k); simpl.
  - intros [= ->]. rewrite <- app_assoc. simpl.
    symmetry. apply Permutation_middle.
  - intros Hown. rewrite (IH Hown). symmetry.
    apply (Permutation_middle v0 (concat (map snd o)) x).
Qed.

(** ** Grouping *)

Lemma groupOf_app k l1 l2 : groupOf k (l1 ++ l2) = groupOf k l1 ++ groupOf k l2.
Proof. unfold groupOf. apply List.filter_app. Qed.

Lemma groupOf_elem k l c : c ∈ groupOf k l <-> c ∈ l /\ company c = k.
Proof.
  unfold groupOf. rewrite !list_elem_of_In, List.filter_In.
  now destruct (String.eqb_spec (company c) k).
Qed.

Lemma groupOf_nil k l : (forall c, c ∈ l -> company c <> k) -> groupOf k l = [].
Proof.
  intros Hno. destruct (groupOf k l) as [|c rest] eqn:E; [reflexivity|].
  assert (Hc : c ∈ groupOf k l) by (rewrite E; left).
  apply groupOf_elem in Hc as [Hc Hk]. now apply Hno in Hc.
Qed.

Lemma grouped_nil : grouped [] [].
Proof.
  split; [constructor|]. split; [discriminate|]. split; [|reflexivity].
  intros c Hc. now apply elem_of_nil in Hc.
Qed.

Lemma groupOf_snoc k l item :
  groupOf k (l ++ [item])
  = groupOf k l ++ (if String.eqb (company item) k then [item] else []).
Proof. rewrite groupOf_app. unfold groupOf at 2. simpl. now destruct (String.eqb _ _). Qed.

Lemma groupStep_grouped g done item g' :
  grouped g done -> groupStep g item = Ok g' -> grouped g' (done ++ [item]).
Proof.
  intros (Hnd & Hown & Hall & Hperm). unfold groupStep.
  destruct (own g (company item)) as [items|] eqn:Hk.
  - intros [= <-]. destruct (Hown _ _ Hk) as [-> Hne].
    split; [now rewrite assign_keys|]. split; [|split].
    + intros k items' H. rewrite own_assign, Hk in H. rewrite groupOf_snoc.
      destruct (String.eqb_spec (company item) k) as [<-|Hne'].
      * injection H as <-. split; [reflexivity|].
        now destruct (groupOf (company item) done).
      * apply Hown in H as [-> Hne'']. now rewrite app_nil_r.
    + intros c Hc. rewrite own_assign, Hk.
      destruct (String.eqb (company item) (company c)); [discriminate|].
      apply elem_of_app in Hc as [Hc | Hc]; [auto|].
      apply list_elem_of_singleton in Hc as ->. congruence.
    + rewrite (concat_assign _ _ _ _ Hk), Hperm.
      apply Permutation_cons_append.
  - destruct (inherited (company item)); [discriminate|]. intros [= <-].
    assert (Hfresh : groupOf (company item) done = []).
    { apply groupOf_nil. intros c Hc Heq. apply (Hall c Hc). now rewrite Heq. }
    split; [|split; [|split]].
    + rewrite map_app. simpl. apply NoDup_app. split; [assumption|]. split.
      * intros k Hin Hin'. apply list_elem_of_singleton in Hin' as ->.
        now apply own_None_keys in Hk.
      * apply NoDup_singleton.
    + intros k items' H. rewrite own_app_new in H. rewrite groupOf_snoc.
      destruct (own g k) as [items0|] eqn:Hk'.
      * injection H as <-. destruct (Hown _ _ Hk') as [-> Hne].
        destruct (String.eqb_spec (company item) k) as [<-|]; [congruence|].
        now rewrite app_nil_r.
      * destruct (String.eqb_spec (company item) k) as [<-|]; [|discriminate].
        injection H as <-. now rewrite Hfresh.
    + intros c Hc. rewrite own_app_new.
      apply elem_of_app in Hc as [Hc | Hc].
      * apply Hall in Hc. now destruct (own g (company c)).
      * apply list_elem_of_singleton in Hc as ->. rewrite Hk.
        now rewrite String.eqb_refl.
    + rewrite map_app, concat_app. simpl. now rewrite Hperm.
Qed.

Lemma groupFrom_grouped items g done g' :
  grouped g done -> groupFrom g items = Ok g' -> grouped g' (done ++ items).
Proof.
  revert g done. induction items as [|item items IH]; intros g done Hg; simpl.
  - intros [= <-]. now rewrite app_nil_r.
  - destruct (groupStep g item) as [g1|] eqn:Hstep; simpl; [|discriminate].
    intros Hrest. replace (done ++ item :: items) with ((done ++ [item]) ++ items)
      by now rewrite <- app_assoc.
    eapply IH; [|eassumption]. eapply groupStep_grouped; eassumption.
Qed.

(** The loop runs to its end when no company is named like an inherited
    property. *)
Lemma groupFrom_returns items g :
  (forall c, c ∈ items -> inherited (company c) = false) ->
  exists g', groupFrom g items = Ok g'.
Proof.
  revert g. induction items as [|item items IH]; intros g Hok; simpl; [eauto|].
  assert (Hstep : exists g1, groupStep g item = Ok g1).
  { unfold groupStep. destruct (own g (company item)); [eauto|].
    rewrite Hok by left. eauto. }
  destruct Hstep as [g1 ->]. simpl. apply IH. intros c Hc. apply Hok. now right.
Qed.

(** ** The dataset *)

Lemma processLoaded_Ok `{Runtime} stocksData formsData tasksData ds :
  processLoaded stocksData formsData tasksData = Ok ds ->
  exists stocks forms tasks,
    sanitizeAll sanitizeStockData stocksData = Ok stocks
    /\ sanitizeAll sanitizeFormData formsData = Ok forms
    /\ sanitizeAll sanitizeTaskData tasksData = Ok tasks
    /\ Z.of_nat (length forms) <= 5000
    /\ combinedData ds
       = sortByDate (joinTasks (buildMap stock_cik stocks) (buildMap form_id forms) tasks)
    /\ groupByCompany (combinedData ds) = Ok (groupedData ds).
Proof.
  unfold processLoaded, rethrow.
  destruct (sanitizeAll sanitizeStockData stocksData) as [stocks|]; simpl; [|discriminate].
  destruct (sanitizeAll sanitizeFormData formsData) as [forms|]; simpl; [|discriminate].
  destruct (sanitizeAll sanitizeTaskData tasksData) as [tasks|]; simpl; [|discriminate].
  destruct (1000 <? _); [discriminate|].
  destruct (Z.ltb_spec 5000 (Z.of_nat (length forms))); [discriminate|].
  destruct (10000 <? _); [discriminate|].
  destruct (_ =? 0); [discriminate|].
  destruct (groupByCompany _) as [g|] eqn:Hg; simpl; [|discriminate].
  destruct (_ || _); [discriminate|].
  intros [= <-]. simpl. exists stocks, forms, tasks. auto 7.
Qed.

(** A dataset has at most 5000 records, one for each form at most: the cut
    of the filter at 5000 matches is out of its reach. *)
Lemma processLoaded_size `{Runtime} stocksData formsData tasksData ds :
  processLoaded stocksData formsData tasksData = Ok ds ->
  Z.of_nat (length (combinedData ds)) <= 5000.
Proof.
  intros Hds.
  apply processLoaded_Ok in Hds as (stocks & forms & tasks & _ & _ & _ & Hforms & -> & _).
  rewrite sortByDate_length.
  pose proof (joinTasks_bounded (buildMap stock_cik stocks) (buildMap form_id forms) tasks).
  pose proof (buildMap_size form_id forms). lia.
Qed.

(** ** The filter *)

Lemma validFilter_truthy vsy vey vsq veq sy ey sq eq :
  validFilter vsy vey vsq veq sy ey sq eq ->
  Num_truthy sy = true /\ Num_truthy ey = true
  /\ Num_truthy sq = true /\ Num_truthy eq = true.
Proof.
  intros (Hsy & Hey & Hsq & Heq & _).
  apply validateInteger_bounds in Hsy as (_ & Hsy & _); try discriminate.
  apply validateInteger_bounds in Hey as (_ & Hey & _); try discriminate.
  apply validateInteger_bounds in Hsq as (_ & Hsq & _); try discriminate.
  apply validateInteger_bounds in Heq as (_ & Heq & _); try discriminate.
  repeat split; eapply Num_truthy_above; try eassumption; reflexivity.
Qed.

(** With valid parameters and at most 50 selected entries the call returns:
    the matches, limited and sorted. *)
Lemma secureFilterData_valid g elems vsy vey vsq veq sy ey sq eq :
  validFilter vsy vey vsq veq sy ey sq eq ->
  Z.of_nat (length elems) <= 50 ->
  secureFilterData g (Arr elems) vsy vey vsq veq
  = Ok (limitAndSort (matching g (sanitizeCompanies elems) sy ey sq eq)).
Proof.
  intros Hv Hlen. destruct (validFilter_truthy _ _ _ _ _ _ _ _ Hv) as (T1 & T2 & T3 & T4).
  destruct Hv as (Hsy & Hey & Hsq & Heq & Hord).
  unfold secureFilterData. rewrite Hsy, Hey, Hsq, Heq. simpl.
  rewrite T1, T2, T3, T4, Hord. simpl.
  destruct (Z.ltb_spec 50 (Z.of_nat (length elems))); [lia | reflexivity].
Qed.

(** A call that returns had valid parameters and an array of at most 50
    entries. *)
Lemma secureFilterData_Ok g sel vsy vey vsq veq out :
  secureFilterData g sel vsy vey vsq veq = Ok out ->
  exists elems sy ey sq eq,
    sel = Arr elems /\ Z.of_nat (length elems) <= 50
    /\ validFilter vsy vey vsq veq (Fin sy) (Fin ey) (Fin sq) (Fin eq)
    /\ out = limitAndSort (matching g (sanitizeCompanies elems)
                             (Fin sy) (Fin ey) (Fin sq) (Fin eq)).
Proof.
  unfold secureFilterData.
  destruct (validateInteger vsy _ _) as [[sy|]|] eqn:Hsy; simpl; try discriminate.
  - destruct (validateInteger vey _ _) as [[ey|]|] eqn:Hey; simpl; try discriminate.
    + destruct (validateInteger (orDefault vsq _) _ _) as [[sq|]|] eqn:Hsq;
        simpl; try discriminate.
      * destruct (validateInteger (orDefault veq _) _ _) as [[eq|]|] eqn:Heq;
          simpl; try discriminate.
        destruct (_ || _); [discriminate|].
        destruct (Num_gt sy ey) eqn:Hord; [discriminate|].
        destruct sel as [elems|]; [|discriminate].
        destruct (Z.ltb_spec 50 (Z.of_nat (length elems))); [discriminate|].
        intros [= <-].
        destruct (validateInteger_Fin _ _ _ _ Hsy) as [qsy ->].
        destruct (validateInteger_Fin _ _ _ _ Hey) as [qey ->].
        destruct (validateInteger_Fin _ _ _ _ Hsq) as [qsq ->].
        destruct (validateInteger_Fin _ _ _ _ Heq) as [qeq ->].
        exists elems, qsy, qey, qsq, qeq. unfold validFilter. auto 10.
      * destruct (validateInteger (orDefault veq _) _ _) as [[eq|]|];
          simpl; discriminate.
    + destruct (validateInteger (orDefault vsq _) _ _) as [[sq|]|]; simpl;
        try discriminate;
        destruct (validateInteger (orDefault veq _) _ _) as [[eq|]|];
          simpl; discriminate.
  - destruct (validateInteger vey _ _) as [[ey|]|]; simpl; try discriminate;
      destruct (validateInteger (orDefault vsq _) _ _) as [[sq|]|]; simpl;
        try discriminate;
        destruct (validateInteger (orDefault veq _) _ _) as [[eq|]|];
          simpl; discriminate.
Qed.

Lemma limitAndSort_sorted filtered : Sorted byDate (limitAndSort filtered).
Proof. unfold limitAndSort. destruct (_ <? _); apply sortByDate_sorted. Qed.

Lemma limitAndSort_all filtered :
  Z.of_nat (length filtered) <= 5000 -> limitAndSort filtered = sortByDate filtered.
Proof.
  intros Hle. unfold limitAndSort.
  destruct (Z.ltb_spec 5000 (Z.of_nat (length filtered))); [lia | reflexivity].
Qed.

Lemma limitAndSort_first filtered :
  5000 < Z.of_nat (length filtered) ->
  limitAndSort filtered = sortByDate (take (Z.to_nat 5000) filtered).
Proof.
  intros Hlt. unfold limitAndSort.
  destruct (Z.ltb_spec 5000 (Z.of_nat (length filtered))); [reflexivity | lia].
Qed.

(** What is returned was matched. *)
Lemma limitAndSort_elem filtered r : r ∈ limitAndSort filtered -> r ∈ filtered.
Proof.
  unfold limitAndSort. destruct (_ <? _); rewrite sortByDate_perm; [|auto].
  apply (subseteq_take (Z.to_nat 5000) filtered).
Qed.

Lemma keepItem_inRange sy ey sq eq r :
  keepItem (ofZ sy) (ofZ ey) (ofZ sq) (ofZ eq) r = true <-> inRange sy ey sq eq r.
Proof.
  unfold keepItem, inRange, Num_ge, Num_le, Num_eq, ofZ.
  set (y := year r). set (q := quarter r).
  destruct (Qeq_bool (inject_Z y) (inject_Z sy)) eqn:E1;
    [apply Qeq_bool_iff in E1 | apply Qeq_bool_neq in E1];
    (destruct (Qeq_bool (inject_Z y) (inject_Z ey)) eqn:E2;
     [apply Qeq_bool_iff in E2 | apply Qeq_bool_neq in E2]);
    rewrite inject_Z_injective in E1, E2;
    simpl; rewrite ?andb_true_iff, ?Qle_bool_iff, <- ?Zle_Qle; lia.
Qed.

(** Valid parameters are integers: the years from 1900 to 2030 and in
    order, the quarters from 1 to 4. *)
Lemma validFilter_integers vsy vey vsq veq nsy ney nsq neq :
  validFilter vsy vey vsq veq nsy ney nsq neq ->
  exists sy ey sq eq,
    nsy = ofZ sy /\ ney = ofZ ey /\ nsq = ofZ sq /\ neq = ofZ eq
    /\ 1900 <= sy <= ey /\ ey <= 2030 /\ 1 <= sq <= 4 /\ 1 <= eq <= 4.
Proof.
  intros (Hsy & Hey & Hsq & Heq & Hord).
  apply validateInteger_integer in Hsy as (sy & -> & Hsy); [|reflexivity..].
  apply validateInteger_integer in Hey as (ey & -> & Hey); [|reflexivity..].
  apply validateInteger_integer in Hsq as (sq & -> & Hsq); [|reflexivity..].
  apply validateInteger_integer in Heq as (eq & -> & Heq); [|reflexivity..].
  exists sy, ey, sq, eq. repeat split; try lia.
  unfold Num_gt, Num_lt, ofZ, Qlt_bool in Hord.
  apply negb_false_iff, Qle_bool_iff in Hord. now rewrite <- Zle_Qle in Hord.
Qed.

Lemma flat_map_agree {A B} (f f' : A -> list B) l :
  (forall x, x ∈ l -> f x = f' x) -> flat_map f l = flat_map f' l.
Proof.
  induction l as [|x l IH]; intros Hext; simpl; [reflexivity|].
  rewrite (Hext x) by left. rewrite IH; [reflexivity|].
  intros y Hy. apply Hext. now right.
Qed.

(** The matches depend on the selection only through the companies that it
    takes among those of the object. *)
Lemma matching_agree g sel sel' sy ey sq eq :
  (forall k, k ∈ map fst g -> selected sel k = selected sel' k) ->
  matching g sel sy ey sq eq = matching g sel' sy ey sq eq.
Proof.
  intros Hsame. unfold matching. apply flat_map_agree. intros k Hk.
  rewrite Object_keys_perm in Hk. now rewrite (Hsame k Hk).
Qed.

(** A match is a record of a selected company that passes the test. *)
Lemma matching_elem g sel sy ey sq eq r :
  r ∈ matching g sel sy ey sq eq ->
  keepItem sy ey sq eq r = true
  /\ exists k items, (k, items) ∈ g /\ selected sel k = true /\ r ∈ items.
Proof.
  unfold matching. rewrite list_elem_of_In, in_flat_map.
  intros (k & Hk & Hr). destruct (selected sel k) eqn:Hsel; [|contradiction].
  apply List.filter_In in Hr as [Hr Hkeep]. split; [assumption|].
  destruct (own g k) as [items|] eqn:Hown; simpl in Hr; [|contradiction].
  exists k, items. split; [now apply own_Some_elem|]. split; [assumption|].
  now apply list_elem_of_In.
Qed.

(** Every record of a selected company that passes the test is a match. *)
Lemma elem_matching g sel sy ey sq eq k items r :
  NoDup (map fst g) -> (k, items) ∈ g -> selected sel k = true -> r ∈ items ->
  keepItem sy ey sq eq r = true ->
  r ∈ matching g sel sy ey sq eq.
Proof.
  intros Hnd Hin Hsel Hr Hkeep. unfold matching.
  rewrite list_elem_of_In, in_flat_map. exists k. split.
  - apply list_elem_of_In. rewrite Object_keys_perm.
    apply list_elem_of_fmap. now exists (k, items).
  - rewrite Hsel, (own_elem _ _ _ Hnd Hin). simpl.
    apply List.filter_In. split; [now apply list_elem_of_In | assumption].
Qed.

(** *** The selection *)


Lemma sanitizeCompanies_cons v l :
  sanitizeCompanies (v :: l)
  = match validateString v 200 with
    | Some s => if Str_truthy s then s :: sanitizeCompanies l else sanitizeCompanies l
    | None => sanitizeCompanies l
    end.
Proof.
  unfold sanitizeCompanies. simpl.
  destruct (validateString v 200) as [s|]; [|reflexivity].
  now destruct (Str_truthy s).
Qed.



Lemma sanitizeCompanies_stable names :
  (forall k, k ∈ names -> stable k) -> sanitizeCompanies (map JStr names) = names.
Proof.
  induction names as [|k l IH]; intros Hall; [reflexivity|].
  destruct (Hall k) as [Hk Hne]; [left|].
  change (map JStr (k :: l)) with (JStr k :: map JStr l).
  rewrite sanitizeCompanies_cons, Hk.
  unfold Str_truthy. destruct (String.eqb_spec k ""); [contradiction|]. simpl.
  f_equal. apply IH. intros k' Hk'. apply Hall. now right.
Qed.

Lemma selected_nil k : selected [] k = true.
Proof. reflexivity. Qed.

Lemma selected_elem sel k : k ∈ sel -> selected sel k = true.
Proof.
  intros Hin. unfold selected. rewrite (bool_decide_eq_true_2 _ Hin).
  apply orb_true_r.
Qed.

Lemma groupByCompany_partitions cd g : groupByCompany cd = Ok g -> partitions g cd.
Proof.
  intros Hg. apply (groupFrom_grouped _ _ _ _ grouped_nil) in Hg.
  simpl in Hg. destruct Hg as (Hnd & Hown & Hall & Hperm).
  split; [assumption|]. split; [|split; [|assumption]].
  - intros k items Hin. apply (own_elem _ _ _ Hnd) in Hin. now apply Hown in Hin.
  - intros c Hc. destruct (own g (company c)) as [items|] eqn:Hk.
    + exists items. split; [now apply own_Some_elem|].
      apply Hown in Hk as [-> _]. now apply groupOf_elem.
    + now apply Hall in Hc.
Qed.

(** ** The filter as a whole *)

(** The selection matters only through the matches it leads to. *)
Lemma secureFilterData_selection g elems elems' vsy vey vsq veq :
  Z.of_nat (length elems) <= 50 -> Z.of_nat (length elems') <= 50 ->
  (forall sy ey sq eq,
     matching g (sanitizeCompanies elems) sy ey sq eq
     = matching g (sanitizeCompanies elems') sy ey sq eq) ->
  secureFilterData g (Arr elems) vsy vey vsq veq
  = secureFilterData g (Arr elems') vsy vey vsq veq.
Proof.
  intros Hlen Hlen' Hsame. unfold secureFilterData.
  destruct (validateInteger vsy _ _) as [sy|]; simpl; [|reflexivity].
  destruct (validateInteger vey _ _) as [ey|]; simpl; [|reflexivity].
  destruct (validateInteger (orDefault vsq _) _ _) as [sq|]; simpl; [|reflexivity].
  destruct (validateInteger (orDefault veq _) _ _) as [eq|]; simpl; [|reflexivity].
  destruct sy as [sy|], ey as [ey|], sq as [sq|], eq as [eq|]; try reflexivity.
  destruct (_ || _); [reflexivity|]. destruct (Num_gt sy ey); [reflexivity|].
  destruct (Z.ltb_spec 50 (Z.of_nat (length elems))); [lia|].
  destruct (Z.ltb_spec 50 (Z.of_nat (length elems'))); [lia|].
  now rewrite Hsame.
Qed.

(** * The claims *)

(** C1, where the code departs from the claim.  The claim has [validateURL]
    reject a host such as [evilsec.gov], whose name merely ends with the
    letters of the registry domain.  The test of the code is
    [hostname.endsWith('sec.gov')]: on any platform whose URL parser reads
    [https://evilsec.gov/x] the usual way, [validateURL] returns that
    address as valid. *)
Theorem validateURL_accepts_lookalike `{Runtime} :
  URL_new "https://evilsec.gov/x"
  = Ok {| protocol := "https:"; hostname := "evilsec.gov"; href := "https://evilsec.gov/x" |} ->
  validateURL (JStr "https://evilsec.gov/x") = Some "https://evilsec.gov/x".
Proof. intros Hurl. apply validateURL_Some. eexists _, _. repeat split; eauto. Qed.

Lemma validateURL_accepts_lookalike_witness :
  @validateURL Reference.runtime (JStr "https://evilsec.gov/x") = Some "https://evilsec.gov/x".
Proof. apply (@validateURL_accepts_lookalike Reference.runtime). reflexivity. Defined.

(** C2 as stated fails.  With 5000 matches of one company on the last day
    of 2020 and one match of a company listed after it on the first day,
    the call returns the 5000 late records: the cut comes before the sort,
    and the earliest match is not among the first 5000 collected. *)
Lemma cap_is_not_the_earliest :
  secureFilterData crowded (Arr []) (JNum (ofZ 2020)) (JNum (ofZ 2020)) JUndefined JUndefined
  = Ok lateRecords
  /\ take (Z.to_nat 5000)
       (sortByDate (matching crowded [] (ofZ 2020) (ofZ 2020) (ofZ 1) (ofZ 4)))
     = earlyRecord :: take (Z.to_nat 4999) lateRecords
  /\ head lateRecords <> Some earlyRecord.
Proof.
  split; [vm_compute; reflexivity|]. split; [vm_compute; reflexivity|].
  vm_compute. discriminate.
Qed.

(** C2, amended.  Whatever the call returns is non-decreasing by date.
    With valid parameters and more than 5000 matches the call returns, and
    what it returns is the first 5000 matches in the order of their
    collection (the companies as [Object.keys] lists them, the records of a
    company in their stored order), sorted by date. *)
Theorem secureFilterData_cap (g : JsObject (list CombinedRecord)) (elems : list JsVal)
    (vsy vey vsq veq : JsVal) (sy ey sq eq : Number) :
  (forall sel out, secureFilterData g sel vsy vey vsq veq = Ok out -> Sorted byDate out)
  /\ (validFilter vsy vey vsq veq sy ey sq eq ->
      Z.of_nat (length elems) <= 50 ->
      5000 < Z.of_nat (length (matching g (sanitizeCompanies elems) sy ey sq eq)) ->
      exists out,
        secureFilterData g (Arr elems) vsy vey vsq veq = Ok out
        /\ out = sortByDate (take (Z.to_nat 5000)
                               (matching g (sanitizeCompanies elems) sy ey sq eq))
        /\ out ≡ₚ take (Z.to_nat 5000) (matching g (sanitizeCompanies elems) sy ey sq eq)
        /\ Z.of_nat (length out) = 5000).
Proof.
  split.
  - intros sel out Hout.
    apply secureFilterData_Ok in Hout as (? & ? & ? & ? & ? & _ & _ & _ & ->).
    apply limitAndSort_sorted.
  - intros Hv Hlen Hmany. eexists.
    split; [exact (secureFilterData_valid _ _ _ _ _ _ _ _ _ _ Hv Hlen)|].
    rewrite limitAndSort_first by assumption.
    split; [reflexivity|]. split; [apply sortByDate_perm|].
    rewrite sortByDate_length, length_take. lia.
Qed.

Lemma secureFilterData_cap_witness :
  exists out,
    secureFilterData crowded (Arr []) (JNum (ofZ 2020)) (JNum (ofZ 2020)) JUndefined JUndefined
    = Ok out
    /\ out = sortByDate (take (Z.to_nat 5000)
                           (matching crowded [] (ofZ 2020) (ofZ 2020) (ofZ 1) (ofZ 4)))
    /\ out ≡ₚ take (Z.to_nat 5000) (matching crowded [] (ofZ 2020) (ofZ 2020) (ofZ 1) (ofZ 4))
    /\ Z.of_nat (length out) = 5000.
Proof.
  apply (secureFilterData_cap crowded [] (JNum (ofZ 2020)) (JNum (ofZ 2020))
           JUndefined JUndefined (ofZ 2020) (ofZ 2020) (ofZ 1) (ofZ 4)).
  - repeat split; vm_compute; reflexivity.
  - vm_compute. discriminate.
  - vm_compute. reflexivity.
Defined.

(** C3.  Valid parameters are integers (see [validFilter_integers]).  With
    them, the test of the filter holds of a record exactly when its year is
    within the two years, its quarter is not before the first quarter if
    its year is the first year, and not after the last quarter if its year
    is the last year.  Every record returned passes the test and is offered
    by a selected company, and when the matches are at most 5000 every such
    record is returned.  For the range from Q4 2020 to Q4 2020 the test
    says: year 2020 and quarter 4. *)
Theorem secureFilterData_includes (g : JsObject (list CombinedRecord)) (elems : list JsVal)
    (vsy vey vsq veq : JsVal) (sy ey sq eq : Z) :
  NoDup (map fst g) ->
  Z.of_nat (length elems) <= 50 ->
  validFilter vsy vey vsq veq (ofZ sy) (ofZ ey) (ofZ sq) (ofZ eq) ->
  (forall r, keepItem (ofZ sy) (ofZ ey) (ofZ sq) (ofZ eq) r = true <-> inRange sy ey sq eq r)
  /\ (exists out,
        secureFilterData g (Arr elems) vsy vey vsq veq = Ok out
        /\ (forall r, r ∈ out ->
              inRange sy ey sq eq r /\ offered g (sanitizeCompanies elems) r)
        /\ (Z.of_nat (length (matching g (sanitizeCompanies elems)
                                (ofZ sy) (ofZ ey) (ofZ sq) (ofZ eq))) <= 5000 ->
            forall r, offered g (sanitizeCompanies elems) r -> inRange sy ey sq eq r ->
                      r ∈ out))
  /\ (vsy = JNum (ofZ 2020) -> vey = JNum (ofZ 2020) ->
      vsq = JNum (ofZ 4) -> veq = JNum (ofZ 4) ->
      forall r, inRange sy ey sq eq r <-> year r = 2020 /\ quarter r = 4).
Proof.
  intros Hnd Hlen Hv. split; [apply keepItem_inRange|]. split.
  - eexists. split; [exact (secureFilterData_valid _ _ _ _ _ _ _ _ _ _ Hv Hlen)|]. split.
    + intros r Hr. apply limitAndSort_elem, matching_elem in Hr as [Hkeep Hoff].
      split; [now apply keepItem_inRange | exact Hoff].
    + intros Hfew r (k & items & Hin & Hsel & Hr) Hrange.
      rewrite limitAndSort_all, sortByDate_perm by assumption.
      eapply elem_matching; eauto. now apply keepItem_inRange.
  - intros -> -> -> -> r. destruct Hv as (Hsy & Hey & Hsq & Heq & _).
    vm_compute in Hsy, Hey, Hsq, Heq.
    injection Hsy as <-. injection Hey as <-. injection Hsq as <-. injection Heq as <-.
    unfold inRange. lia.
Qed.

Lemma secureFilterData_includes_witness :
  exists out,
    secureFilterData quarters (Arr [JStr "Apple Inc."; JStr "Microsoft"])
      (JNum (ofZ 2020)) (JNum (ofZ 2020)) (JNum (ofZ 4)) (JNum (ofZ 4)) = Ok out
    /\ out = [record "Apple Inc." "3" 2020 4 (day 2020 12 26);
              record "Microsoft" "6" 2020 4 (day 2020 12 31)]
    /\ forall r, r ∈ out -> year r = 2020 /\ quarter r = 4.
Proof.
  destruct (secureFilterData_includes quarters [JStr "Apple Inc."; JStr "Microsoft"]
              (JNum (ofZ 2020)) (JNum (ofZ 2020)) (JNum (ofZ 4)) (JNum (ofZ 4))
              2020 2020 4 4)
    as (_ & (out & Hout & Hsound & _) & Hq4).
  - vm_compute. repeat constructor; rewrite ?list_elem_of_In; simpl; intuition discriminate.
  - vm_compute. discriminate.
  - repeat split; vm_compute; reflexivity.
  - exists out. split; [exact Hout|]. split.
    + vm_compute in Hout. now injection Hout as <-.
    + intros r Hr. apply (Hq4 eq_refl eq_refl eq_refl eq_refl), Hsound, Hr.
Defined.



(** C5.  Of two tasks with the same form id only the first can contribute:
    taking the later one out of the list changes nothing in the joined
    records.  No two joined records carry the same id, and the same holds
    of the [combinedData] of every dataset. *)
Theorem join_deduplicates `{Runtime} (stocksMap : gmap string Stock)
    (formsMap : gmap string Form) (l1 l2 l3 : list Task) (t1 t2 : Task) :
  (formId t1 = formId t2 ->
   joinTasks stocksMap formsMap (l1 ++ t1 :: l2 ++ t2 :: l3)
   = joinTasks stocksMap formsMap (l1 ++ t1 :: l2 ++ l3))
  /\ NoDup (map id (joinTasks stocksMap formsMap (l1 ++ t1 :: l2 ++ t2 :: l3)))
  /\ (forall stocksData formsData tasksData ds,
        processLoaded stocksData formsData tasksData = Ok ds ->
        NoDup (map id (combinedData ds))).
Proof.
  split; [apply joinTasks_later_duplicate|].
  split; [apply joinTasks_NoDup|].
  intros stocksData formsData tasksData ds Hds.
  apply processLoaded_Ok in Hds as (stocks & forms & tasks & _ & _ & _ & _ & -> & _).
  rewrite sortByDate_perm. apply joinTasks_NoDup.
Qed.

(** Two tasks of form 1: the result is that of the first one alone. *)
Lemma join_deduplicates_witness :
  @joinTasks Reference.runtime appleStocks appleForms [task "1" 73100 106042; task "1" 5 5]
  = @joinTasks Reference.runtime appleStocks appleForms [task "1" 73100 106042].
Proof.
  apply (proj1 (@join_deduplicates Reference.runtime appleStocks appleForms [] [] []
                  (task "1" 73100 106042) (task "1" 5 5))).
  vm_compute. reflexivity.
Defined.

(** C6 as stated fails.  An object of 51 companies: the empty selection
    returns its 51 records, the list of all its companies is refused as too
    long.  An object whose company name holds an ampersand: the empty
    selection returns its record, the selection of that name returns
    nothing, because the name is sanitized before it is compared. *)
Lemma empty_selection_differs_from_full :
  (exists out,
     secureFilterData manyCompanies (Arr [])
       (JNum (ofZ 2020)) (JNum (ofZ 2020)) JUndefined JUndefined = Ok out
     /\ length out = 51%nat)
  /\ secureFilterData manyCompanies (Arr (map JStr (Object_keys manyCompanies)))
       (JNum (ofZ 2020)) (JNum (ofZ 2020)) JUndefined JUndefined
     = Throw (Error "Too many companies selected")
  /\ secureFilterData ampersand (Arr [])
       (JNum (ofZ 2020)) (JNum (ofZ 2020)) JUndefined JUndefined
     = Ok [record "Procter & Gamble" "1" 2020 1 (day 2020 1 1)]
  /\ secureFilterData ampersand (Arr (map JStr (Object_keys ampersand)))
       (JNum (ofZ 2020)) (JNum (ofZ 2020)) JUndefined JUndefined
     = Ok [].
Proof.
  split; [eexists; split; vm_compute; reflexivity|].
  repeat split; vm_compute; reflexivity.
Qed.

(** C6, amended.  When the object has at most 50 companies and the
    sanitizer of the selection keeps each of their names as it is, the
    empty selection and any list of exactly these names give the same
    outcome, whatever the other parameters are. *)
Theorem empty_selection_as_full (g : JsObject (list CombinedRecord)) (names : list string)
    (vsy vey vsq veq : JsVal) :
  (forall k, k ∈ names <-> k ∈ map fst g) ->
  Z.of_nat (length names) <= 50 ->
  (forall k, k ∈ names -> stable k) ->
  secureFilterData g (Arr []) vsy vey vsq veq
  = secureFilterData g (Arr (map JStr names)) vsy vey vsq veq.
Proof.
  intros Hall Hlen Hstable. apply secureFilterData_selection.
  - simpl. lia.
  - now rewrite length_map.
  - intros sy ey sq eq. rewrite (sanitizeCompanies_stable _ Hstable).
    apply matching_agree. intros k Hk.
    rewrite selected_nil. symmetry. now apply selected_elem, Hall.
Qed.

Lemma empty_selection_as_full_witness :
  secureFilterData quarters (Arr [])
    (JNum (ofZ 2019)) (JNum (ofZ 2021)) (JNum (ofZ 4)) (JNum (ofZ 1))
  = secureFilterData quarters (Arr [JStr "Microsoft"; JStr "Apple Inc."])
      (JNum (ofZ 2019)) (JNum (ofZ 2021)) (JNum (ofZ 4)) (JNum (ofZ 1)).
Proof.
  apply (empty_selection_as_full quarters ["Microsoft"; "Apple Inc."]).
  - intros k. vm_compute map. rewrite !elem_of_cons, !elem_of_nil. tauto.
  - vm_compute. discriminate.
  - intros k Hk. rewrite !elem_of_cons, elem_of_nil in Hk.
    destruct Hk as [-> | [-> | []]]; split; solve [vm_compute; reflexivity | discriminate].
Defined.

(** C7.  In every dataset that [processLoaded] returns, [groupedData] is a
    partition of [combinedData]: the group of a company holds exactly the
    records of [combinedData] with that company, every record is in the
    group of its own company, no company has two groups, and the groups
    together hold each record once. *)
Theorem groupedData_partitions `{Runtime} (stocksData formsData tasksData : list Row)
    (ds : Dataset) :
  processLoaded stocksData formsData tasksData = Ok ds ->
  partitions (groupedData ds) (combinedData ds).
Proof.
  intros Hds. apply processLoaded_Ok in Hds as (_ & _ & _ & _ & _ & _ & _ & _ & Hg).
  now apply groupByCompany_partitions.
Qed.

Lemma groupedData_partitions_witness :
  exists ds, @processLoaded Reference.runtime [appleStock] [appleForm] [appleTask] = Ok ds
    /\ map fst (groupedData ds) = ["Apple Inc."]
    /\ partitions (groupedData ds) (combinedData ds).
Proof.
  eexists. split; [vm_compute; reflexivity|]. split; [vm_compute; reflexivity|].
  apply (@groupedData_partitions Reference.runtime [appleStock] [appleForm] [appleTask]).
  vm_compute. reflexivity.
Defined.

(** C8 as stated fails: [validateInteger] and [validateNumber] hand their
    argument to [parseInt] and [parseFloat], which convert it to a string
    first, and that conversion throws for a symbol. *)
Lemma validators_throw_on_symbol :
  validateInteger JSymbol (ofZ 1) (ofZ MAX_ROWS)
  = Throw (TypeError "Cannot convert a Symbol value to a string")
  /\ validateNumber JSymbol (ofZ 0) MAX_SAFE_INTEGER
     = Throw (TypeError "Cannot convert a Symbol value to a string").
Proof. split; reflexivity. Qed.

(** C8, amended.  [validateString], [validateDate] and [validateURL] return
    for every input, either nothing or a result within their bounds: a
    string of at most [maxLength] code units, a date whose local year is
    from 1900 to 2030, the address of an [https] URL whose host name ends
    with [sec.gov].  [validateNumber] and [validateInteger] return, for
    every input that can be converted to a string and bounds that are not
    [NaN], either nothing or a finite number from [min] to [max]. *)
Theorem validators_total `{Runtime} (value : JsVal) (maxLength : nat) (min max : Number) :
  match validateString value maxLength with
  | Some s => (String.length s <= maxLength)%nat
  | None => True
  end
  /\ match validateDate value with
     | Some t => 1900 <= getFullYear t <= 2030
     | None => True
     end
  /\ match validateURL value with
     | Some h => exists s url, value = JStr s /\ URL_new s = Ok url
                   /\ protocol url = "https:" /\ endsWith (hostname url) "sec.gov" = true
                   /\ h = href url
     | None => True
     end
  /\ (forall s, ToString value = Ok s -> min <> NaN -> max <> NaN ->
      (exists r, validateNumber value min max = Ok r /\ inBounds min max r)
      /\ (exists r, validateInteger value min max = Ok r /\ inBounds min max r)).
Proof.
  split; [|split; [|split]].
  - destruct (validateString value maxLength) as [text|] eqn:E; [|exact I].
    eapply validateString_length; eassumption.
  - destruct (validateDate value) as [t|] eqn:E; [|exact I].
    apply validateDate_Some in E as (text & _ & _ & _ & Hy). exact Hy.
  - destruct (validateURL value) as [h|] eqn:E; [|exact I].
    apply validateURL_Some in E as (text & url & Hv & _ & Hurl & Hp & Hh & Hhref).
    exists text, url. auto.
  - intros s Hs Hmin Hmax. split.
    + rewrite validateNumber_eq, Hs. simpl. eexists. split; [reflexivity|].
      destruct (checked _ _ _) eqn:E; simpl; [|exact I].
      eapply checked_bounds; eassumption.
    + rewrite validateInteger_eq, Hs. simpl. eexists. split; [reflexivity|].
      destruct (checked _ _ _) eqn:E; simpl; [|exact I].
      eapply checked_bounds; eassumption.
Qed.

Lemma validators_total_witness :
  (exists r, validateNumber (JStr "73100.0") (ofZ 0) MAX_SAFE_INTEGER = Ok r
             /\ inBounds (ofZ 0) MAX_SAFE_INTEGER r)
  /\ (exists r, validateInteger (JStr "73100.0") (ofZ 0) MAX_SAFE_INTEGER = Ok r
                /\ inBounds (ofZ 0) MAX_SAFE_INTEGER r).
Proof.
  destruct (@validators_total Reference.runtime (JStr "73100.0") 255
              (ofZ 0) MAX_SAFE_INTEGER) as (_ & _ & _ & Hnum).
  apply (Hnum "73100.0"); [reflexivity | discriminate | discriminate].
Defined.

(** C9.  A form id is marked when its first task is met, before the task is
    looked at: when that first task yields no record (no form, no stock, no
    date, or an amount out of range, see [combineTask_None]), no record of
    the result carries its form id, whatever the later tasks with that id
    are. *)
Theorem join_marks_before_checks `{Runtime} (stocksMap : gmap string Stock)
    (formsMap : gmap string Form) (l1 l2 : list Task) (t1 : Task) (r : CombinedRecord) :
  formId t1 ∉ map formId l1 ->
  combineTask stocksMap formsMap t1 = None ->
  r ∈ joinTasks stocksMap formsMap (l1 ++ t1 :: l2) ->
  id r <> formId t1.
Proof. apply joinTasks_first_fails. Qed.

(** The first task of form 1 has an amount above [1e12]; the second one
    would have joined, and does when it comes alone. *)
Lemma join_marks_before_checks_witness :
  (forall r, r ∈ @joinTasks Reference.runtime appleStocks appleForms
                   [task "1" (2 * 10 ^ 12) 5; task "1" 5 5] -> id r <> "1")
  /\ @joinTasks Reference.runtime appleStocks appleForms [task "1" (2 * 10 ^ 12) 5; task "1" 5 5]
     = []
  /\ exists r, @joinTasks Reference.runtime appleStocks appleForms [task "1" 5 5] = [r]
               /\ id r = "1".
Proof.
  split; [|split].
  - intros r.
    apply (@join_marks_before_checks Reference.runtime appleStocks appleForms []
             [task "1" 5 5] (task "1" (2 * 10 ^ 12) 5) r).
    + apply not_elem_of_nil.
    + vm_compute. reflexivity.
  - vm_compute. reflexivity.
  - eexists. split; vm_compute; reflexivity.
Defined.



(** * Further properties

    Lemmas on the parts of the code that the claims leave aside: the
    quarter options, the sanitizers, the records and the statistics of a
    dataset, the filter of [dataProcessor.js], the handlers of the
    dashboard and the loader. *)

(** ** Arithmetic on integers *)

Lemma round64_Z z : - 2 ^ 53 < z < 2 ^ 53 -> round64 (inject_Z z) = ofZ z.
Proof.
  intros Hz. destruct (Z.lt_trichotomy z 0) as [Hneg | [-> | Hpos]].
  - unfold round64.
    assert (Hc : (inject_Z z ?= 0)%Q = Lt).
    { rewrite <- Qlt_alt. change 0%Q with (inject_Z 0). now rewrite <- Zlt_Qlt. }
    rewrite Hc. change (- inject_Z z)%Q with (inject_Z (- z)).
    assert (Hp : round64_pos (inject_Z (- z)) = ofZ (- z)).
    { rewrite <- (round64_small (- z)) by lia. unfold round64.
      assert (Hc' : (inject_Z (- z) ?= 0)%Q = Gt).
      { rewrite <- Qgt_alt. change 0%Q with (inject_Z 0). rewrite <- Zlt_Qlt. lia. }
      now rewrite Hc'. }
    rewrite Hp, Num_neg_ofZ. f_equal. lia.
  - reflexivity.
  - apply round64_small. lia.
Qed.

Lemma Num_add_ofZ a b :
  - 2 ^ 53 < a + b < 2 ^ 53 -> Num_add (ofZ a) (ofZ b) = ofZ (a + b).
Proof.
  intros Hab. unfold Num_add, ofZ.
  rewrite (Qred_complete _ (inject_Z (a + b))) by (now rewrite inject_Z_plus).
  rewrite Qred_inject_Z. now apply round64_Z.
Qed.

Lemma Num_sub_ofZ a b :
  - 2 ^ 53 < a - b < 2 ^ 53 -> Num_sub (ofZ a) (ofZ b) = ofZ (a - b).
Proof.
  intros Hab. unfold Num_sub. rewrite Num_neg_ofZ.
  now rewrite Num_add_ofZ by lia.
Qed.

Lemma Num_le_ofZ a b : Num_le (ofZ a) (ofZ b) = (a <=? b).
Proof.
  unfold Num_le, ofZ. destruct (Z.leb_spec a b) as [H | H].
  - apply Qle_bool_iff. now rewrite <- Zle_Qle.
  - apply not_true_iff_false. rewrite Qle_bool_iff, <- Zle_Qle. lia.
Qed.

Lemma Num_lt_ofZ a b : Num_lt (ofZ a) (ofZ b) = (a <? b).
Proof.
  unfold Num_lt, ofZ, Qlt_bool. destruct (Z.ltb_spec a b) as [H | H].
  - apply negb_true_iff, not_true_iff_false. rewrite Qle_bool_iff, <- Zle_Qle. lia.
  - apply negb_false_iff, Qle_bool_iff. now rewrite <- Zle_Qle.
Qed.

Lemma Num_gt_ofZ a b : Num_gt (ofZ a) (ofZ b) = (b <? a).
Proof. apply Num_lt_ofZ. Qed.

Lemma ofZ_inj a b : ofZ a = ofZ b -> a = b.
Proof. now intros [= H]. Qed.

Lemma zrange_S lo n : zrange lo (S n) = lo :: zrange (lo + 1) n.
Proof. reflexivity. Qed.

Lemma zrange_elem lo n z : In z (zrange lo n) <-> lo <= z < lo + Z.of_nat n.
Proof.
  revert lo. induction n as [|n IH]; intros lo; cbn [zrange In].
  - lia.
  - rewrite IH. lia.
Qed.

(** A property checked on each integer of a range holds on the range. *)
Lemma zrange_forallb (P : Z -> bool) lo n z :
  forallb P (zrange lo n) = true -> lo <= z < lo + Z.of_nat n -> P z = true.
Proof.
  intros Hall Hz. rewrite forallb_forall in Hall. apply Hall. now apply zrange_elem.
Qed.

(** ** The quarter options *)

(** The loop over integers: one round for each integer from the first to
    the last, when the fuel allows as many. *)
Lemma forUpTo_integers {A} (body : Number -> list A) fuel lo hi :
  - 2 ^ 53 < lo -> hi < 2 ^ 53 - 1 -> hi - lo < Z.of_nat fuel ->
  forUpTo fuel (ofZ lo) (ofZ hi) body
  = flat_map (fun y => body (ofZ y)) (zrange lo (Z.to_nat (hi - lo + 1))).
Proof.
  revert lo. induction fuel as [|fuel IH]; intros lo Hlo Hhi Hfuel; cbn [forUpTo].
  - replace (Z.to_nat (hi - lo + 1)) with 0%nat by lia. reflexivity.
  - rewrite Num_le_ofZ. destruct (Z.leb_spec lo hi) as [Hle | Hgt].
    + rewrite Num_add_ofZ by lia. rewrite IH by lia.
      replace (Z.to_nat (hi - lo + 1)) with (S (Z.to_nat (hi - (lo + 1) + 1))) by lia.
      now rewrite zrange_S.
    + replace (Z.to_nat (hi - lo + 1)) with 0%nat by lia. reflexivity.
Qed.

Lemma Num_same_eq a b : Num_same a b = true -> a = b.
Proof.
  destruct a as [|s|[n d]], b as [|s'|[n' d']]; simpl; try discriminate; auto.
  - intros E. apply Bool.eqb_prop in E. now subst.
  - intros E. apply andb_true_iff in E as [E1 E2].
    apply Z.eqb_eq in E1. apply Pos.eqb_eq in E2. now subst.
Qed.

Lemma years_read_back : forallb reads_back (zrange 1900 131) = true.
Proof. vm_compute. reflexivity. Qed.

Lemma quarters_read_back : forallb reads_back (zrange 1 4) = true.
Proof. vm_compute. reflexivity. Qed.

Lemma reads_back_validateInteger z a b :
  reads_back z = true -> a <= z <= b ->
  validateInteger (JNum (ofZ z)) (ofZ a) (ofZ b) = Ok (Some (ofZ z)).
Proof.
  intros Hr Hz. apply andb_true_iff in Hr as [_ Hr]. apply Num_same_eq in Hr.
  rewrite validateInteger_eq. cbn [ToString]. cbv [mbind Result_bind mret Result_ret].
  rewrite Hr. unfold checked. cbn [isNaN isFinite ofZ negb orb].
  change (Fin (inject_Z z)) with (ofZ z).
  rewrite Num_lt_ofZ, Num_gt_ofZ.
  destruct (Z.ltb_spec z a); [lia|]. destruct (Z.ltb_spec b z); [lia|]. reflexivity.
Qed.

Lemma validateInteger_year y :
  1900 <= y <= 2030 ->
  validateInteger (JNum (ofZ y)) (ofZ 1900) (ofZ 2030) = Ok (Some (ofZ y)).
Proof.
  intros Hy. apply reads_back_validateInteger; [|lia].
  apply (zrange_forallb _ 1900 131); [exact years_read_back | lia].
Qed.

Lemma validateInteger_quarter q :
  1 <= q <= 4 ->
  validateInteger (JNum (ofZ q)) (ofZ 1) (ofZ 4) = Ok (Some (ofZ q)).
Proof.
  intros Hq. apply reads_back_validateInteger; [|lia].
  apply (zrange_forallb _ 1 4); [exact quarters_read_back | lia].
Qed.

Lemma Number_toString_year y :
  1900 <= y <= 2030 -> Number_toString (ofZ y) = Z_toString y.
Proof.
  intros Hy. pose proof (zrange_forallb _ 1900 131 y years_read_back ltac:(lia)) as Hr.
  apply andb_true_iff in Hr as [Hr _]. now apply String.eqb_eq in Hr.
Qed.

Lemma Number_toString_quarter q :
  1 <= q <= 4 -> Number_toString (ofZ q) = Z_toString q.
Proof.
  intros Hq. pose proof (zrange_forallb _ 1 4 q quarters_read_back ltac:(lia)) as Hr.
  apply andb_true_iff in Hr as [Hr _]. now apply String.eqb_eq in Hr.
Qed.

Lemma Num_truthy_ofZ z : Num_truthy (ofZ z) = negb (z =? 0).
Proof.
  unfold Num_truthy, ofZ. f_equal. destruct (Z.eqb_spec z 0) as [-> | Hz].
  - reflexivity.
  - apply not_true_iff_false. intros E. apply Qeq_bool_eq in E.
    apply Hz. unfold Qeq in E. simpl in E. lia.
Qed.

(** The inner loop: the four quarters. *)
Lemma forUpTo_quarters {A} (body : Number -> list A) :
  forUpTo 4 (ofZ 1) (ofZ 4) body = flat_map (fun q => body (ofZ q)) [1; 2; 3; 4].
Proof. now rewrite forUpTo_integers by (cbn; lia). Qed.

Lemma flat_map_singleton {A B} (f : A -> B) l : flat_map (fun x => [f x]) l = map f l.
Proof. induction l as [|x l IH]; simpl; congruence. Qed.

Lemma forUpTo_years lo hi :
  - 2 ^ 53 < lo -> hi < 2 ^ 53 - 1 -> hi - lo <= 50 ->
  forUpTo 51 (ofZ lo) (ofZ hi) (fun year =>
    forUpTo 4 (ofZ 1) (ofZ 4) (fun quarter => [quarterOption year quarter]))
  = quartersOfYears lo hi.
Proof.
  intros Hlo Hhi Hs. rewrite forUpTo_integers by lia. unfold quartersOfYears.
  apply flat_map_ext. intros y. now rewrite forUpTo_quarters, flat_map_singleton.
Qed.

(** What the checks of [generateSecureQuarterOptions] decide, on two
    validated years. *)
Lemma generateSecureQuarterOptions_validated minYear maxYear lo hi :
  validateInteger minYear (ofZ 1900) (ofZ 2030) = Ok (Some (ofZ lo)) ->
  validateInteger maxYear (ofZ 1900) (ofZ 2030) = Ok (Some (ofZ hi)) ->
  1900 <= lo <= 2030 /\ 1900 <= hi <= 2030
  /\ generateSecureQuarterOptions minYear maxYear
     = if hi <? lo then Throw (Error "Invalid year range: min > max")
       else if 50 <? hi - lo then Throw (Error "Year range too large")
       else Ok (quartersOfYears lo hi).
Proof.
  intros Elo Ehi.
  destruct (validateInteger_integer _ 1900 2030 _ ltac:(lia) ltac:(lia) Elo) as (lo' & E1 & Hlo).
  destruct (validateInteger_integer _ 1900 2030 _ ltac:(lia) ltac:(lia) Ehi) as (hi' & E2 & Hhi).
  apply ofZ_inj in E1, E2. subst lo' hi'. split; [exact Hlo|]. split; [exact Hhi|].
  unfold generateSecureQuarterOptions. rewrite Elo, Ehi. cbv [mbind Result_bind].
  rewrite !Num_truthy_ofZ, Num_gt_ofZ, Num_sub_ofZ, Num_gt_ofZ by lia.
  destruct (Z.eqb_spec lo 0); [lia|]. destruct (Z.eqb_spec hi 0); [lia|]. cbn [negb orb].
  destruct (Z.ltb_spec hi lo); [reflexivity|].
  destruct (Z.ltb_spec 50 (hi - lo)); [reflexivity|].
  now rewrite forUpTo_years by lia.
Qed.

Lemma generateSecureQuarterOptions_inv minYear maxYear opts :
  generateSecureQuarterOptions minYear maxYear = Ok opts ->
  exists lo hi,
    validateInteger minYear (ofZ 1900) (ofZ 2030) = Ok (Some (ofZ lo))
    /\ validateInteger maxYear (ofZ 1900) (ofZ 2030) = Ok (Some (ofZ hi))
    /\ 1900 <= lo <= hi /\ hi <= 2030 /\ hi <= lo + 50
    /\ opts = quartersOfYears lo hi.
Proof.
  intros Hopts.
  destruct (validateInteger minYear (ofZ 1900) (ofZ 2030)) as [[vlo|]|] eqn:Elo.
  2,3: unfold generateSecureQuarterOptions in Hopts; rewrite Elo in Hopts;
       cbv [mbind Result_bind] in Hopts;
       destruct (validateInteger maxYear _ _) as [[?|]|]; discriminate.
  destruct (validateInteger maxYear (ofZ 1900) (ofZ 2030)) as [[vhi|]|] eqn:Ehi.
  2,3: unfold generateSecureQuarterOptions in Hopts; rewrite Elo, Ehi in Hopts; discriminate.
  destruct (validateInteger_integer _ 1900 2030 _ ltac:(lia) ltac:(lia) Elo) as (lo & -> & _).
  destruct (validateInteger_integer _ 1900 2030 _ ltac:(lia) ltac:(lia) Ehi) as (hi & -> & _).
  destruct (generateSecureQuarterOptions_validated _ _ _ _ Elo Ehi) as (Hlo & Hhi & E).
  rewrite E in Hopts.
  destruct (Z.ltb_spec hi lo); [discriminate|].
  destruct (Z.ltb_spec 50 (hi - lo)); [discriminate|].
  injection Hopts as <-. exists lo, hi. repeat split; auto; lia.
Qed.

Lemma years_lookup n lo i :
  0 <= i < 4 * Z.of_nat n ->
  flat_map (fun y => map (fun q => quarterOption (ofZ y) (ofZ q)) [1; 2; 3; 4]) (zrange lo n)
    !! Z.to_nat i
  = Some (quarterOption (ofZ (lo + i / 4)) (ofZ (i mod 4 + 1))).
Proof.
  revert lo i. induction n as [|n IH]; intros lo i Hi; [lia|].
  cbn [zrange flat_map map].
  destruct (Z.lt_ge_cases i 4) as [Hlt | Hge].
  - assert (Hc : i = 0 \/ i = 1 \/ i = 2 \/ i = 3) by lia.
    destruct Hc as [-> | [-> | [-> | ->]]]; cbn; rewrite ?Z.add_0_r; reflexivity.
  - replace (Z.to_nat i) with (4 + Z.to_nat (i - 4))%nat by lia.
    cbn [app Nat.add]. rewrite !lookup_cons.
    rewrite IH by lia.
    replace (lo + 1 + (i - 4) / 4) with (lo + i / 4)
      by (Z.to_euclidean_division_equations; lia).
    replace ((i - 4) mod 4) with (i mod 4) by (Z.to_euclidean_division_equations; lia).
    reflexivity.
Qed.

Lemma years_length n lo :
  length (flat_map (fun y => map (fun q => quarterOption (ofZ y) (ofZ q)) [1; 2; 3; 4])
            (zrange lo n)) = (4 * n)%nat.
Proof.
  revert lo. induction n as [|n IH]; intros lo; [reflexivity|].
  cbn [zrange flat_map map app length]. rewrite IH. lia.
Qed.

Lemma quartersOfYears_length lo hi :
  lo <= hi -> Z.of_nat (length (quartersOfYears lo hi)) = 4 * (hi - lo + 1).
Proof. intros Hle. unfold quartersOfYears. rewrite years_length. lia. Qed.

Lemma quartersOfYears_lookup lo hi i :
  0 <= i < 4 * (hi - lo + 1) ->
  quartersOfYears lo hi !! Z.to_nat i
  = Some (quarterOption (ofZ (lo + i / 4)) (ofZ (i mod 4 + 1))).
Proof. intros Hi. unfold quartersOfYears. apply years_lookup. lia. Qed.

(** An option, from its place in the list. *)
Lemma quartersOfYears_at lo hi (i : nat) o :
  lo <= hi -> quartersOfYears lo hi !! i = Some o ->
  exists y q, o = quarterOption (ofZ y) (ofZ q)
    /\ y = lo + Z.of_nat i / 4 /\ q = Z.of_nat i mod 4 + 1
    /\ lo <= y <= hi /\ 1 <= q <= 4.
Proof.
  intros Hle Ho. pose proof (lookup_lt_Some _ _ _ Ho) as Hi.
  pose proof (quartersOfYears_length lo hi Hle) as Hlen.
  rewrite <- (Nat2Z.id i), quartersOfYears_lookup in Ho by lia.
  injection Ho as <-. eexists _, _. split; [reflexivity|].
  repeat split; Z.to_euclidean_division_equations; lia.
Qed.

Lemma quartersOfYears_elem lo hi y q :
  lo <= y <= hi -> 1 <= q <= 4 ->
  quarterOption (ofZ y) (ofZ q) ∈ quartersOfYears lo hi.
Proof.
  intros Hy Hq. apply (list_elem_of_lookup_2 _ (Z.to_nat (4 * (y - lo) + (q - 1)))).
  rewrite quartersOfYears_lookup by lia.
  replace (lo + (4 * (y - lo) + (q - 1)) / 4) with y
    by (Z.to_euclidean_division_equations; lia).
  replace ((4 * (y - lo) + (q - 1)) mod 4 + 1) with q
    by (Z.to_euclidean_division_equations; lia).
  reflexivity.
Qed.

(** ** The sanitizers *)

Lemma sanitizeAll_elem {A} (sanitize : Row -> Result (option A)) rows l a :
  sanitizeAll sanitize rows = Ok l -> a ∈ l ->
  exists row, row ∈ rows /\ sanitize row = Ok (Some a).
Proof.
  revert l. induction rows as [|row rows IH]; intros l; cbn [sanitizeAll].
  - intros [= <-] Ha. now apply elem_of_nil in Ha.
  - destruct (sanitize row) as [r|] eqn:Er; cbv [mbind Result_bind]; [|discriminate].
    destruct (sanitizeAll sanitize rows) as [rs|]; [|discriminate].
    cbv [mret Result_ret]. intros [= <-] Ha.
    assert (Hrs : a ∈ rs -> exists row', row' ∈ row :: rows /\ sanitize row' = Ok (Some a)).
    { intros Hin. destruct (IH _ eq_refl Hin) as (row' & Hrow' & E).
      exists row'. split; [now apply elem_of_cons; right | exact E]. }
    destruct r as [a'|]; [|now apply Hrs].
    apply elem_of_cons in Ha as [-> | Ha]; [|now apply Hrs].
    exists row. split; [now apply elem_of_cons; left | exact Er].
Qed.

Lemma sanitizeAll_length {A} (sanitize : Row -> Result (option A)) rows l :
  sanitizeAll sanitize rows = Ok l -> (length l <= length rows)%nat.
Proof.
  revert l. induction rows as [|row rows IH]; intros l; cbn [sanitizeAll].
  - intros [= <-]. simpl. lia.
  - destruct (sanitize row) as [r|]; cbv [mbind Result_bind]; [|discriminate].
    destruct (sanitizeAll sanitize rows) as [rs|]; [|discriminate].
    cbv [mret Result_ret]. intros [= <-]. specialize (IH _ eq_refl).
    destruct r; simpl; lia.
Qed.

Lemma sanitizeAll_returns {A} (sanitize : Row -> Result (option A)) rows :
  (forall row, exists r, sanitize row = Ok r) ->
  exists l, sanitizeAll sanitize rows = Ok l.
Proof.
  intros Hs. induction rows as [|row rows [l IH]]; cbn [sanitizeAll].
  - now exists [].
  - destruct (Hs row) as [r ->]. rewrite IH. cbv [mbind Result_bind mret Result_ret].
    eauto.
Qed.

Lemma sanitizeStockData_returns row : exists r, sanitizeStockData row = Ok r.
Proof.
  unfold sanitizeStockData.
  destruct (validateInteger_field row "CIK" (ofZ 1) (ofZ 9999999999)) as [r ->].
  cbv [mbind Result_bind mret Result_ret].
  cbv zeta.
  destruct (validateString (field row "Symbol") 10), (validateString (field row "CompanyName") 200),
    r; eauto.
  destruct (_ || _); eauto.
Qed.

Lemma sanitizeFormData_returns `{Runtime} row : exists r, sanitizeFormData row = Ok r.
Proof.
  unfold sanitizeFormData.
  destruct (validateInteger_field row "id" (ofZ 1) (ofZ MAX_ROWS)) as [r1 ->].
  destruct (validateInteger_field row "CIK" (ofZ 1) (ofZ 9999999999)) as [r2 ->].
  cbv [mbind Result_bind mret Result_ret].
  cbv zeta.
  destruct r1, (validateString (field row "FormName") 100), r2,
    (validateDate (field row "ValueDate")), (validateDate (field row "FilingDate")),
    (validateURL (field row "FormURL")); eauto.
  destruct (_ || _); eauto.
Qed.

Lemma sanitizeTaskData_returns row : exists r, sanitizeTaskData row = Ok r.
Proof.
  unfold sanitizeTaskData.
  destruct (validateInteger_field row "Form_id" (ofZ 1) (ofZ MAX_ROWS)) as [r1 ->].
  destruct (validateNumber_field row "CCP" (ofZ 0) MAX_SAFE_INTEGER) as [r2 ->].
  destruct (validateNumber_field row "LTD" (ofZ 0) MAX_SAFE_INTEGER) as [r3 ->].
  destruct (optional_field row "TextListLen" (fun v => validateInteger v (ofZ 0) (ofZ 1000)) None
              (validateInteger_field _ _ _ _)) as [r4 ->].
  destruct (optional_field row "TableIndex" (fun v => validateInteger v (ofZ 0) (ofZ 100)) None
              (validateInteger_field _ _ _ _)) as [r5 ->].
  destruct (optional_field row "SumDivider"
              (fun v => validateNumber v (round64 (1 # 1000)) (ofZ 10000)) (Some (ofZ 1))
              (validateNumber_field _ _ _ _)) as [r6 ->].
  destruct (optional_field row "JsonTable" (fun v => validateInteger v (ofZ 0) (ofZ 1)) None
              (validateInteger_field _ _ _ _)) as [r7 ->].
  destruct (optional_field row "ValueColumn" (fun v => validateInteger v (ofZ 0) (ofZ 10)) None
              (validateInteger_field _ _ _ _)) as [r8 ->].
  cbv [mbind Result_bind mret Result_ret].
  destruct r1, r2, r3; eauto.
Qed.

(** What an accepted stock row gives. *)
Lemma sanitizeStockData_Some row stock :
  sanitizeStockData row = Ok (Some stock) ->
  validateString (field row "Symbol") 10 = Some (symbol stock)
  /\ validateString (field row "CompanyName") 200 = Some (companyName stock)
  /\ symbol stock <> "" /\ companyName stock <> ""
  /\ exists z, 1 <= z <= 9999999999 /\ stock_cik stock = Number_toString (ofZ z).
Proof.
  unfold sanitizeStockData.
  destruct (validateInteger (field row "CIK") (ofZ 1) (ofZ 9999999999)) as [[c|]|] eqn:Ec;
    cbv [mbind Result_bind mret Result_ret]; try discriminate.
  2: { destruct (validateString (field row "Symbol") 10),
         (validateString (field row "CompanyName") 200); discriminate. }
  destruct (validateString (field row "Symbol") 10) as [s|]; [|discriminate].
  destruct (validateString (field row "CompanyName") 200) as [n|]; [|discriminate].
  destruct (negb (Str_truthy s)) eqn:Es; [discriminate|].
  destruct (negb (Str_truthy n)) eqn:En; [discriminate|].
  destruct (negb (Num_truthy c)); [discriminate|]. cbn [orb].
  intros [= <-]. cbn [symbol companyName stock_cik].
  apply negb_false_iff in Es, En. unfold Str_truthy in Es, En.
  apply negb_true_iff, String.eqb_neq in Es, En.
  destruct (validateInteger_integer _ 1 9999999999 _ ltac:(lia) ltac:(lia) Ec) as (z & -> & Hz).
  repeat split; auto. now exists z.
Qed.

(** What an accepted form row gives. *)
Lemma sanitizeFormData_Some `{Runtime} row form :
  sanitizeFormData row = Ok (Some form) ->
  validateString (field row "FormName") 100 = Some (formName form)
  /\ formName form <> ""
  /\ validateURL (field row "FormURL") = Some (formURL form)
  /\ (exists z, 1 <= z <= MAX_ROWS /\ form_id form = Number_toString (ofZ z))
  /\ (exists z, 1 <= z <= 9999999999 /\ form_cik form = Number_toString (ofZ z))
  /\ (exists t, validateDate (field row "ValueDate") = Some t /\ valueDate form = isoDay t)
  /\ (exists t, validateDate (field row "FilingDate") = Some t /\ filingDate form = isoDay t).
Proof.
  unfold sanitizeFormData.
  destruct (validateInteger (field row "id") (ofZ 1) (ofZ MAX_ROWS)) as [i|] eqn:Ei;
    cbv [mbind Result_bind mret Result_ret]; [|discriminate].
  destruct (validateInteger (field row "CIK") (ofZ 1) (ofZ 9999999999)) as [c|] eqn:Ec;
    [|discriminate].
  destruct i as [i|]; [|discriminate].
  destruct (validateString (field row "FormName") 100) as [n|]; [|discriminate].
  destruct c as [c|]; [|discriminate].
  destruct (validateDate (field row "ValueDate")) as [vd|]; [|discriminate].
  destruct (validateDate (field row "FilingDate")) as [fd|]; [|discriminate].
  destruct (validateURL (field row "FormURL")) as [u|]; [|discriminate].
  destruct (negb (Num_truthy i)); [discriminate|].
  destruct (negb (Str_truthy n)) eqn:En; [discriminate|].
  destruct (negb (Num_truthy c)); [discriminate|].
  destruct (negb (Str_truthy u)); [discriminate|]. cbn [orb].
  intros [= <-]. cbn [form_id formName form_cik valueDate filingDate formURL].
  apply negb_false_iff in En. unfold Str_truthy in En.
  apply negb_true_iff, String.eqb_neq in En.
  unfold MAX_ROWS in *.
  destruct (validateInteger_integer _ 1 10000 _ ltac:(lia) ltac:(lia) Ei) as (zi & -> & Hzi).
  destruct (validateInteger_integer _ 1 9999999999 _ ltac:(lia) ltac:(lia) Ec) as (zc & -> & Hzc).
  repeat split; eauto.
Qed.

(** What an accepted task row gives. *)
Lemma sanitizeTaskData_Some row task :
  sanitizeTaskData row = Ok (Some task) ->
  (exists z, 1 <= z <= MAX_ROWS /\ formId task = Number_toString (ofZ z))
  /\ validateNumber (field row "CCP") (ofZ 0) MAX_SAFE_INTEGER = Ok (Some (ccp task))
  /\ validateNumber (field row "LTD") (ofZ 0) MAX_SAFE_INTEGER = Ok (Some (ltd task)).
Proof.
  unfold sanitizeTaskData.
  destruct (validateInteger (field row "Form_id") (ofZ 1) (ofZ MAX_ROWS)) as [f|] eqn:Ef;
    cbv [mbind Result_bind mret Result_ret]; [|discriminate].
  destruct (validateNumber (field row "CCP") _ _) as [c|]; [|discriminate].
  destruct (validateNumber (field row "LTD") _ _) as [l|]; [|discriminate].
  destruct (optional row "TextListLen" _ _); [|discriminate].
  destruct (optional row "TableIndex" _ _); [|discriminate].
  destruct (optional row "SumDivider" _ _); [|discriminate].
  destruct (optional row "JsonTable" _ _); [|discriminate].
  destruct (optional row "ValueColumn" _ _); [|discriminate].
  destruct f as [f|]; [|discriminate]. destruct c as [c|]; [|discriminate].
  destruct l as [l|]; [|discriminate].
  intros [= <-]. cbn [formId ccp ltd]. unfold MAX_ROWS in *.
  destruct (validateInteger_integer _ 1 10000 _ ltac:(lia) ltac:(lia) Ef) as (z & -> & Hz).
  repeat split; eauto.
Qed.

(** ** The records of a dataset *)

Lemma buildMap_from_lookup {A} (key : A -> string) (l : list A) (m : gmap string A) k a :
  fold_left (fun m a => <[key a := a]> m) l m !! k = Some a ->
  (a ∈ l /\ key a = k) \/ m !! k = Some a.
Proof.
  revert m. induction l as [|x l IH]; intros m; cbn [fold_left].
  - now right.
  - intros Hk. destruct (IH _ Hk) as [[Hin Hkey] | Hm].
    + left. split; [now apply elem_of_cons; right | exact Hkey].
    + destruct (decide (key x = k)) as [E | E].
      * subst k. rewrite lookup_insert_eq in Hm. injection Hm as ->.
        left. split; [now apply elem_of_cons; left | reflexivity].
      * rewrite lookup_insert_ne in Hm by exact E. now right.
Qed.

Lemma buildMap_lookup {A} (key : A -> string) (l : list A) k a :
  buildMap key l !! k = Some a -> a ∈ l /\ key a = k.
Proof.
  intros Hk. apply buildMap_from_lookup in Hk as [H | H]; [exact H|].
  now rewrite lookup_empty in H.
Qed.

Section Records.
Context {runtime : Runtime}.
Variable stocksMap : gmap string Stock.
Variable formsMap : gmap string Form.

Lemma combineTask_Some task record :
  combineTask stocksMap formsMap task = Some record ->
  exists form stock time,
    formsMap !! formId task = Some form
    /\ stocksMap !! form_cik form = Some stock
    /\ Date_parse (valueDate form) = Some time
    /\ Num_lt (ccp task) (ofZ 0) = false /\ Num_lt (ltd task) (ofZ 0) = false
    /\ Num_gt (ccp task) (ofZ (10 ^ 12)) = false /\ Num_gt (ltd task) (ofZ (10 ^ 12)) = false
    /\ record = {|
         id := formId task;
         company := companyName stock;
         rec_symbol := symbol stock;
         cik := stock_cik stock;
         year := getFullYear time;
         quarter := quarterOfMonth (getMonth time);
         date := time;
         dateString := valueDate form;
         quarterLabel := "Q" +:+ Z_toString (quarterOfMonth (getMonth time)) +:+ " "
                         +:+ Z_toString (getFullYear time);
         rec_ccp := ccp task;
         rec_ltd := ltd task;
         rec_formName := formName form;
         rec_formURL := formURL form
       |}.
Proof.
  unfold combineTask.
  destruct (formsMap !! formId task) as [form|] eqn:Ef; [|discriminate].
  destruct (stocksMap !! form_cik form) as [stock|] eqn:Es; [|discriminate].
  destruct (Date_parse (valueDate form)) as [time|] eqn:Et; [|discriminate].
  destruct (Num_lt (ccp task) (ofZ 0)) eqn:E1; [discriminate|].
  destruct (Num_lt (ltd task) (ofZ 0)) eqn:E2; [discriminate|].
  destruct (Num_gt (ccp task) (ofZ (10 ^ 12))) eqn:E3; [discriminate|].
  destruct (Num_gt (ltd task) (ofZ (10 ^ 12))) eqn:E4; [discriminate|].
  cbn [orb]. intros [= <-]. exists form, stock, time. auto 10.
Qed.

Lemma joinTasks_origin tasks record :
  record ∈ joinTasks stocksMap formsMap tasks ->
  exists task, task ∈ tasks /\ combineTask stocksMap formsMap task = Some record.
Proof.
  intros Hin. apply joinFrom_origin in Hin as [Hin | [_ Hin]]; [|exact Hin].
  now apply elem_of_nil in Hin.
Qed.

End Records.

Lemma civil_month z : 1 <= snd (fst (civil_from_days z)) <= 12.
Proof.
  unfold civil_from_days. cbv zeta. cbn [fst snd].
  set (doe := z + 719468 - (z + 719468) / 146097 * 146097).
  assert (Hdoe : 0 <= doe < 146097).
  { unfold doe. Z.to_euclidean_division_equations; lia. }
  clearbody doe.
  set (mp := (5 * _ + 2) / 153).
  assert (Hmp : 0 <= mp <= 11).
  { unfold mp. Z.to_euclidean_division_equations; lia. }
  clearbody mp. destruct (Z.ltb_spec mp 10); lia.
Qed.

Lemma MonthFromTime_range t : 0 <= MonthFromTime t <= 11.
Proof. unfold MonthFromTime. pose proof (civil_month (t / msPerDay)). lia. Qed.

Lemma quarterOfMonth_range m : 0 <= m <= 11 -> 1 <= quarterOfMonth m <= 4.
Proof. intros Hm. unfold quarterOfMonth. Z.to_euclidean_division_equations; lia. Qed.

Lemma quarter_range `{Runtime} t : 1 <= quarterOfMonth (getMonth t) <= 4.
Proof. apply quarterOfMonth_range, MonthFromTime_range. Qed.

(** Everything that a returned dataset is made of. *)
Lemma processLoaded_dataset `{Runtime} stocksData formsData tasksData ds :
  processLoaded stocksData formsData tasksData = Ok ds ->
  exists stocks forms tasks,
    sanitizeAll sanitizeStockData stocksData = Ok stocks
    /\ sanitizeAll sanitizeFormData formsData = Ok forms
    /\ sanitizeAll sanitizeTaskData tasksData = Ok tasks
    /\ Z.of_nat (length stocks) <= 1000
    /\ Z.of_nat (length forms) <= 5000
    /\ Z.of_nat (length tasks) <= 10000
    /\ combinedData ds
       = sortByDate (joinTasks (buildMap stock_cik stocks) (buildMap form_id forms) tasks)
    /\ combinedData ds <> []
    /\ groupByCompany (combinedData ds) = Ok (groupedData ds)
    /\ companies ds = sortStrings (Object_keys (groupedData ds))
    /\ (let years := sortNumbers (distinctFrom [] (map year (combinedData ds))) in
        dateRange_min ds = fold_right Z.min (hd 0 years) years
        /\ dateRange_max ds = fold_right Z.max (hd 0 years) years
        /\ yearsSpan (stats ds) = length years)
    /\ totalRecords (stats ds) = length (combinedData ds)
    /\ companiesCount (stats ds) = length (companies ds)
    /\ dataQuality (stats ds)
       = {| stocksSanitized := length stocks; formsSanitized := length forms;
            tasksSanitized := length tasks; originalStocks := length stocksData;
            originalForms := length formsData; originalTasks := length tasksData |}.
Proof.
  unfold processLoaded, rethrow.
  destruct (sanitizeAll sanitizeStockData stocksData) as [stocks|]; simpl; [|discriminate].
  destruct (sanitizeAll sanitizeFormData formsData) as [forms|]; simpl; [|discriminate].
  destruct (sanitizeAll sanitizeTaskData tasksData) as [tasks|]; simpl; [|discriminate].
  destruct (Z.ltb_spec 1000 (Z.of_nat (length stocks))); [discriminate|].
  destruct (Z.ltb_spec 5000 (Z.of_nat (length forms))); [discriminate|].
  destruct (Z.ltb_spec 10000 (Z.of_nat (length tasks))); [discriminate|].
  destruct (Z.eqb_spec (Z.of_nat (length (joinTasks (buildMap stock_cik stocks)
                                            (buildMap form_id forms) tasks))) 0) as [|Hne];
    [discriminate|].
  destruct (groupByCompany _) as [g|] eqn:Hg; simpl; [|discriminate].
  destruct (_ || _); [discriminate|].
  intros [= <-]. simpl. exists stocks, forms, tasks.
  repeat split; auto.
  intros E. apply Hne. apply (f_equal (@length _)) in E.
  rewrite sortByDate_length in E. simpl in E. lia.
Qed.

(** ** Strings that the validator returns *)

Lemma chars_of_chars l : chars (of_chars l) = l.
Proof. apply list_ascii_of_string_of_list_ascii. Qed.

Lemma of_chars_chars s : of_chars (chars s) = s.
Proof. apply string_of_list_ascii_of_string. Qed.

Lemma str_filter_kept keep s : Forall (fun c => keep c = true) (chars (str_filter keep s)).
Proof.
  induction s as [|c s IH]; cbn [str_filter chars list_ascii_of_string].
  - constructor.
  - destruct (keep c) eqn:E; [|exact IH]. now constructor.
Qed.

Lemma trimStart_chars (P : ascii -> Prop) s :
  Forall P (chars s) -> Forall P (chars (trimStart s)).
Proof.
  induction s as [|c s IH]; cbn [trimStart]; [auto|].
  intros Hs. destruct (is_white c); [|exact Hs].
  apply IH. now inversion Hs.
Qed.

Lemma str_rev_chars (P : ascii -> Prop) s :
  Forall P (chars s) -> Forall P (chars (str_rev s)).
Proof.
  intros Hs. unfold str_rev. rewrite chars_of_chars.
  apply Forall_forall. intros c Hc. rewrite Forall_forall in Hs.
  apply Hs. apply list_elem_of_In. apply list_elem_of_In in Hc. now apply in_rev.
Qed.

Lemma trim_chars (P : ascii -> Prop) s : Forall P (chars s) -> Forall P (chars (trim s)).
Proof.
  intros Hs. unfold trim, trimEnd.
  now apply str_rev_chars, trimStart_chars, str_rev_chars, trimStart_chars.
Qed.

Lemma substring0_chars (P : ascii -> Prop) n s :
  Forall P (chars s) -> Forall P (chars (substring0 n s)).
Proof.
  revert s. induction n as [|n IH]; intros [|c s]; cbn [substring0]; try constructor.
  - now inversion H.
  - apply IH. now inversion H.
Qed.

Lemma validateString_clean value maxLength s :
  validateString value maxLength = Some s ->
  Forall (fun c => is_dangerous c = false) (chars s).
Proof.
  destruct value; try discriminate. intros [= <-].
  apply substring0_chars, trim_chars.
  eapply Forall_impl; [apply str_filter_kept|].
  intros c Hc. now apply negb_true_iff in Hc.
Qed.

(** ** Stable names *)

Lemma trimStart_idem s : trimStart (trimStart s) = trimStart s.
Proof.
  induction s as [|c s IH]; cbn [trimStart]; [reflexivity|].
  destruct (is_white c) eqn:E; [exact IH|]. cbn [trimStart]. now rewrite E.
Qed.

Lemma trimStart_head s :
  trimStart s = "" \/ exists c r, trimStart s = String c r /\ is_white c = false.
Proof.
  induction s as [|c s IH]; cbn [trimStart]; [now left|].
  destruct (is_white c) eqn:E; [exact IH|]. right. now exists c, s.
Qed.

Lemma str_rev_involutive s : str_rev (str_rev s) = s.
Proof. unfold str_rev. now rewrite chars_of_chars, rev_involutive, of_chars_chars. Qed.

Lemma trimEnd_idem s : trimEnd (trimEnd s) = trimEnd s.
Proof. unfold trimEnd. now rewrite str_rev_involutive, trimStart_idem. Qed.

Lemma trimStart_snoc l c :
  is_white c = false ->
  chars (trimStart (of_chars (l ++ [c]))) = chars (trimStart (of_chars l)) ++ [c].
Proof.
  intros Hc. induction l as [|a l IH].
  - cbn. now rewrite Hc.
  - change (of_chars ((a :: l) ++ [c])) with (String a (of_chars (l ++ [c]))).
    change (of_chars (a :: l)) with (String a (of_chars l)).
    cbn [trimStart]. destruct (is_white a); [exact IH|].
    cbn [chars list_ascii_of_string]. unfold chars in *.
    now rewrite !list_ascii_of_string_of_list_ascii.
Qed.

Lemma trimEnd_head c r :
  is_white c = false -> exists r', trimEnd (String c r) = String c r'.
Proof.
  intros Hc. unfold trimEnd. unfold str_rev at 2.
  change (chars (String c r)) with (c :: chars r). cbn [rev].
  unfold str_rev. rewrite (trimStart_snoc _ _ Hc), rev_app_distr. cbn [rev app].
  eexists. reflexivity.
Qed.

Lemma trim_trimStart s : trimStart (trim s) = trim s.
Proof.
  unfold trim. destruct (trimStart_head s) as [-> | (c & r & -> & Hc)]; [reflexivity|].
  destruct (trimEnd_head c r Hc) as [r' ->]. cbn [trimStart]. now rewrite Hc.
Qed.

Lemma trim_idem s : trim (trim s) = trim s.
Proof.
  unfold trim at 1. rewrite trim_trimStart. unfold trim. apply trimEnd_idem.
Qed.

Lemma str_filter_id keep s :
  Forall (fun c => keep c = true) (chars s) -> str_filter keep s = s.
Proof.
  induction s as [|c s IH]; cbn [str_filter]; [reflexivity|].
  intros Hs. inversion Hs as [|? ? Hc Hs']; subst. rewrite Hc. f_equal. now apply IH.
Qed.

Lemma substring0_all n s : (String.length s <= n)%nat -> substring0 n s = s.
Proof.
  revert s. induction n as [|n IH]; intros [|c s]; cbn [substring0 String.length]; auto.
  - lia.
  - intros Hs. f_equal. apply IH. lia.
Qed.

Lemma substring0_short n s :
  (String.length (substring0 n s) < n)%nat -> substring0 n s = s.
Proof.
  revert s. induction n as [|n IH]; intros [|c s]; cbn [substring0 String.length]; auto.
  - lia.
  - intros Hs. f_equal. apply IH. lia.
Qed.

(** A string that the validator returns without having cut it is returned
    as it is when it is validated again. *)
Lemma validateString_again value maxLength s :
  validateString value maxLength = Some s -> (String.length s < maxLength)%nat ->
  validateString (JStr s) maxLength = Some s.
Proof.
  destruct value as [| | | | |s0| |]; try discriminate. intros [= <-] Hlen.
  rewrite (substring0_short _ _ Hlen). cbn [validateString]. f_equal.
  rewrite str_filter_id.
  - rewrite trim_idem. apply substring0_all.
    rewrite (substring0_short _ _ Hlen) in Hlen. lia.
  - apply trim_chars, str_filter_kept.
Qed.

(** ** Sorted lists of names and of years *)

Lemma insertString_perm s l : insertString s l ≡ₚ s :: l.
Proof.
  induction l as [|s' l IH]; cbn [insertString]; [reflexivity|].
  destruct (String.leb s s'); [reflexivity|]. rewrite IH. apply perm_swap.
Qed.

Lemma sortStrings_perm l : sortStrings l ≡ₚ l.
Proof.
  induction l as [|s l IH]; [reflexivity|].
  cbn [sortStrings fold_right]. rewrite insertString_perm. now constructor.
Qed.

Lemma insertString_sorted s l :
  Sorted (fun a b => String.leb a b = true) l ->
  Sorted (fun a b => String.leb a b = true) (insertString s l).
Proof.
  induction 1 as [|s' l Hl IH Hhd]; cbn [insertString]; [repeat constructor|].
  destruct (String.leb s s') eqn:E.
  - constructor; [now constructor | now constructor].
  - constructor; [exact IH|].
    assert (Hs : String.leb s' s = true) by (destruct (String.leb_total s s'); congruence).
    destruct l as [|s'' l]; cbn [insertString]; [now constructor|].
    destruct (String.leb s s''); constructor; auto. now inversion Hhd.
Qed.

Lemma sortStrings_sorted l : Sorted (fun a b => String.leb a b = true) (sortStrings l).
Proof.
  induction l as [|s l IH]; [constructor|]. now apply insertString_sorted.
Qed.

Lemma insertZ_perm x l : insertZ x l ≡ₚ x :: l.
Proof.
  induction l as [|y l IH]; cbn [insertZ]; [reflexivity|].
  destruct (x <=? y); [reflexivity|]. rewrite IH. apply perm_swap.
Qed.

Lemma sortNumbers_perm l : sortNumbers l ≡ₚ l.
Proof.
  induction l as [|x l IH]; [reflexivity|].
  cbn [sortNumbers fold_right]. rewrite insertZ_perm. now constructor.
Qed.

Lemma distinctFrom_elem seen l x : x ∈ distinctFrom seen l <-> x ∈ l /\ x ∉ seen.
Proof.
  revert seen. induction l as [|y l IH]; intros seen; cbn [distinctFrom].
  - rewrite elem_of_nil. tauto.
  - destruct (bool_decide (y ∈ seen)) eqn:E.
    + apply bool_decide_eq_true in E. rewrite IH, elem_of_cons.
      split; [tauto|]. intros [[-> | Hx] Hn]; [contradiction | tauto].
    + apply bool_decide_eq_false in E. rewrite !elem_of_cons, IH, not_elem_of_cons.
      destruct (decide (x = y)) as [-> | Hxy]; tauto.
Qed.

Lemma distinctFrom_length seen l : (length (distinctFrom seen l) <= length l)%nat.
Proof.
  revert seen. induction l as [|y l IH]; intros seen; cbn [distinctFrom length]; [lia|].
  destruct (bool_decide (y ∈ seen)); cbn [length].
  - specialize (IH seen). lia.
  - specialize (IH (y :: seen)). lia.
Qed.

Lemma fold_min_le d l x : x ∈ l -> fold_right Z.min d l <= x.
Proof.
  induction l as [|y l IH]; [now rewrite elem_of_nil|].
  rewrite elem_of_cons. cbn [fold_right]. intros [-> | Hx]; [lia|].
  specialize (IH Hx). lia.
Qed.

Lemma fold_min_elem d l : fold_right Z.min d l = d \/ fold_right Z.min d l ∈ l.
Proof.
  induction l as [|y l IH]; [now left|]. cbn [fold_right].
  destruct (Z.min_spec y (fold_right Z.min d l)) as [[_ ->] | [_ ->]].
  - right. now left.
  - destruct IH as [IH | IH]; [now left|]. right. now right.
Qed.

Lemma fold_max_ge d l x : x ∈ l -> x <= fold_right Z.max d l.
Proof.
  induction l as [|y l IH]; [now rewrite elem_of_nil|].
  rewrite elem_of_cons. cbn [fold_right]. intros [-> | Hx]; [lia|].
  specialize (IH Hx). lia.
Qed.

Lemma fold_max_elem d l : fold_right Z.max d l = d \/ fold_right Z.max d l ∈ l.
Proof.
  induction l as [|y l IH]; [now left|]. cbn [fold_right].
  destruct (Z.max_spec y (fold_right Z.max d l)) as [[_ ->] | [_ ->]].
  - destruct IH as [IH | IH]; [now left|]. right. now right.
  - right. now left.
Qed.

Lemma hd_elem (d : Z) l : l <> [] -> hd d l ∈ l.
Proof. destruct l; [congruence|]. intros _. now left. Qed.

(** The years of the records, as [dateRange] reads them. *)
Lemma years_elem cd y :
  y ∈ sortNumbers (distinctFrom [] (map year cd)) <-> exists r, r ∈ cd /\ year r = y.
Proof.
  rewrite sortNumbers_perm, distinctFrom_elem, list_elem_of_fmap.
  split.
  - intros [(r & -> & Hr) _]. now exists r.
  - intros (r & Hr & <-). split; [now exists r | apply not_elem_of_nil].
Qed.

(** ** Groups and companies of a dataset *)

Lemma byDate_filter (p : CombinedRecord -> bool) l :
  Sorted byDate l -> Sorted byDate (List.filter p l).
Proof.
  intros Hs. apply StronglySorted_Sorted.
  apply Sorted_StronglySorted in Hs; [|intros a b c; unfold byDate; lia].
  induction Hs as [|x l Hl IH Hx]; cbn [List.filter]; [constructor|].
  destruct (p x); [|exact IH]. constructor; [exact IH|].
  rewrite List.Forall_forall in *. intros y Hy. apply Hx.
  now apply filter_In in Hy as [Hy _].
Qed.

(** Grouping fails on the first record whose company is named like an
    inherited property, and only then. *)
Lemma groupFrom_inherited items g g' :
  (forall k, own g k <> None -> inherited k = false) ->
  groupFrom g items = Ok g' ->
  forall c, c ∈ items -> inherited (company c) = false.
Proof.
  revert g. induction items as [|item items IH]; intros g Hg; cbn [groupFrom].
  - intros _ c Hc. now apply elem_of_nil in Hc.
  - destruct (groupStep g item) as [g1|] eqn:Hstep; cbv [mbind Result_bind]; [|discriminate].
    intros Hrest c Hc.
    assert (Hitem : inherited (company item) = false).
    { unfold groupStep in Hstep. destruct (own g (company item)) eqn:Hown.
      - apply Hg. congruence.
      - destruct (inherited (company item)); [discriminate | reflexivity]. }
    apply elem_of_cons in Hc as [-> | Hc]; [exact Hitem|].
    apply (IH g1); auto.
    intros k Hk. unfold groupStep in Hstep.
    destruct (own g (company item)) as [its|] eqn:Hown.
    + injection Hstep as <-. rewrite own_assign, Hown in Hk.
      destruct (String.eqb (company item) k) eqn:E; [|now apply Hg].
      apply String.eqb_eq in E. now rewrite <- E.
    + rewrite Hitem in Hstep. injection Hstep as <-. rewrite own_app_new in Hk.
      destruct (own g k) eqn:Hgk; [apply Hg; congruence|].
      destruct (String.eqb (company item) k) eqn:E; [|congruence].
      apply String.eqb_eq in E. now rewrite <- E.
Qed.

Lemma groupFrom_Throw items g e :
  groupFrom g items = Throw e ->
  e = TypeError "groupedData[item.company].push is not a function".
Proof.
  revert g. induction items as [|item items IH]; intros g; cbn [groupFrom]; [discriminate|].
  destruct (groupStep g item) as [g1|e1] eqn:Hstep; cbv [mbind Result_bind].
  - apply IH.
  - intros [= <-]. unfold groupStep in Hstep.
    destruct (own g (company item)); [discriminate|].
    destruct (inherited (company item)); [|discriminate]. now injection Hstep as <-.
Qed.

Lemma groupByCompany_grouped cd g : groupByCompany cd = Ok g -> grouped g cd.
Proof. intros Hg. now apply (groupFrom_grouped _ _ _ _ grouped_nil) in Hg. Qed.

Lemma grouped_keys g cd k :
  grouped g cd -> k ∈ map fst g <-> exists r, r ∈ cd /\ company r = k.
Proof.
  intros (Hnd & Hown & Hall & _). split.
  - intros Hk. destruct (own g k) as [items|] eqn:Ek.
    + destruct (Hown _ _ Ek) as [-> Hne].
      destruct (groupOf k cd) as [|r rest] eqn:Eg; [congruence|].
      exists r. apply groupOf_elem. rewrite Eg. now left.
    + now apply own_None_keys in Ek.
  - intros (r & Hr & <-). apply Hall in Hr.
    destruct (decide (company r ∈ map fst g)) as [|Hn]; [assumption|].
    now apply own_None_keys in Hn.
Qed.

Lemma NoDup_length_le {A} (l l' : list A) :
  NoDup l -> (forall x, x ∈ l -> x ∈ l') -> (length l <= length l')%nat.
Proof.
  intros Hnd Hsub. apply submseteq_length, NoDup_submseteq; assumption.
Qed.

Section JoinLength.
Context {runtime : Runtime}.
Variable stocksMap : gmap string Stock.
Variable formsMap : gmap string Form.

Lemma joinFrom_length tasks st :
  (length (joinFrom stocksMap formsMap st tasks).1 <= length st.1 + length tasks)%nat.
Proof.
  revert st. induction tasks as [|task tasks IH]; intros st.
  - simpl. lia.
  - rewrite joinFrom_cons. specialize (IH (joinStep stocksMap formsMap st task)).
    assert (length (joinStep stocksMap formsMap st task).1 <= S (length st.1))%nat.
    { unfold joinStep. destruct st as [cd seen]. cbn [fst].
      destruct (bool_decide _); cbn [fst]; [lia|].
      destruct (combineTask _ _ _); cbn [fst]; [|lia].
      rewrite length_app. simpl. lia. }
    cbn [length]. lia.
Qed.

Lemma joinTasks_length tasks :
  (length (joinTasks stocksMap formsMap tasks) <= length tasks)%nat.
Proof. unfold joinTasks. pose proof (joinFrom_length tasks ([], ∅)). simpl in *. lia. Qed.

End JoinLength.

(** A joined record, from the sanitized lists. *)
Lemma joined_record `{Runtime} stocks forms tasks r :
  r ∈ joinTasks (buildMap stock_cik stocks) (buildMap form_id forms) tasks ->
  exists task form stock time,
    task ∈ tasks /\ form ∈ forms /\ stock ∈ stocks
    /\ form_id form = formId task /\ stock_cik stock = form_cik form
    /\ Date_parse (valueDate form) = Some time
    /\ Num_gt (ccp task) (ofZ (10 ^ 12)) = false /\ Num_gt (ltd task) (ofZ (10 ^ 12)) = false
    /\ r = {|
         id := formId task;
         company := companyName stock;
         rec_symbol := symbol stock;
         cik := stock_cik stock;
         year := getFullYear time;
         quarter := quarterOfMonth (getMonth time);
         date := time;
         dateString := valueDate form;
         quarterLabel := "Q" +:+ Z_toString (quarterOfMonth (getMonth time)) +:+ " "
                         +:+ Z_toString (getFullYear time);
         rec_ccp := ccp task;
         rec_ltd := ltd task;
         rec_formName := formName form;
         rec_formURL := formURL form
       |}.
Proof.
  intros Hr. apply joinTasks_origin in Hr as (task & Htask & Hc).
  apply combineTask_Some in Hc
    as (form & stock & time & Hf & Hs & Ht & _ & _ & Hc1 & Hc2 & ->).
  apply buildMap_lookup in Hf as [Hf Hfk]. apply buildMap_lookup in Hs as [Hs Hsk].
  exists task, form, stock, time. auto 12.
Qed.

(** A record of a dataset is the join of a task row, a form row and a stock
    row that pass their sanitizers. *)
Lemma processLoaded_record `{Runtime} stocksData formsData tasksData ds r :
  processLoaded stocksData formsData tasksData = Ok ds -> r ∈ combinedData ds ->
  exists stockRow formRow taskRow stock form task time,
    stockRow ∈ stocksData /\ formRow ∈ formsData /\ taskRow ∈ tasksData
    /\ sanitizeStockData stockRow = Ok (Some stock)
    /\ sanitizeFormData formRow = Ok (Some form)
    /\ sanitizeTaskData taskRow = Ok (Some task)
    /\ form_id form = formId task /\ stock_cik stock = form_cik form
    /\ Date_parse (valueDate form) = Some time
    /\ Num_gt (ccp task) (ofZ (10 ^ 12)) = false /\ Num_gt (ltd task) (ofZ (10 ^ 12)) = false
    /\ r = {|
         id := formId task;
         company := companyName stock;
         rec_symbol := symbol stock;
         cik := stock_cik stock;
         year := getFullYear time;
         quarter := quarterOfMonth (getMonth time);
         date := time;
         dateString := valueDate form;
         quarterLabel := "Q" +:+ Z_toString (quarterOfMonth (getMonth time)) +:+ " "
                         +:+ Z_toString (getFullYear time);
         rec_ccp := ccp task;
         rec_ltd := ltd task;
         rec_formName := formName form;
         rec_formURL := formURL form
       |}.
Proof.
  intros Hds Hr.
  apply processLoaded_dataset in Hds
    as (stocks & forms & tasks & Hstocks & Hforms & Htasks & _ & _ & _ & Hcd & _).
  rewrite Hcd in Hr. rewrite sortByDate_perm in Hr.
  apply joined_record in Hr
    as (task & form & stock & time & Htask & Hf & Hs & Hfk & Hsk & Ht & Hc1 & Hc2 & ->).
  destruct (sanitizeAll_elem _ _ _ _ Hstocks Hs) as (stockRow & ? & ?).
  destruct (sanitizeAll_elem _ _ _ _ Hforms Hf) as (formRow & ? & ?).
  destruct (sanitizeAll_elem _ _ _ _ Htasks Htask) as (taskRow & ? & ?).
  exists stockRow, formRow, taskRow, stock, form, task, time. auto 15.
Qed.

(** ** The matches as a filter of the records *)

Lemma filter_perm {A} (p : A -> bool) l l' : l ≡ₚ l' -> List.filter p l ≡ₚ List.filter p l'.
Proof.
  induction 1 as [|x l l' _ IH|x y l|l l' l'' _ IH1 _ IH2]; cbn [List.filter].
  - reflexivity.
  - destruct (p x); [now constructor | exact IH].
  - destruct (p x), (p y); try reflexivity. apply perm_swap.
  - now rewrite IH1.
Qed.

Lemma flat_map_perm {A B} (f : A -> list B) l l' : l ≡ₚ l' -> flat_map f l ≡ₚ flat_map f l'.
Proof.
  induction 1 as [|x l l' _ IH|x y l|l l' l'' _ IH1 _ IH2]; cbn [flat_map].
  - reflexivity.
  - now rewrite IH.
  - rewrite !app_assoc. f_equiv. apply Permutation_app_comm.
  - now rewrite IH1.
Qed.

Lemma flat_map_fst {A B C} (f : A -> list C) (l : list (A * B)) :
  flat_map f (map fst l) = flat_map (fun kv => f kv.1) l.
Proof. induction l as [|kv l IH]; cbn [map flat_map]; congruence. Qed.

Lemma filter_flat_snd {A B} (p : B -> bool) (l : list (A * list B)) :
  flat_map (fun kv => List.filter p kv.2) l = List.filter p (concat (map snd l)).
Proof.
  induction l as [|kv l IH]; cbn [map flat_map concat]; [reflexivity|].
  now rewrite List.filter_app, IH.
Qed.

Lemma filter_none {A} (p : A -> bool) l :
  (forall x, In x l -> p x = false) -> List.filter p l = [].
Proof.
  induction l as [|x l IH]; cbn [List.filter]; [reflexivity|].
  intros Hall. rewrite (Hall x) by now left. apply IH. intros y Hy. apply Hall. now right.
Qed.

Lemma matching_perm g cd sel sy ey sq eq :
  grouped g cd ->
  matching g sel sy ey sq eq
  ≡ₚ List.filter (fun r => keepItem sy ey sq eq r && selected sel (company r)) cd.
Proof.
  intros (Hnd & Hown & _ & Hperm). unfold matching.
  rewrite (flat_map_perm _ _ _ (Object_keys_perm g)), flat_map_fst.
  rewrite <- (filter_perm _ _ _ Hperm), <- filter_flat_snd.
  erewrite flat_map_agree; [reflexivity|]. intros [k items] Hin. cbn [fst snd].
  pose proof (own_elem _ _ _ Hnd Hin) as Ek. rewrite Ek. cbn [default].
  destruct (Hown _ _ Ek) as [Hitems _].
  assert (Hk : forall r, In r items -> company r = k).
  { intros r Hr. apply list_elem_of_In in Hr. rewrite Hitems in Hr.
    now apply groupOf_elem in Hr. }
  destruct (selected sel k) eqn:Es.
  - apply filter_ext_in. intros r Hr. rewrite (Hk r Hr), Es. now rewrite andb_true_r.
  - symmetry. apply filter_none. intros r Hr. rewrite (Hk r Hr), Es. apply andb_false_r.
Qed.

Lemma filter_length_le {A} (p : A -> bool) l : (length (List.filter p l) <= length l)%nat.
Proof.
  induction l as [|x l IH]; cbn [List.filter length]; [lia|].
  destruct (p x); cbn [length]; lia.
Qed.

(** ** The two filters *)

Lemma includes_strings names k : includes (map JStr names) k = bool_decide (k ∈ names).
Proof.
  induction names as [|n names IH]; cbn [map includes existsb].
  - symmetry. apply bool_decide_eq_false, not_elem_of_nil.
  - fold (includes (map JStr names) k). rewrite IH.
    destruct (String.eqb_spec n k) as [-> | Hne]; cbn [orb].
    + symmetry. apply bool_decide_eq_true. now left.
    + apply bool_decide_ext. rewrite elem_of_cons. split; [tauto|].
      intros [-> | H]; [contradiction | exact H].
Qed.

Lemma validFilter_numbers sy ey sq eq :
  1900 <= sy <= ey -> ey <= 2030 -> 1 <= sq <= 4 -> 1 <= eq <= 4 ->
  validFilter (JNum (ofZ sy)) (JNum (ofZ ey)) (JNum (ofZ sq)) (JNum (ofZ eq))
    (ofZ sy) (ofZ ey) (ofZ sq) (ofZ eq).
Proof.
  intros Hsy Hey Hsq Heq. unfold validFilter. cbn [orDefault].
  rewrite !validateInteger_year, !validateInteger_quarter by lia.
  rewrite Num_gt_ofZ. repeat split; auto. apply Z.ltb_ge. lia.
Qed.

(** ** The data of the chart *)

Lemma own_setProperty {V} (o : JsObject V) k v k' :
  own (setProperty o k v) k' = if String.eqb k k' then Some v else own o k'.
Proof.
  unfold setProperty. destruct (own o k) as [v0|] eqn:Ek.
  - rewrite own_assign, Ek. reflexivity.
  - rewrite own_app_new. destruct (String.eqb_spec k k') as [<- | Hne].
    + now rewrite Ek.
    + now destruct (own o k').
Qed.

Lemma chars_append s t : chars (s +:+ t) = chars s ++ chars t.
Proof.
  unfold chars. induction s as [|c s IH]; simpl; [reflexivity|]. now rewrite IH.
Qed.

Lemma chars_inj s t : chars s = chars t -> s = t.
Proof. intros E. rewrite <- (of_chars_chars s), <- (of_chars_chars t). now rewrite E. Qed.

Lemma append_inj_l s1 s2 t : s1 +:+ t = s2 +:+ t -> s1 = s2.
Proof.
  intros E. apply (f_equal chars) in E. rewrite !chars_append in E.
  apply app_inv_tail in E. now apply chars_inj.
Qed.

Lemma CCP_not_LTD s1 s2 : s1 +:+ "_CCP" <> s2 +:+ "_LTD".
Proof.
  intros E. apply (f_equal chars) in E. rewrite !chars_append in E.
  change (chars "_CCP") with (["_"; "C"; "C"]%char ++ ["P"%char]) in E.
  change (chars "_LTD") with (["_"; "L"; "T"]%char ++ ["D"%char]) in E.
  rewrite !app_assoc in E. apply app_inj_tail in E as [_ E]. discriminate.
Qed.

Lemma labelled_snoc label l item :
  labelled label (l ++ [item])
  = labelled label l ++ (if String.eqb (quarterLabel item) label then [item] else []).
Proof. unfold labelled. rewrite List.filter_app. reflexivity. Qed.

Lemma labelled_elem label l r : r ∈ labelled label l <-> r ∈ l /\ quarterLabel r = label.
Proof.
  unfold labelled. rewrite !list_elem_of_In, filter_In, String.eqb_eq. reflexivity.
Qed.

Lemma charted_nil metrics : charted metrics [] [].
Proof.
  split; [constructor|]. split.
  - intros label entry H. discriminate.
  - intros r Hr. now apply elem_of_nil in Hr.
Qed.

Lemma chartStep_charted metrics m done item :
  charted metrics m done -> charted metrics (chartStep metrics m item) (done ++ [item]).
Proof.
  intros (Hnd & Hown & Hall). unfold chartStep.
  set (key := quarterLabel item).
  set (fresh := {| entry_quarter := key; entry_date := date item; entry_year := year item;
                   quarterNum := quarter item; series := [] |}).
  assert (Hother : forall label, key <> label ->
            labelled label (done ++ [item]) = labelled label done).
  { intros label Hne. rewrite labelled_snoc. fold key.
    destruct (String.eqb_spec key label); [contradiction | apply app_nil_r]. }
  destruct (own m key) as [entry|] eqn:Ek.
  - rewrite Ek. split; [now rewrite assign_keys|]. split.
    + intros label e He. rewrite own_assign, Ek in He.
      destruct (String.eqb_spec key label) as [<- | Hne].
      * injection He as <-. destruct (Hown _ _ Ek) as (Hq & first & rest & Hl & Hd & Hy & Hn & Hs).
        cbn [addSeries entry_quarter entry_date entry_year quarterNum series].
        split; [exact Hq|]. exists first, (rest ++ [item]).
        rewrite labelled_snoc. fold key. rewrite String.eqb_refl, Hl.
        repeat split; auto. rewrite Hs. change (first :: rest ++ [item]) with ((first :: rest) ++ [item]).
        now rewrite fold_left_app.
      * rewrite (Hother _ Hne). now apply Hown.
    + intros r Hr. rewrite own_assign, Ek.
      destruct (String.eqb_spec key (quarterLabel r)); [discriminate|].
      apply elem_of_app in Hr as [Hr | Hr]; [now apply Hall|].
      apply list_elem_of_singleton in Hr as ->. contradiction.
  - assert (Ek' : own (m ++ [(key, fresh)]) key = Some fresh)
      by (rewrite own_app_new, Ek, String.eqb_refl; reflexivity).
    rewrite Ek'. split; [|split].
    + rewrite assign_keys, map_app. apply NoDup_app. split; [exact Hnd|]. split.
      * intros k Hk Hk'. apply list_elem_of_singleton in Hk'. subst k.
        now apply own_None_keys in Ek.
      * apply NoDup_singleton.
    + intros label e He. rewrite own_assign, Ek' in He.
      destruct (String.eqb_spec key label) as [<- | Hne].
      * injection He as <-.
        cbn [addSeries fresh entry_quarter entry_date entry_year quarterNum series].
        split; [reflexivity|]. exists item, [].
        rewrite labelled_snoc. fold key. rewrite String.eqb_refl.
        assert (Hnone : labelled key done = []).
        { destruct (labelled key done) as [|r rs] eqn:El; [reflexivity|].
          assert (Hr : r ∈ labelled key done) by (rewrite El; now left).
          apply labelled_elem in Hr as [Hr Hlab]. apply Hall in Hr.
          rewrite Hlab in Hr. contradiction. }
        rewrite Hnone. repeat split; reflexivity.
      * rewrite own_app_new in He. destruct (own m label) as [e0|] eqn:El.
        -- injection He as <-. rewrite (Hother _ Hne). now apply Hown.
        -- destruct (String.eqb_spec key label); [contradiction | discriminate].
    + intros r Hr. rewrite own_assign, Ek'.
      destruct (String.eqb_spec key (quarterLabel r)); [discriminate|].
      rewrite own_app_new.
      apply elem_of_app in Hr as [Hr | Hr].
      * apply Hall in Hr. destruct (own m (quarterLabel r)); [discriminate | contradiction].
      * apply list_elem_of_singleton in Hr as ->. contradiction.
Qed.

Lemma chartFrom_charted metrics items m done :
  charted metrics m done ->
  charted metrics (fold_left (chartStep metrics) items m) (done ++ items).
Proof.
  revert m done. induction items as [|item items IH]; intros m done Hm; cbn [fold_left].
  - now rewrite app_nil_r.
  - replace (done ++ item :: items) with ((done ++ [item]) ++ items)
      by (now rewrite <- app_assoc).
    apply IH. now apply chartStep_charted.
Qed.

Lemma chartDataMap_charted metrics filtered :
  charted metrics (chartDataMap metrics filtered) filtered.
Proof. apply (chartFrom_charted metrics filtered [] []), charted_nil. Qed.

Lemma insertEntry_perm x l : insertEntry x l ≡ₚ x :: l.
Proof.
  induction l as [|y l IH]; cbn [insertEntry]; [reflexivity|].
  destruct (entry_date x <=? entry_date y); [reflexivity|]. rewrite IH. apply perm_swap.
Qed.

Lemma chartArray_perm metrics filtered :
  chartArray metrics filtered ≡ₚ map snd (chartDataMap metrics filtered).
Proof.
  unfold chartArray. induction (map snd (chartDataMap metrics filtered)) as [|x l IH];
    [reflexivity|].
  cbn [fold_right]. rewrite insertEntry_perm. now constructor.
Qed.

Lemma insertEntry_sorted x l :
  Sorted byEntryDate l -> Sorted byEntryDate (insertEntry x l).
Proof.
  induction 1 as [|y l Hl IH Hhd]; cbn [insertEntry]; [repeat constructor|].
  destruct (Z.leb_spec (entry_date x) (entry_date y)) as [Hle | Hgt].
  - constructor; [now constructor | now constructor].
  - constructor; [exact IH|].
    destruct l as [|z l]; cbn [insertEntry]; [constructor; unfold byEntryDate; lia|].
    destruct (entry_date x <=? entry_date z); constructor; unfold byEntryDate; try lia.
    now inversion Hhd.
Qed.

Lemma chartArray_sorted metrics filtered : Sorted byEntryDate (chartArray metrics filtered).
Proof.
  unfold chartArray. induction (map snd (chartDataMap metrics filtered)) as [|x l IH];
    [constructor|].
  now apply insertEntry_sorted.
Qed.

(** The entries of the chart are the bindings of the map. *)
Lemma chartArray_elem metrics filtered e :
  e ∈ chartArray metrics filtered
  <-> own (chartDataMap metrics filtered) (entry_quarter e) = Some e.
Proof.
  destruct (chartDataMap_charted metrics filtered) as (Hnd & Hown & _).
  rewrite chartArray_perm, list_elem_of_fmap. split.
  - intros ([l e'] & -> & Hin). cbn [snd]. apply (own_elem _ _ _ Hnd) in Hin.
    destruct (Hown _ _ Hin) as [-> _]. exact Hin.
  - intros He. exists (entry_quarter e, e). split; [reflexivity | now apply own_Some_elem].
Qed.

Lemma chartArray_labels metrics filtered :
  map entry_quarter (chartArray metrics filtered)
  ≡ₚ map fst (chartDataMap metrics filtered).
Proof.
  rewrite chartArray_perm, map_map.
  destruct (chartDataMap_charted metrics filtered) as (Hnd & Hown & _).
  erewrite map_ext_in; [reflexivity|].
  intros [l e] Hin. cbn [fst snd]. apply list_elem_of_In, (own_elem _ _ _ Hnd) in Hin.
  now destruct (Hown _ _ Hin) as [-> _].
Qed.

(** The value that the items leave under the key of a company. *)
Lemma own_writeSeries_CCP metrics items s c :
  own (fold_left (fun s r => writeSeries metrics r s) items s) (c +:+ "_CCP")
  = if String.eqb metrics "all" || String.eqb metrics "ccp"
    then match last (groupOf c items) with
         | Some r => Some (rec_ccp r)
         | None => own s (c +:+ "_CCP")
         end
    else own s (c +:+ "_CCP").
Proof.
  revert s. induction items as [|r items IH]; intros s; cbn [fold_left].
  - cbn. now destruct (String.eqb metrics "all" || String.eqb metrics "ccp").
  - rewrite IH. unfold groupOf at 2. cbn [List.filter]. fold (groupOf c items).
    assert (Hw : own (writeSeries metrics r s) (c +:+ "_CCP")
                 = if String.eqb metrics "all" || String.eqb metrics "ccp"
                   then (if String.eqb (company r) c then Some (rec_ccp r)
                         else own s (c +:+ "_CCP"))
                   else own s (c +:+ "_CCP")).
    { unfold writeSeries.
      assert (Hl : forall o, own (if String.eqb metrics "all" || String.eqb metrics "ltd"
                                  then setProperty o (company r +:+ "_LTD") (rec_ltd r)
                                  else o) (c +:+ "_CCP") = own o (c +:+ "_CCP")).
      { intros o. destruct (String.eqb metrics "all" || String.eqb metrics "ltd");
          [|reflexivity].
        rewrite own_setProperty.
        destruct (String.eqb_spec (company r +:+ "_LTD") (c +:+ "_CCP")) as [E | _];
          [|reflexivity].
        symmetry in E. now apply CCP_not_LTD in E. }
      rewrite Hl. destruct (String.eqb metrics "all" || String.eqb metrics "ccp");
        [|reflexivity].
      rewrite own_setProperty.
      destruct (String.eqb_spec (company r +:+ "_CCP") (c +:+ "_CCP")) as [E | Hne].
      - apply append_inj_l in E. rewrite E, String.eqb_refl. reflexivity.
      - destruct (String.eqb_spec (company r) c) as [E | _]; [|reflexivity].
        subst c. contradiction. }
    rewrite Hw. destruct (String.eqb metrics "all" || String.eqb metrics "ccp");
      [|reflexivity].
    destruct (String.eqb (company r) c).
    + destruct (groupOf c items) as [|r' rs] eqn:Eg; [reflexivity|].
      rewrite last_cons_cons. destruct (last (r' :: rs)) eqn:El; [reflexivity|].
      now apply last_None in El.
    + reflexivity.
Qed.

Lemma own_writeSeries_LTD metrics items s c :
  own (fold_left (fun s r => writeSeries metrics r s) items s) (c +:+ "_LTD")
  = if String.eqb metrics "all" || String.eqb metrics "ltd"
    then match last (groupOf c items) with
         | Some r => Some (rec_ltd r)
         | None => own s (c +:+ "_LTD")
         end
    else own s (c +:+ "_LTD").
Proof.
  revert s. induction items as [|r items IH]; intros s; cbn [fold_left].
  - cbn. now destruct (String.eqb metrics "all" || String.eqb metrics "ltd").
  - rewrite IH. unfold groupOf at 2. cbn [List.filter]. fold (groupOf c items).
    assert (Hw : own (writeSeries metrics r s) (c +:+ "_LTD")
                 = if String.eqb metrics "all" || String.eqb metrics "ltd"
                   then (if String.eqb (company r) c then Some (rec_ltd r)
                         else own s (c +:+ "_LTD"))
                   else own s (c +:+ "_LTD")).
    { unfold writeSeries.
      assert (Hc : forall o, own (if String.eqb metrics "all" || String.eqb metrics "ccp"
                                  then setProperty o (company r +:+ "_CCP") (rec_ccp r)
                                  else o) (c +:+ "_LTD") = own o (c +:+ "_LTD")).
      { intros o. destruct (String.eqb metrics "all" || String.eqb metrics "ccp");
          [|reflexivity].
        rewrite own_setProperty.
        destruct (String.eqb_spec (company r +:+ "_CCP") (c +:+ "_LTD")) as [E | _];
          [|reflexivity].
        now apply CCP_not_LTD in E. }
      destruct (String.eqb metrics "all" || String.eqb metrics "ltd"); [|apply Hc].
      rewrite own_setProperty.
      destruct (String.eqb_spec (company r +:+ "_LTD") (c +:+ "_LTD")) as [E | Hne].
      - apply append_inj_l in E. rewrite E, String.eqb_refl. reflexivity.
      - destruct (String.eqb_spec (company r) c) as [E | _]; [subst c; contradiction|].
        apply Hc. }
    rewrite Hw. destruct (String.eqb metrics "all" || String.eqb metrics "ltd");
      [|reflexivity].
    destruct (String.eqb (company r) c).
    + destruct (groupOf c items) as [|r' rs] eqn:Eg; [reflexivity|].
      rewrite last_cons_cons. destruct (last (r' :: rs)) eqn:El; [reflexivity|].
      now apply last_None in El.
    + reflexivity.
Qed.

(** * Beyond the claims *)

(** ** The quarter options *)

(** X1.  [generateSecureQuarterOptions] returns exactly when the two years
    validate to integers [lo <= hi] from 1900 to 2030 that are at most 50
    apart, and what it returns is then the list of the four quarters of
    each year from [lo] to [hi], in this order; in every other case it
    throws. *)
Theorem quarter_options_closed_form (minYear maxYear : JsVal) (opts : list QuarterOption) :
  generateSecureQuarterOptions minYear maxYear = Ok opts <->
  exists lo hi,
    validateInteger minYear (ofZ 1900) (ofZ 2030) = Ok (Some (ofZ lo))
    /\ validateInteger maxYear (ofZ 1900) (ofZ 2030) = Ok (Some (ofZ hi))
    /\ 1900 <= lo <= hi /\ hi <= 2030 /\ hi <= lo + 50
    /\ opts = quartersOfYears lo hi.
Proof.
  split; [apply generateSecureQuarterOptions_inv|].
  intros (lo & hi & Elo & Ehi & Hlo & Hhi & Hspan & ->).
  destruct (generateSecureQuarterOptions_validated _ _ _ _ Elo Ehi) as (_ & _ & ->).
  destruct (Z.ltb_spec hi lo); [lia|]. destruct (Z.ltb_spec 50 (hi - lo)); [lia|].
  reflexivity.
Qed.

(** The years 2019 to 2021, the second one given as text: twelve options. *)
Lemma quarter_options_closed_form_witness :
  generateSecureQuarterOptions (JNum (ofZ 2019)) (JStr "2021") = Ok (quartersOfYears 2019 2021)
  /\ length (quartersOfYears 2019 2021) = 12%nat.
Proof.
  split; [|reflexivity].
  apply (proj2 (quarter_options_closed_form (JNum (ofZ 2019)) (JStr "2021")
                  (quartersOfYears 2019 2021))).
  exists 2019, 2021. repeat split; try lia; vm_compute; reflexivity.
Defined.

(** X2.  The list that [generateSecureQuarterOptions] returns has four
    entries for each year from [lo] to [hi], so between 4 and 204, and its
    entry at index [i] is quarter [i mod 4 + 1] of year [lo + i / 4]: the
    index of the slider determines year and quarter. *)
Theorem quarter_options_by_index (minYear maxYear : JsVal) (opts : list QuarterOption) :
  generateSecureQuarterOptions minYear maxYear = Ok opts ->
  exists lo hi,
    1900 <= lo <= hi /\ hi <= 2030 /\ hi <= lo + 50
    /\ Z.of_nat (length opts) = 4 * (hi - lo + 1)
    /\ 4 <= Z.of_nat (length opts) <= 204
    /\ forall i, 0 <= i < 4 * (hi - lo + 1) ->
         opts !! Z.to_nat i
         = Some (quarterOption (ofZ (lo + i / 4)) (ofZ (i mod 4 + 1))).
Proof.
  intros Hopts.
  apply generateSecureQuarterOptions_inv in Hopts
    as (lo & hi & _ & _ & Hlo & Hhi & Hspan & ->).
  exists lo, hi. pose proof (quartersOfYears_length lo hi ltac:(lia)) as Hlen.
  repeat split; try lia. intros i Hi. now apply quartersOfYears_lookup.
Qed.

Lemma quarter_options_by_index_witness :
  exists lo hi,
    1900 <= lo <= hi /\ hi <= 2030 /\ hi <= lo + 50
    /\ Z.of_nat (length (quartersOfYears 2019 2021)) = 4 * (hi - lo + 1)
    /\ 4 <= Z.of_nat (length (quartersOfYears 2019 2021)) <= 204
    /\ forall i, 0 <= i < 4 * (hi - lo + 1) ->
         quartersOfYears 2019 2021 !! Z.to_nat i
         = Some (quarterOption (ofZ (lo + i / 4)) (ofZ (i mod 4 + 1))).
Proof.
  apply (quarter_options_by_index (JNum (ofZ 2019)) (JNum (ofZ 2021))).
  vm_compute. reflexivity.
Defined.

(** X3.  The options feed the filter.  With the options that
    [generateSecureQuarterOptions] returned, the option at an index as the
    start and the option at the same or a later index as the end, and a
    selection of at most 50 entries, [secureFilterData] returns: the years
    and quarters of the options pass its validation unchanged, the start
    year is not after the end year, and every record returned lies within
    the two quarters. *)
Theorem quarter_options_feed_filter (g : JsObject (list CombinedRecord)) (elems : list JsVal)
    (minYear maxYear : JsVal) (opts : list QuarterOption) (i j : nat)
    (startQuarter endQuarter : QuarterOption) :
  generateSecureQuarterOptions minYear maxYear = Ok opts ->
  opts !! i = Some startQuarter -> opts !! j = Some endQuarter -> (i <= j)%nat ->
  Z.of_nat (length elems) <= 50 ->
  exists sy ey sq eq out,
    opt_year startQuarter = ofZ sy /\ opt_quarter startQuarter = ofZ sq
    /\ opt_year endQuarter = ofZ ey /\ opt_quarter endQuarter = ofZ eq
    /\ secureFilterData g (Arr elems) (JNum (opt_year startQuarter)) (JNum (opt_year endQuarter))
         (JNum (opt_quarter startQuarter)) (JNum (opt_quarter endQuarter)) = Ok out
    /\ out = limitAndSort (matching g (sanitizeCompanies elems)
                             (ofZ sy) (ofZ ey) (ofZ sq) (ofZ eq))
    /\ forall r, r ∈ out -> inRange sy ey sq eq r.
Proof.
  intros Hopts Hi Hj Hij Hlen.
  apply generateSecureQuarterOptions_inv in Hopts
    as (lo & hi & _ & _ & Hlo & Hhi & Hspan & ->).
  apply quartersOfYears_at in Hi as (sy & sq & -> & Esy & Esq & Hsy & Hsq); [|lia].
  apply quartersOfYears_at in Hj as (ey & eq & -> & Eey & Eeq & Hey & Heq); [|lia].
  assert (Hse : sy <= ey) by (subst sy ey; Z.to_euclidean_division_equations; lia).
  exists sy, ey, sq, eq. eexists. cbn [quarterOption opt_year opt_quarter].
  do 4 (split; [reflexivity|]). split; [|split; [reflexivity|]].
  - apply secureFilterData_valid; [|exact Hlen]. apply validFilter_numbers; lia.
  - intros r Hr. apply limitAndSort_elem, matching_elem in Hr as [Hkeep _].
    now apply keepItem_inRange.
Qed.

(** The quarters from Q4 2019 (index 3) to Q1 2020 (index 4) of the options
    of 2019 to 2021. *)
Lemma quarter_options_feed_filter_witness :
  exists sy ey sq eq out,
    ofZ 2019 = ofZ sy /\ ofZ 4 = ofZ sq /\ ofZ 2020 = ofZ ey /\ ofZ 1 = ofZ eq
    /\ secureFilterData quarters (Arr [JStr "Apple Inc."])
         (JNum (ofZ 2019)) (JNum (ofZ 2020)) (JNum (ofZ 4)) (JNum (ofZ 1)) = Ok out
    /\ out = limitAndSort (matching quarters (sanitizeCompanies [JStr "Apple Inc."])
                             (ofZ sy) (ofZ ey) (ofZ sq) (ofZ eq))
    /\ forall r, r ∈ out -> inRange sy ey sq eq r.
Proof.
  apply (quarter_options_feed_filter quarters [JStr "Apple Inc."]
           (JNum (ofZ 2019)) (JNum (ofZ 2021)) (quartersOfYears 2019 2021) 3 4
           (quarterOption (ofZ 2019) (ofZ 4)) (quarterOption (ofZ 2020) (ofZ 1))).
  - vm_compute. reflexivity.
  - vm_compute. reflexivity.
  - vm_compute. reflexivity.
  - lia.
  - vm_compute. discriminate.
Defined.

(** ** The dataset *)

Lemma processLoaded_dateRange `{Runtime} stocksData formsData tasksData ds :
  processLoaded stocksData formsData tasksData = Ok ds ->
  (forall r, r ∈ combinedData ds -> dateRange_min ds <= year r <= dateRange_max ds)
  /\ (exists r, r ∈ combinedData ds /\ year r = dateRange_min ds)
  /\ (exists r, r ∈ combinedData ds /\ year r = dateRange_max ds).
Proof.
  intros Hds. apply processLoaded_dataset in Hds
    as (_ & _ & _ & _ & _ & _ & _ & _ & _ & _ & Hne & _ & _ & (Emin & Emax & _) & _).
  set (years := sortNumbers (distinctFrom [] (map year (combinedData ds)))) in *.
  assert (Hyears : years <> []).
  { destruct (combinedData ds) as [|r0 cd] eqn:Ecd; [congruence|].
    assert (Hin : year r0 ∈ years).
    { apply years_elem. exists r0. split; [now left | reflexivity]. }
    intros E. rewrite E in Hin. now apply elem_of_nil in Hin. }
  pose proof (hd_elem 0 years Hyears) as Hhd.
  rewrite Emin, Emax. split; [|split].
  - intros r Hr. assert (Hin : year r ∈ years) by (apply years_elem; eauto).
    split; [now apply fold_min_le | now apply fold_max_ge].
  - apply years_elem. destruct (fold_min_elem (hd 0 years) years) as [-> | Hin]; assumption.
  - apply years_elem. destruct (fold_max_elem (hd 0 years) years) as [-> | Hin]; assumption.
Qed.

Lemma quarterOption_label y q :
  1900 <= y <= 2030 -> 1 <= q <= 4 ->
  opt_label (quarterOption (ofZ y) (ofZ q)) = "Q" +:+ Z_toString q +:+ " " +:+ Z_toString y.
Proof.
  intros Hy Hq. cbn [quarterOption opt_label].
  now rewrite (Number_toString_year y), (Number_toString_quarter q) by lia.
Qed.

(** X4.  The options cover the dataset.  For a dataset whose years lie from
    1900 to 2030, the call [generateSecureQuarterOptions(dateRange.min,
    dateRange.max)] of the dashboard throws the error of a range that is too
    large when the years of the records span more than 50, and returns the
    quarters of all years from the first to the last otherwise; every
    record then has its option, with its year, its quarter and its quarter
    label. *)
Theorem quarter_options_cover_dataset `{Runtime} (stocksData formsData tasksData : list Row)
    (ds : Dataset) :
  processLoaded stocksData formsData tasksData = Ok ds ->
  1900 <= dateRange_min ds -> dateRange_max ds <= 2030 ->
  generateSecureQuarterOptions (JNum (ofZ (dateRange_min ds))) (JNum (ofZ (dateRange_max ds)))
  = (if 50 <? dateRange_max ds - dateRange_min ds
     then Throw (Error "Year range too large")
     else Ok (quartersOfYears (dateRange_min ds) (dateRange_max ds)))
  /\ forall r, r ∈ combinedData ds ->
       exists o, o ∈ quartersOfYears (dateRange_min ds) (dateRange_max ds)
         /\ opt_year o = ofZ (year r) /\ opt_quarter o = ofZ (quarter r)
         /\ opt_label o = quarterLabel r.
Proof.
  intros Hds Hmin Hmax.
  destruct (processLoaded_dateRange _ _ _ _ Hds) as (Hall & (r0 & Hr0 & E0) & _).
  pose proof (Hall r0 Hr0) as Hr0y.
  split.
  - destruct (generateSecureQuarterOptions_validated
                (JNum (ofZ (dateRange_min ds))) (JNum (ofZ (dateRange_max ds)))
                (dateRange_min ds) (dateRange_max ds)) as (_ & _ & ->).
    + apply validateInteger_year. lia.
    + apply validateInteger_year. lia.
    + destruct (Z.ltb_spec (dateRange_max ds) (dateRange_min ds)); [lia | reflexivity].
  - intros r Hr. pose proof (Hall r Hr) as Hy.
    destruct (processLoaded_record _ _ _ _ _ Hds Hr)
      as (? & ? & ? & stock & form & task & time & _ & _ & _ & _ & _ & _ & _ & _ & _ & _ & _ & Er).
    assert (Hq : 1 <= quarter r <= 4) by (rewrite Er; apply quarter_range).
    exists (quarterOption (ofZ (year r)) (ofZ (quarter r))).
    split; [now apply quartersOfYears_elem|]. split; [reflexivity|]. split; [reflexivity|].
    rewrite quarterOption_label by lia. now rewrite Er.
Qed.

Lemma quarter_options_cover_dataset_witness :
  exists ds,
    @processLoaded Reference.runtime sampleStocks sampleForms sampleTasks = Ok ds
    /\ generateSecureQuarterOptions (JNum (ofZ (dateRange_min ds)))
         (JNum (ofZ (dateRange_max ds)))
       = (if 50 <? dateRange_max ds - dateRange_min ds
          then Throw (Error "Year range too large")
          else Ok (quartersOfYears (dateRange_min ds) (dateRange_max ds)))
    /\ forall r, r ∈ combinedData ds ->
         exists o, o ∈ quartersOfYears (dateRange_min ds) (dateRange_max ds)
           /\ opt_year o = ofZ (year r) /\ opt_quarter o = ofZ (quarter r)
           /\ opt_label o = quarterLabel r.
Proof.
  destruct (@processLoaded Reference.runtime sampleStocks sampleForms sampleTasks)
    as [ds|e] eqn:E.
  - exists ds. split; [reflexivity|].
    apply (@quarter_options_cover_dataset Reference.runtime _ _ _ ds E).
    + vm_compute in E. injection E as <-. vm_compute. discriminate.
    + vm_compute in E. injection E as <-. vm_compute. discriminate.
  - vm_compute in E. discriminate.
Defined.

(** X5.  Every record of a dataset joins a task row, a form row and a stock
    row of the three inputs, each accepted by its sanitizer: the form id of
    the task is the id of the form, the CIK of the form is the CIK of the
    stock, and the record takes its id and its amounts from the task, its
    date string, form name and URL from the form, its company, symbol and
    CIK from the stock. *)
Theorem dataset_record_origin `{Runtime} (stocksData formsData tasksData : list Row)
    (ds : Dataset) (r : CombinedRecord) :
  processLoaded stocksData formsData tasksData = Ok ds -> r ∈ combinedData ds ->
  exists stockRow formRow taskRow stock form task,
    stockRow ∈ stocksData /\ formRow ∈ formsData /\ taskRow ∈ tasksData
    /\ sanitizeStockData stockRow = Ok (Some stock)
    /\ sanitizeFormData formRow = Ok (Some form)
    /\ sanitizeTaskData taskRow = Ok (Some task)
    /\ formId task = form_id form /\ form_cik form = stock_cik stock
    /\ id r = formId task /\ rec_ccp r = ccp task /\ rec_ltd r = ltd task
    /\ dateString r = valueDate form /\ rec_formName r = formName form
    /\ rec_formURL r = formURL form
    /\ company r = companyName stock /\ rec_symbol r = symbol stock
    /\ cik r = stock_cik stock.
Proof.
  intros Hds Hr.
  destruct (processLoaded_record _ _ _ _ _ Hds Hr)
    as (stockRow & formRow & taskRow & stock & form & task & time
        & ? & ? & ? & ? & ? & ? & ? & ? & _ & _ & _ & ->).
  exists stockRow, formRow, taskRow, stock, form, task.
  cbn [id rec_ccp rec_ltd dateString rec_formName rec_formURL company rec_symbol cik].
  auto 20.
Qed.

Lemma dataset_record_origin_witness :
  exists ds,
    @processLoaded Reference.runtime sampleStocks sampleForms sampleTasks = Ok ds
    /\ map id (combinedData ds) = ["3"; "2"; "1"]
    /\ forall r, r ∈ combinedData ds ->
         exists stockRow formRow taskRow stock form task,
           stockRow ∈ sampleStocks /\ formRow ∈ sampleForms /\ taskRow ∈ sampleTasks
           /\ @sanitizeStockData stockRow = Ok (Some stock)
           /\ @sanitizeFormData Reference.runtime formRow = Ok (Some form)
           /\ sanitizeTaskData taskRow = Ok (Some task)
           /\ formId task = form_id form /\ form_cik form = stock_cik stock
           /\ id r = formId task /\ rec_ccp r = ccp task /\ rec_ltd r = ltd task
           /\ dateString r = valueDate form /\ rec_formName r = formName form
           /\ rec_formURL r = formURL form
           /\ company r = companyName stock /\ rec_symbol r = symbol stock
           /\ cik r = stock_cik stock.
Proof.
  destruct (@processLoaded Reference.runtime sampleStocks sampleForms sampleTasks)
    as [ds|e] eqn:E.
  - exists ds. split; [reflexivity|]. split.
    + vm_compute in E. injection E as <-. reflexivity.
    + intros r. apply (@dataset_record_origin Reference.runtime _ _ _ ds r E).
  - vm_compute in E. discriminate.
Defined.

(** X6.  The two amounts of every record of a dataset are finite numbers
    from 0 to [10^12]: the sanitizer of the task lets through finite
    amounts from 0 on, and the join drops what is above [10^12]. *)
Theorem dataset_amounts `{Runtime} (stocksData formsData tasksData : list Row)
    (ds : Dataset) (r : CombinedRecord) :
  processLoaded stocksData formsData tasksData = Ok ds -> r ∈ combinedData ds ->
  isFinite (rec_ccp r) = true
  /\ Num_le (ofZ 0) (rec_ccp r) = true /\ Num_le (rec_ccp r) (ofZ (10 ^ 12)) = true
  /\ isFinite (rec_ltd r) = true
  /\ Num_le (ofZ 0) (rec_ltd r) = true /\ Num_le (rec_ltd r) (ofZ (10 ^ 12)) = true.
Proof.
  intros Hds Hr.
  destruct (processLoaded_record _ _ _ _ _ Hds Hr)
    as (stockRow & formRow & taskRow & stock & form & task & time
        & _ & _ & _ & _ & _ & Htask & _ & _ & _ & Hc & Hl & ->).
  cbn [rec_ccp rec_ltd].
  apply sanitizeTaskData_Some in Htask as (_ & Eccp & Eltd).
  apply validateNumber_bounds in Eccp as (Fc & Lc & _); [|discriminate..].
  apply validateNumber_bounds in Eltd as (Fl & Ll & _); [|discriminate..].
  repeat split; auto; apply Num_gt_false_le; auto; discriminate.
Qed.

Lemma dataset_amounts_witness :
  exists ds,
    @processLoaded Reference.runtime sampleStocks sampleForms sampleTasks = Ok ds
    /\ map rec_ccp (combinedData ds) = [ofZ 40174; ofZ 13576; ofZ 73100]
    /\ forall r, r ∈ combinedData ds ->
         isFinite (rec_ccp r) = true
         /\ Num_le (ofZ 0) (rec_ccp r) = true /\ Num_le (rec_ccp r) (ofZ (10 ^ 12)) = true
         /\ isFinite (rec_ltd r) = true
         /\ Num_le (ofZ 0) (rec_ltd r) = true /\ Num_le (rec_ltd r) (ofZ (10 ^ 12)) = true.
Proof.
  destruct (@processLoaded Reference.runtime sampleStocks sampleForms sampleTasks)
    as [ds|e] eqn:E.
  - exists ds. split; [reflexivity|]. split.
    + vm_compute in E. injection E as <-. reflexivity.
    + intros r. apply (@dataset_amounts Reference.runtime _ _ _ ds r E).
  - vm_compute in E. discriminate.
Defined.

(** X7.  The texts of every record of a dataset are sanitized: company,
    symbol and form name are not empty, hold none of the five characters
    that [validateString] removes and have at most 200, 10 and 100 code
    units; the id and the CIK are the decimal forms of integers from 1 to
    10000 and from 1 to 9999999999; the form URL is the address of a URL
    that the platform parsed, with the protocol [https:] and a host name
    that ends with [sec.gov]. *)
Theorem dataset_display_fields `{Runtime} (stocksData formsData tasksData : list Row)
    (ds : Dataset) (r : CombinedRecord) :
  processLoaded stocksData formsData tasksData = Ok ds -> r ∈ combinedData ds ->
  (clean (company r) /\ company r <> "" /\ (String.length (company r) <= 200)%nat)
  /\ (clean (rec_symbol r) /\ rec_symbol r <> "" /\ (String.length (rec_symbol r) <= 10)%nat)
  /\ (clean (rec_formName r) /\ rec_formName r <> ""
      /\ (String.length (rec_formName r) <= 100)%nat)
  /\ (exists z, 1 <= z <= 10000 /\ id r = Number_toString (ofZ z))
  /\ (exists z, 1 <= z <= 9999999999 /\ cik r = Number_toString (ofZ z))
  /\ (exists s url, URL_new s = Ok url /\ protocol url = "https:"
        /\ endsWith (hostname url) "sec.gov" = true /\ rec_formURL r = href url).
Proof.
  intros Hds Hr.
  destruct (processLoaded_record _ _ _ _ _ Hds Hr)
    as (stockRow & formRow & taskRow & stock & form & task & time
        & _ & _ & _ & Hstock & Hform & Htask & _ & _ & _ & _ & _ & ->).
  cbn [company rec_symbol rec_formName id cik rec_formURL].
  apply sanitizeStockData_Some in Hstock as (Esym & Ename & Hsym & Hname & Hcik).
  apply sanitizeFormData_Some in Hform as (Efn & Hfn & Eurl & _).
  apply sanitizeTaskData_Some in Htask as (Hid & _).
  apply validateURL_Some in Eurl as (s & url & _ & _ & Hurl & Hp & Hh & Ehref).
  unfold clean, MAX_ROWS in *.
  split; [eauto using validateString_clean, validateString_length|].
  split; [eauto using validateString_clean, validateString_length|].
  split; [eauto using validateString_clean, validateString_length|].
  split; [exact Hid|]. split; [exact Hcik|]. exists s, url. auto.
Qed.

Lemma dataset_display_fields_witness :
  exists ds,
    @processLoaded Reference.runtime sampleStocks sampleForms sampleTasks = Ok ds
    /\ map company (combinedData ds) = ["Apple Inc."; "Microsoft Corp"; "Apple Inc."]
    /\ forall r, r ∈ combinedData ds ->
         (clean (company r) /\ company r <> "" /\ (String.length (company r) <= 200)%nat)
         /\ (clean (rec_symbol r) /\ rec_symbol r <> ""
             /\ (String.length (rec_symbol r) <= 10)%nat)
         /\ (clean (rec_formName r) /\ rec_formName r <> ""
             /\ (String.length (rec_formName r) <= 100)%nat)
         /\ (exists z, 1 <= z <= 10000 /\ id r = Number_toString (ofZ z))
         /\ (exists z, 1 <= z <= 9999999999 /\ cik r = Number_toString (ofZ z))
         /\ (exists s url, Reference.parseURL s = Ok url /\ protocol url = "https:"
               /\ endsWith (hostname url) "sec.gov" = true /\ rec_formURL r = href url).
Proof.
  destruct (@processLoaded Reference.runtime sampleStocks sampleForms sampleTasks)
    as [ds|e] eqn:E.
  - exists ds. split; [reflexivity|]. split.
    + vm_compute in E. injection E as <-. reflexivity.
    + intros r. apply (@dataset_display_fields Reference.runtime _ _ _ ds r E).
  - vm_compute in E. discriminate.
Defined.

(** X8.  The calendar fields of every record of a dataset agree: the date
    is what the platform reads from the date string, which is the ISO day
    of a date that [validateDate] accepted; year and quarter are the local
    year of that date and the quarter of its local month; the quarter is
    from 1 to 4; and the quarter label is the letter Q, the quarter, a
    space and the year. *)
Theorem dataset_calendar_fields `{Runtime} (stocksData formsData tasksData : list Row)
    (ds : Dataset) (r : CombinedRecord) :
  processLoaded stocksData formsData tasksData = Ok ds -> r ∈ combinedData ds ->
  Date_parse (dateString r) = Some (date r)
  /\ (exists t, dateString r = isoDay t /\ 1900 <= getFullYear t <= 2030)
  /\ year r = getFullYear (date r)
  /\ quarter r = quarterOfMonth (getMonth (date r))
  /\ 1 <= quarter r <= 4
  /\ quarterLabel r = "Q" +:+ Z_toString (quarter r) +:+ " " +:+ Z_toString (year r).
Proof.
  intros Hds Hr.
  destruct (processLoaded_record _ _ _ _ _ Hds Hr)
    as (stockRow & formRow & taskRow & stock & form & task & time
        & _ & _ & _ & _ & Hform & _ & _ & _ & Htime & _ & _ & ->).
  cbn [dateString date year quarter quarterLabel].
  apply sanitizeFormData_Some in Hform as (_ & _ & _ & _ & _ & (t & Et & Eiso) & _).
  apply validateDate_Some in Et as (s & _ & _ & _ & Hyear).
  split; [exact Htime|]. split; [now exists t|].
  split; [reflexivity|]. split; [reflexivity|]. split; [apply quarter_range | reflexivity].
Qed.

Lemma dataset_calendar_fields_witness :
  exists ds,
    @processLoaded Reference.runtime sampleStocks sampleForms sampleTasks = Ok ds
    /\ map quarterLabel (combinedData ds) = ["Q1 2020"; "Q3 2020"; "Q4 2023"]
    /\ forall r, r ∈ combinedData ds ->
         Reference.parseDay (dateString r) = Some (date r)
         /\ (exists t, dateString r = isoDay t
               /\ 1900 <= @getFullYear Reference.runtime t <= 2030)
         /\ year r = @getFullYear Reference.runtime (date r)
         /\ quarter r = quarterOfMonth (@getMonth Reference.runtime (date r))
         /\ 1 <= quarter r <= 4
         /\ quarterLabel r = "Q" +:+ Z_toString (quarter r) +:+ " " +:+ Z_toString (year r).
Proof.
  destruct (@processLoaded Reference.runtime sampleStocks sampleForms sampleTasks)
    as [ds|e] eqn:E.
  - exists ds. split; [reflexivity|]. split.
    + vm_compute in E. injection E as <-. reflexivity.
    + intros r. apply (@dataset_calendar_fields Reference.runtime _ _ _ ds r E).
  - vm_compute in E. discriminate.
Defined.

(** X9.  In every dataset the records are in non-decreasing order of their
    dates, in [combinedData] and in each group of [groupedData]. *)
Theorem dataset_sorted `{Runtime} (stocksData formsData tasksData : list Row) (ds : Dataset) :
  processLoaded stocksData formsData tasksData = Ok ds ->
  Sorted byDate (combinedData ds)
  /\ forall k items, (k, items) ∈ groupedData ds -> Sorted byDate items.
Proof.
  intros Hds. apply processLoaded_dataset in Hds
    as (stocks & forms & tasks & _ & _ & _ & _ & _ & _ & Hcd & _ & Hg & _).
  assert (Hs : Sorted byDate (combinedData ds)) by (rewrite Hcd; apply sortByDate_sorted).
  split; [exact Hs|]. intros k items Hin.
  apply groupByCompany_partitions in Hg as (_ & Hgroups & _).
  rewrite (Hgroups _ _ Hin). now apply byDate_filter.
Qed.

Lemma dataset_sorted_witness :
  exists ds,
    @processLoaded Reference.runtime sampleStocks sampleForms sampleTasks = Ok ds
    /\ map dateString (combinedData ds) = ["2020-03-28"; "2020-09-30"; "2023-12-30"]
    /\ Sorted byDate (combinedData ds)
    /\ forall k items, (k, items) ∈ groupedData ds -> Sorted byDate items.
Proof.
  destruct (@processLoaded Reference.runtime sampleStocks sampleForms sampleTasks)
    as [ds|e] eqn:E.
  - exists ds. split; [reflexivity|]. split.
    + vm_compute in E. injection E as <-. reflexivity.
    + apply (@dataset_sorted Reference.runtime _ _ _ ds E).
  - vm_compute in E. discriminate.
Defined.

(** X10.  The [companies] of a dataset are the company names of its
    records and the keys of [groupedData], each once, in ascending order of
    their code units.  A name shorter than 200 code units is stable: the
    sanitizer of the selection keeps it as it is. *)
Theorem dataset_companies `{Runtime} (stocksData formsData tasksData : list Row)
    (ds : Dataset) :
  processLoaded stocksData formsData tasksData = Ok ds ->
  Sorted byName (companies ds) /\ NoDup (companies ds)
  /\ (forall k, k ∈ companies ds <-> exists r, r ∈ combinedData ds /\ company r = k)
  /\ (forall k, k ∈ companies ds <-> k ∈ map fst (groupedData ds))
  /\ (forall k, k ∈ companies ds -> (String.length k < 200)%nat -> stable k).
Proof.
  intros Hds. pose proof (processLoaded_dataset _ _ _ _ Hds)
    as (stocks & forms & tasks & _ & _ & _ & _ & _ & _ & _ & _ & Hg & Hc & _).
  apply groupByCompany_grouped in Hg. pose proof Hg as (Hnd & _).
  assert (Hkeys : forall k, k ∈ companies ds <-> k ∈ map fst (groupedData ds)).
  { intros k. now rewrite Hc, sortStrings_perm, Object_keys_perm. }
  assert (Hrec : forall k, k ∈ companies ds <-> exists r, r ∈ combinedData ds /\ company r = k).
  { intros k. rewrite Hkeys. now apply grouped_keys. }
  split; [rewrite Hc; apply sortStrings_sorted|].
  split; [now rewrite Hc, sortStrings_perm, Object_keys_perm|].
  split; [exact Hrec|]. split; [exact Hkeys|].
  intros k Hk Hlen. apply Hrec in Hk as (r & Hr & <-).
  destruct (processLoaded_record _ _ _ _ _ Hds Hr)
    as (stockRow & formRow & taskRow & stock & form & task & time
        & _ & _ & _ & Hstock & _ & _ & _ & _ & _ & _ & _ & ->).
  cbn [company] in *.
  apply sanitizeStockData_Some in Hstock as (_ & Ename & _ & Hname & _).
  split; [|exact Hname]. now apply (validateString_again _ _ _ Ename).
Qed.

Lemma dataset_companies_witness :
  exists ds,
    @processLoaded Reference.runtime sampleStocks sampleForms sampleTasks = Ok ds
    /\ companies ds = ["Apple Inc."; "Microsoft Corp"]
    /\ Sorted byName (companies ds) /\ NoDup (companies ds)
    /\ (forall k, k ∈ companies ds <-> exists r, r ∈ combinedData ds /\ company r = k)
    /\ (forall k, k ∈ companies ds <-> k ∈ map fst (groupedData ds))
    /\ (forall k, k ∈ companies ds -> (String.length k < 200)%nat -> stable k).
Proof.
  destruct (@processLoaded Reference.runtime sampleStocks sampleForms sampleTasks)
    as [ds|e] eqn:E.
  - exists ds. split; [reflexivity|]. split.
    + vm_compute in E. injection E as <-. reflexivity.
    + apply (@dataset_companies Reference.runtime _ _ _ ds E).
  - vm_compute in E. discriminate.
Defined.

(** X11.  The [dateRange] of a dataset is the range of the years of its
    records: every record has its year from [min] to [max], some record has
    the year [min] and some record the year [max]. *)
Theorem dataset_dateRange `{Runtime} (stocksData formsData tasksData : list Row)
    (ds : Dataset) :
  processLoaded stocksData formsData tasksData = Ok ds ->
  (forall r, r ∈ combinedData ds -> dateRange_min ds <= year r <= dateRange_max ds)
  /\ (exists r, r ∈ combinedData ds /\ year r = dateRange_min ds)
  /\ (exists r, r ∈ combinedData ds /\ year r = dateRange_max ds)
  /\ dateRange_min ds <= dateRange_max ds.
Proof.
  intros Hds. destruct (processLoaded_dateRange _ _ _ _ Hds) as (Hall & Hmin & Hmax).
  repeat split; auto; try apply Hall; auto.
  destruct Hmin as (r & Hr & <-). now apply Hall.
Qed.

Lemma dataset_dateRange_witness :
  exists ds,
    @processLoaded Reference.runtime sampleStocks sampleForms sampleTasks = Ok ds
    /\ (dateRange_min ds = 2020 /\ dateRange_max ds = 2023)
    /\ (forall r, r ∈ combinedData ds -> dateRange_min ds <= year r <= dateRange_max ds)
    /\ (exists r, r ∈ combinedData ds /\ year r = dateRange_min ds)
    /\ (exists r, r ∈ combinedData ds /\ year r = dateRange_max ds)
    /\ dateRange_min ds <= dateRange_max ds.
Proof.
  destruct (@processLoaded Reference.runtime sampleStocks sampleForms sampleTasks)
    as [ds|e] eqn:E.
  - exists ds. split; [reflexivity|]. split.
    + vm_compute in E. injection E as <-. split; reflexivity.
    + apply (@dataset_dateRange Reference.runtime _ _ _ ds E).
  - vm_compute in E. discriminate.
Defined.

(** X12.  The counts in the [stats] of a dataset are consistent: there are
    from 1 to 5000 records, at most one for each accepted task and for each
    accepted form; from 1 company up to the number of records and of
    accepted stocks; from 1 year up to the number of records; and in each
    file at most as many accepted rows as rows, within the limits of 1000,
    5000 and 10000. *)
Theorem dataset_stats `{Runtime} (stocksData formsData tasksData : list Row) (ds : Dataset) :
  processLoaded stocksData formsData tasksData = Ok ds ->
  let s := stats ds in
  let q := dataQuality s in
  totalRecords s = length (combinedData ds)
  /\ companiesCount s = length (companies ds)
  /\ 1 <= Z.of_nat (totalRecords s) <= 5000
  /\ (totalRecords s <= tasksSanitized q)%nat /\ (totalRecords s <= formsSanitized q)%nat
  /\ (1 <= companiesCount s <= totalRecords s)%nat
  /\ (companiesCount s <= stocksSanitized q)%nat
  /\ (1 <= yearsSpan s <= totalRecords s)%nat
  /\ (stocksSanitized q <= originalStocks q)%nat /\ Z.of_nat (stocksSanitized q) <= 1000
  /\ (formsSanitized q <= originalForms q)%nat /\ Z.of_nat (formsSanitized q) <= 5000
  /\ (tasksSanitized q <= originalTasks q)%nat /\ Z.of_nat (tasksSanitized q) <= 10000
  /\ originalStocks q = length stocksData /\ originalForms q = length formsData
  /\ originalTasks q = length tasksData.
Proof.
  intros Hds s q. subst s q.
  pose proof (processLoaded_dataset _ _ _ _ Hds)
    as (stocks & forms & tasks & Hstocks & Hforms & Htasks & Ls & Lf & Lt & Hcd & Hne & Hg
        & Hc & (_ & _ & Hyears) & Htotal & Hcount & Hq).
  rewrite Htotal, Hcount, Hyears, Hq.
  cbn [stocksSanitized formsSanitized tasksSanitized originalStocks originalForms originalTasks].
  apply groupByCompany_grouped in Hg.
  pose proof (sanitizeAll_length _ _ _ Hstocks). pose proof (sanitizeAll_length _ _ _ Hforms).
  pose proof (sanitizeAll_length _ _ _ Htasks).
  pose proof (joinTasks_length (buildMap stock_cik stocks) (buildMap form_id forms) tasks) as Hjt.
  pose proof (joinTasks_bounded (buildMap stock_cik stocks) (buildMap form_id forms) tasks) as Hjf.
  pose proof (buildMap_size form_id forms) as Hbf.
  assert (Hlen : length (combinedData ds)
                 = length (joinTasks (buildMap stock_cik stocks) (buildMap form_id forms) tasks))
    by (rewrite Hcd; apply sortByDate_length).
  assert (Hpos : (1 <= length (combinedData ds))%nat)
    by (destruct (combinedData ds); [congruence | simpl; lia]).
  assert (Hnd : NoDup (companies ds)).
  { destruct Hg as (Hnd & _). now rewrite Hc, sortStrings_perm, Object_keys_perm. }
  assert (Hin : forall k, k ∈ companies ds <-> exists r, r ∈ combinedData ds /\ company r = k).
  { intros k. rewrite Hc, sortStrings_perm, Object_keys_perm. now apply grouped_keys. }
  assert (Hc1 : (length (companies ds) <= length (combinedData ds))%nat).
  { rewrite <- (length_map company). apply NoDup_length_le; [exact Hnd|].
    intros k Hk. apply Hin in Hk as (r & Hr & <-). apply list_elem_of_fmap. eauto. }
  assert (Hc2 : (length (companies ds) <= length stocks)%nat).
  { rewrite <- (length_map companyName stocks). apply NoDup_length_le; [exact Hnd|].
    intros k Hk. apply Hin in Hk as (r & Hr & <-).
    rewrite Hcd, sortByDate_perm in Hr.
    apply joined_record in Hr as (task & form & stock & time & _ & _ & Hs & _ & _ & _ & _ & _ & ->).
    apply list_elem_of_fmap. eauto. }
  assert (Hc0 : (1 <= length (companies ds))%nat).
  { destruct (combinedData ds) as [|r0 cd] eqn:Ecd; [congruence|].
    assert (Hk : company r0 ∈ companies ds).
    { apply Hin. exists r0. split; [now left | reflexivity]. }
    destruct (companies ds); [now apply elem_of_nil in Hk | simpl; lia]. }
  set (years := sortNumbers (distinctFrom [] (map year (combinedData ds)))).
  assert (Hy1 : (length years <= length (combinedData ds))%nat).
  { unfold years. rewrite sortNumbers_perm.
    pose proof (distinctFrom_length [] (map year (combinedData ds))) as Hd.
    now rewrite length_map in Hd. }
  assert (Hy0 : (1 <= length years)%nat).
  { destruct (combinedData ds) as [|r0 cd] eqn:Ecd; [congruence|].
    assert (Hk : year r0 ∈ years).
    { apply years_elem. exists r0. split; [now left | reflexivity]. }
    destruct years; [now apply elem_of_nil in Hk | simpl; lia]. }
  repeat split; try reflexivity; try lia.
Qed.

Lemma dataset_stats_witness :
  exists ds,
    @processLoaded Reference.runtime sampleStocks sampleForms sampleTasks = Ok ds
    /\ (totalRecords (stats ds) = 3 /\ companiesCount (stats ds) = 2
        /\ yearsSpan (stats ds) = 2)%nat
    /\ let s := stats ds in
       let q := dataQuality s in
       totalRecords s = length (combinedData ds)
       /\ companiesCount s = length (companies ds)
       /\ 1 <= Z.of_nat (totalRecords s) <= 5000
       /\ (totalRecords s <= tasksSanitized q)%nat /\ (totalRecords s <= formsSanitized q)%nat
       /\ (1 <= companiesCount s <= totalRecords s)%nat
       /\ (companiesCount s <= stocksSanitized q)%nat
       /\ (1 <= yearsSpan s <= totalRecords s)%nat
       /\ (stocksSanitized q <= originalStocks q)%nat /\ Z.of_nat (stocksSanitized q) <= 1000
       /\ (formsSanitized q <= originalForms q)%nat /\ Z.of_nat (formsSanitized q) <= 5000
       /\ (tasksSanitized q <= originalTasks q)%nat /\ Z.of_nat (tasksSanitized q) <= 10000
       /\ originalStocks q = length sampleStocks /\ originalForms q = length sampleForms
       /\ originalTasks q = length sampleTasks.
Proof.
  destruct (@processLoaded Reference.runtime sampleStocks sampleForms sampleTasks)
    as [ds|e] eqn:E.
  - exists ds. split; [reflexivity|]. split.
    + vm_compute in E. injection E as <-. repeat split.
    + apply (@dataset_stats Reference.runtime _ _ _ ds E).
  - vm_compute in E. discriminate.
Defined.

(** X13.  The errors of [processLoaded].  Whatever it throws is an [Error]
    whose message starts with the words of the [catch] clause and goes on
    with one of five messages: too many stock, form or task records, no
    valid data, or the message of the runtime for a company that is named
    like an inherited property.  The sanitizers never throw on the rows of
    a parsed file, and the check for a dataset without companies or years
    never fires: once a record is joined there is a company and a year. *)
Theorem processLoaded_errors `{Runtime} (stocksData formsData tasksData : list Row) (e : Exn) :
  processLoaded stocksData formsData tasksData = Throw e ->
  exists msg,
    e = Error ("Data processing failed: " +:+ msg)
    /\ msg ∈ [ "Too many stock records"; "Too many form records"; "Too many task records";
               "No valid data after processing and validation";
               "groupedData[item.company].push is not a function" ]
    /\ msg <> "No companies or years found in processed data".
Proof.
  unfold processLoaded.
  destruct (sanitizeAll_returns sanitizeStockData stocksData sanitizeStockData_returns)
    as [stocks ->].
  destruct (sanitizeAll_returns sanitizeFormData formsData sanitizeFormData_returns)
    as [forms ->].
  destruct (sanitizeAll_returns sanitizeTaskData tasksData sanitizeTaskData_returns)
    as [tasks ->].
  cbv [mbind Result_bind].
  assert (Hmsg : forall msg,
            msg ∈ [ "Too many stock records"; "Too many form records"; "Too many task records";
                    "No valid data after processing and validation";
                    "groupedData[item.company].push is not a function" ] ->
            rethrow (@Throw Dataset (Error msg)) = Throw e \/
            rethrow (@Throw Dataset (TypeError msg)) = Throw e ->
            exists msg',
              e = Error ("Data processing failed: " +:+ msg')
              /\ msg' ∈ [ "Too many stock records"; "Too many form records";
                          "Too many task records";
                          "No valid data after processing and validation";
                          "groupedData[item.company].push is not a function" ]
              /\ msg' <> "No companies or years found in processed data").
  { intros msg Hin [E | E]; cbn [rethrow message] in E; injection E as <-;
      exists msg; (split; [reflexivity|]); (split; [exact Hin|]);
      intros ->; repeat (apply elem_of_cons in Hin as [Hin | Hin]; [discriminate|]);
      now apply elem_of_nil in Hin. }
  destruct (1000 <? _).
  { intros E. apply (Hmsg "Too many stock records"); [|now left].
    repeat constructor. }
  destruct (5000 <? _).
  { intros E. apply (Hmsg "Too many form records"); [|now left].
    repeat constructor. }
  destruct (10000 <? _).
  { intros E. apply (Hmsg "Too many task records"); [|now left].
    repeat constructor. }
  set (joined := joinTasks (buildMap stock_cik stocks) (buildMap form_id forms) tasks).
  destruct (Z.eqb_spec (Z.of_nat (length joined)) 0) as [|Hne].
  { intros E. apply (Hmsg "No valid data after processing and validation"); [|now left].
    repeat constructor. }
  destruct (groupByCompany (sortByDate joined)) as [g|e1] eqn:Hg.
  2: { intros E. apply groupFrom_Throw in Hg. subst e1.
       apply (Hmsg "groupedData[item.company].push is not a function"); [|now right].
       repeat constructor. }
  apply groupByCompany_grouped in Hg.
  destruct (sortByDate joined) as [|r0 cd] eqn:Ecd.
  { apply (f_equal (@length _)) in Ecd. rewrite sortByDate_length in Ecd. simpl in Ecd. lia. }
  assert (Hk : company r0 ∈ sortStrings (Object_keys g)).
  { rewrite sortStrings_perm, Object_keys_perm. apply (grouped_keys _ _ _ Hg).
    exists r0. split; [now left | reflexivity]. }
  assert (Hy : year r0 ∈ sortNumbers (distinctFrom [] (map year (r0 :: cd)))).
  { apply years_elem. exists r0. split; [now left | reflexivity]. }
  destruct (sortStrings (Object_keys g)) as [|k ks]; [now apply elem_of_nil in Hk|].
  destruct (sortNumbers (distinctFrom [] (map year (r0 :: cd)))) as [|y ys];
    [now apply elem_of_nil in Hy|].
  discriminate.
Qed.

(** 1001 accepted stock rows, one more than the limit. *)
Lemma processLoaded_errors_witness :
  exists msg,
    Error "Data processing failed: Too many stock records"
    = Error ("Data processing failed: " +:+ msg)
    /\ msg ∈ [ "Too many stock records"; "Too many form records"; "Too many task records";
               "No valid data after processing and validation";
               "groupedData[item.company].push is not a function" ]
    /\ msg <> "No companies or years found in processed data".
Proof.
  apply (@processLoaded_errors Reference.runtime
           (repeat appleStock (Z.to_nat 1001)) sampleForms sampleTasks).
  vm_compute. reflexivity.
Defined.

Lemma inherited_dec (cd : list CombinedRecord) :
  (forall c, c ∈ cd -> inherited (company c) = false)
  \/ exists c, c ∈ cd /\ inherited (company c) = true.
Proof.
  induction cd as [|c cd [IH | (c' & Hc' & Hi)]].
  - left. intros c Hc. now apply elem_of_nil in Hc.
  - destruct (inherited (company c)) eqn:E.
    + right. exists c. split; [now left | exact E].
    + left. intros c' Hc'. apply elem_of_cons in Hc' as [-> | Hc']; auto.
  - right. exists c'. split; [now right | exact Hi].
Qed.

(** X14.  Grouping returns exactly when no record has a company that is
    named like a property which every object inherits ([constructor],
    [toString], ...); otherwise it throws the [TypeError] of the runtime,
    because the lookup of the group finds the inherited property. *)
Theorem groupByCompany_returns_iff (cd : list CombinedRecord) :
  (returns (groupByCompany cd) <-> forall c, c ∈ cd -> inherited (company c) = false)
  /\ (forall e, groupByCompany cd = Throw e ->
        e = TypeError "groupedData[item.company].push is not a function"
        /\ exists c, c ∈ cd /\ inherited (company c) = true).
Proof.
  assert (Hiff : returns (groupByCompany cd)
                 <-> forall c, c ∈ cd -> inherited (company c) = false).
  { split.
    - intros [g Hg]. apply (groupFrom_inherited cd [] g); [|exact Hg].
      intros k Hk. now contradiction Hk.
    - intros Hall. now apply groupFrom_returns. }
  split; [exact Hiff|]. intros e He. split; [now apply groupFrom_Throw in He|].
  destruct (inherited_dec cd) as [Hall | Hex]; [|exact Hex].
  apply Hiff in Hall as [g Hg]. congruence.
Qed.

Lemma groupByCompany_returns_iff_witness :
  returns (groupByCompany [record "Apple Inc." "1" 2020 1 (day 2020 1 1)])
  /\ ~ returns (groupByCompany [record "Apple Inc." "1" 2020 1 (day 2020 1 1);
                                record "constructor" "2" 2020 1 (day 2020 1 1)]).
Proof.
  split.
  - apply (proj2 (proj1 (groupByCompany_returns_iff _))). intros c Hc.
    apply list_elem_of_singleton in Hc as ->. reflexivity.
  - intros Hr. pose proof (proj1 (proj1 (groupByCompany_returns_iff _)) Hr) as Hall.
    specialize (Hall (record "constructor" "2" 2020 1 (day 2020 1 1))).
    discriminate Hall. right. left.
Defined.

(** ** The filter on a dataset *)

(** X15.  On the [groupedData] of a dataset, with valid scalar parameters
    and a selection of at most 50 entries, [secureFilterData] returns the
    records of [combinedData] that pass the test of the filter and whose
    company the selection takes: all of them, each as often as it is in
    [combinedData], in non-decreasing order of their dates.  The limit of
    5000 is never reached, a dataset having at most 5000 records. *)
Theorem dataset_filter_exact `{Runtime} (stocksData formsData tasksData : list Row)
    (ds : Dataset) (elems : list JsVal) (vsy vey vsq veq : JsVal) (sy ey sq eq : Number) :
  processLoaded stocksData formsData tasksData = Ok ds ->
  validFilter vsy vey vsq veq sy ey sq eq ->
  Z.of_nat (length elems) <= 50 ->
  exists out,
    secureFilterData (groupedData ds) (Arr elems) vsy vey vsq veq = Ok out
    /\ Sorted byDate out
    /\ out ≡ₚ List.filter (fun r => keepItem sy ey sq eq r
                                    && selected (sanitizeCompanies elems) (company r))
                          (combinedData ds)
    /\ Z.of_nat (length (matching (groupedData ds) (sanitizeCompanies elems) sy ey sq eq))
       <= 5000.
Proof.
  intros Hds Hv Hlen. pose proof (processLoaded_size _ _ _ _ Hds) as Hsize.
  apply processLoaded_Ok in Hds as (_ & _ & _ & _ & _ & _ & _ & _ & Hg).
  apply groupByCompany_grouped in Hg.
  pose proof (matching_perm _ _ (sanitizeCompanies elems) sy ey sq eq Hg) as Hperm.
  assert (Hcap : Z.of_nat (length (matching (groupedData ds) (sanitizeCompanies elems)
                                     sy ey sq eq)) <= 5000).
  { rewrite Hperm.
    pose proof (filter_length_le
                  (fun r => keepItem sy ey sq eq r
                            && selected (sanitizeCompanies elems) (company r))
                  (combinedData ds)). lia. }
  eexists. split; [exact (secureFilterData_valid _ _ _ _ _ _ _ _ _ _ Hv Hlen)|].
  split; [apply limitAndSort_sorted|]. split; [|exact Hcap].
  rewrite limitAndSort_all by exact Hcap. now rewrite sortByDate_perm.
Qed.

Lemma dataset_filter_exact_witness :
  exists ds,
    @processLoaded Reference.runtime sampleStocks sampleForms sampleTasks = Ok ds
    /\ exists out,
         secureFilterData (groupedData ds) (Arr [JStr "Apple Inc."])
           (JNum (ofZ 2020)) (JNum (ofZ 2023)) JUndefined JUndefined = Ok out
         /\ Sorted byDate out
         /\ out ≡ₚ List.filter (fun r => keepItem (ofZ 2020) (ofZ 2023) (ofZ 1) (ofZ 4) r
                                         && selected (sanitizeCompanies [JStr "Apple Inc."])
                                                     (company r))
                               (combinedData ds)
         /\ Z.of_nat (length (matching (groupedData ds) (sanitizeCompanies [JStr "Apple Inc."])
                                (ofZ 2020) (ofZ 2023) (ofZ 1) (ofZ 4))) <= 5000.
Proof.
  destruct (@processLoaded Reference.runtime sampleStocks sampleForms sampleTasks)
    as [ds|e] eqn:E.
  - exists ds. split; [reflexivity|].
    apply (@dataset_filter_exact Reference.runtime _ _ _ ds _ _ _ _ _ _ _ _ _ E).
    + repeat split; vm_compute; reflexivity.
    + vm_compute. discriminate.
  - vm_compute in E. discriminate.
Defined.

(** X16.  Selecting companies of a dataset by their names.  With valid
    scalar parameters and at most 50 names, each a company of the dataset
    and shorter than 200 code units, [secureFilterData] returns, in
    non-decreasing order of their dates, exactly the records of
    [combinedData] that lie within the two quarters and have one of these
    names as their company; with no name at all, the records of all
    companies within the two quarters. *)
Theorem dataset_select_companies `{Runtime} (stocksData formsData tasksData : list Row)
    (ds : Dataset) (names : list string) (vsy vey vsq veq : JsVal) (sy ey sq eq : Z) :
  processLoaded stocksData formsData tasksData = Ok ds ->
  validFilter vsy vey vsq veq (ofZ sy) (ofZ ey) (ofZ sq) (ofZ eq) ->
  Z.of_nat (length names) <= 50 ->
  (forall k, k ∈ names -> k ∈ companies ds /\ (String.length k < 200)%nat) ->
  exists out,
    secureFilterData (groupedData ds) (Arr (map JStr names)) vsy vey vsq veq = Ok out
    /\ Sorted byDate out
    /\ forall r, r ∈ out <->
         r ∈ combinedData ds /\ inRange sy ey sq eq r /\ (names = [] \/ company r ∈ names).
Proof.
  intros Hds Hv Hlen Hnames.
  assert (Hstable : forall k, k ∈ names -> stable k).
  { intros k Hk. destruct (Hnames k Hk) as [Hin Hshort].
    pose proof (processLoaded_dataset _ _ _ _ Hds)
      as (stocks & forms & tasks & _ & _ & _ & _ & _ & _ & _ & _ & Hg & Hc & _).
    apply groupByCompany_grouped in Hg.
    rewrite Hc, sortStrings_perm, Object_keys_perm in Hin.
    apply (grouped_keys _ _ _ Hg) in Hin as (r & Hr & <-).
    destruct (processLoaded_record _ _ _ _ _ Hds Hr)
      as (stockRow & formRow & taskRow & stock & form & task & time
          & _ & _ & _ & Hstock & _ & _ & _ & _ & _ & _ & _ & ->).
    cbn [company] in *.
    apply sanitizeStockData_Some in Hstock as (_ & Ename & _ & Hname & _).
    split; [|exact Hname]. now apply (validateString_again _ _ _ Ename). }
  pose proof (processLoaded_size _ _ _ _ Hds) as Hsize.
  apply processLoaded_Ok in Hds as (_ & _ & _ & _ & _ & _ & _ & _ & Hg).
  apply groupByCompany_grouped in Hg.
  assert (Hlen' : Z.of_nat (length (map JStr names)) <= 50) by now rewrite length_map.
  pose proof (matching_perm _ _ (sanitizeCompanies (map JStr names))
                (ofZ sy) (ofZ ey) (ofZ sq) (ofZ eq) Hg) as Hperm.
  eexists. split; [exact (secureFilterData_valid _ _ _ _ _ _ _ _ _ _ Hv Hlen')|].
  split; [apply limitAndSort_sorted|]. intros r.
  rewrite limitAndSort_all.
  2: { rewrite Hperm.
       pose proof (filter_length_le
                     (fun r => keepItem (ofZ sy) (ofZ ey) (ofZ sq) (ofZ eq) r
                               && selected (sanitizeCompanies (map JStr names)) (company r))
                     (combinedData ds)). lia. }
  rewrite sortByDate_perm, Hperm, list_elem_of_In, filter_In, <- list_elem_of_In.
  rewrite andb_true_iff, keepItem_inRange, (sanitizeCompanies_stable _ Hstable).
  unfold selected. rewrite orb_true_iff, Z.eqb_eq, bool_decide_eq_true.
  assert (Hnil : Z.of_nat (length names) = 0 <-> names = []).
  { destruct names; simpl; split; intros; try discriminate; auto; lia. }
  rewrite Hnil. tauto.
Qed.

Lemma dataset_select_companies_witness :
  exists ds,
    @processLoaded Reference.runtime sampleStocks sampleForms sampleTasks = Ok ds
    /\ exists out,
         secureFilterData (groupedData ds) (Arr (map JStr ["Apple Inc."]))
           (JNum (ofZ 2020)) (JNum (ofZ 2023)) JUndefined (JNum (ofZ 3)) = Ok out
         /\ Sorted byDate out
         /\ forall r, r ∈ out <->
              r ∈ combinedData ds /\ inRange 2020 2023 1 3 r
              /\ (["Apple Inc."] = [] \/ company r ∈ ["Apple Inc."]).
Proof.
  destruct (@processLoaded Reference.runtime sampleStocks sampleForms sampleTasks)
    as [ds|e] eqn:E.
  - exists ds. split; [reflexivity|].
    apply (@dataset_select_companies Reference.runtime _ _ _ ds ["Apple Inc."] _ _ _ _
             2020 2023 1 3 E).
    + repeat split; vm_compute; reflexivity.
    + vm_compute. discriminate.
    + intros k Hk. apply list_elem_of_singleton in Hk as ->.
      vm_compute in E. injection E as <-. split; [now left | vm_compute; lia].
  - vm_compute in E. discriminate.
Defined.

(** ** The two filters *)

(** X17.  [secureFilterData] and the [filterData] of [dataProcessor.js]
    agree where the checks of the first one pass: with years from 1900 to
    2030, the first not after the second, quarters from 1 to 4, at most 50
    names that the sanitizer keeps as they are, and at most 5000 matches,
    [secureFilterData] returns what [filterData] returns. *)
Theorem filterData_agrees (g : JsObject (list CombinedRecord)) (names : list string)
    (sy ey sq eq : Z) :
  1900 <= sy <= ey -> ey <= 2030 -> 1 <= sq <= 4 -> 1 <= eq <= 4 ->
  Z.of_nat (length names) <= 50 ->
  (forall k, k ∈ names -> stable k) ->
  Z.of_nat (length (filterData g (map JStr names) (ofZ sy) (ofZ ey) (ofZ sq) (ofZ eq)))
  <= 5000 ->
  secureFilterData g (Arr (map JStr names))
    (JNum (ofZ sy)) (JNum (ofZ ey)) (JNum (ofZ sq)) (JNum (ofZ eq))
  = Ok (filterData g (map JStr names) (ofZ sy) (ofZ ey) (ofZ sq) (ofZ eq)).
Proof.
  intros Hsy Hey Hsq Heq Hlen Hstable Hcap.
  assert (Hlen' : Z.of_nat (length (map JStr names)) <= 50) by now rewrite length_map.
  rewrite (secureFilterData_valid _ _ _ _ _ _ _ _ _ _
             (validFilter_numbers sy ey sq eq Hsy Hey Hsq Heq) Hlen').
  rewrite (sanitizeCompanies_stable _ Hstable).
  assert (E : filterData g (map JStr names) (ofZ sy) (ofZ ey) (ofZ sq) (ofZ eq)
              = sortByDate (matching g names (ofZ sy) (ofZ ey) (ofZ sq) (ofZ eq))).
  { unfold filterData, matching. f_equal. apply flat_map_agree. intros k _.
    unfold selected. now rewrite length_map, includes_strings. }
  rewrite E in *. rewrite sortByDate_length in Hcap.
  now rewrite limitAndSort_all.
Qed.

Lemma filterData_agrees_witness :
  secureFilterData quarters (Arr (map JStr ["Microsoft"]))
    (JNum (ofZ 2019)) (JNum (ofZ 2020)) (JNum (ofZ 4)) (JNum (ofZ 3))
  = Ok (filterData quarters (map JStr ["Microsoft"]) (ofZ 2019) (ofZ 2020) (ofZ 4) (ofZ 3)).
Proof.
  apply (filterData_agrees quarters ["Microsoft"] 2019 2020 4 3); try lia.
  - vm_compute. discriminate.
  - intros k Hk. apply list_elem_of_singleton in Hk as ->. split; [reflexivity | discriminate].
  - vm_compute. discriminate.
Defined.

(** ** The handlers of the dashboard *)

Lemma parseInt_parsed v n : parseInt v = Ok n -> parsedInt n.
Proof.
  unfold parseInt. destruct (ToString v) as [s|]; cbv [mbind Result_bind mret Result_ret];
    [|discriminate].
  intros [= <-]. apply parseInt_str_parsed.
Qed.

(** An index that passes the checks of [handleDateRangeChange] is an
    integer within the options. *)
Lemma index_checked len start :
  0 <= len < 2 ^ 32 -> parsedInt start ->
  isNaN start = false -> Num_lt start (ofZ 0) = false -> Num_ge start (ofZ len) = false ->
  exists i, start = ofZ i /\ 0 <= i < len.
Proof.
  intros Hlen Hp Hnan Hneg Hge. destruct Hp as [|z Hz|s|q Hq|q Hq].
  - discriminate.
  - unfold Num_ge in Hge. rewrite Num_lt_ofZ in Hneg. rewrite Num_le_ofZ in Hge.
    apply Z.ltb_ge in Hneg. apply Z.leb_gt in Hge.
    exists z. split; [reflexivity|]. lia.
  - destruct s; discriminate.
  - exfalso. unfold Num_ge, Num_le, ofZ in Hge. apply not_true_iff_false in Hge.
    apply Hge, Qle_bool_iff. eapply Qle_trans; [|exact Hq]. rewrite <- Zle_Qle. lia.
  - exfalso. unfold Num_lt, ofZ, Qlt_bool in Hneg. apply negb_false_iff, Qle_bool_iff in Hneg.
    assert (Hc : (inject_Z 0 <= inject_Z (- 2 ^ 53))%Q) by (eapply Qle_trans; eassumption).
    rewrite <- Zle_Qle in Hc. lia.
Qed.

(** What [handleDateRangeChange] leaves: the range before, or two integer
    indices of options read from the arguments, the first not after the
    second. *)
Lemma handleDateRangeChange_cases quarterOptions dateRange newStart newEnd :
  Z.of_nat (length quarterOptions) < 2 ^ 32 ->
  handleDateRangeChange quarterOptions dateRange newStart newEnd = dateRange
  \/ exists i j,
       parseInt newStart = Ok (ofZ i) /\ parseInt newEnd = Ok (ofZ j)
       /\ handleDateRangeChange quarterOptions dateRange newStart newEnd = (ofZ i, ofZ j)
       /\ 0 <= i <= j /\ j < Z.of_nat (length quarterOptions).
Proof.
  intros Hlen. unfold handleDateRangeChange.
  destruct (parseInt newStart) as [start|] eqn:Es; [|now left].
  destruct (parseInt newEnd) as [end_|] eqn:Ee; [|now left].
  destruct (isNaN start) eqn:Ns; [now left|].
  destruct (isNaN end_) eqn:Ne; [now left|]. cbn [orb].
  destruct (Num_lt start (ofZ 0)) eqn:Ls; [now left|].
  destruct (Num_lt end_ (ofZ 0)) eqn:Le; [now left|]. cbn [orb].
  destruct (Num_ge start _) eqn:Gs; [now left|].
  destruct (Num_ge end_ _) eqn:Ge; [now left|]. cbn [orb].
  destruct (Num_gt start end_) eqn:Gt; [now left|].
  apply parseInt_parsed in Es as Ps. apply parseInt_parsed in Ee as Pe.
  destruct (index_checked (Z.of_nat (length quarterOptions)) start ltac:(lia) Ps Ns Ls Gs)
    as (i & -> & Hi).
  destruct (index_checked (Z.of_nat (length quarterOptions)) end_ ltac:(lia) Pe Ne Le Ge)
    as (j & -> & Hj).
  rewrite Num_gt_ofZ in Gt. apply Z.ltb_ge in Gt.
  right. exists i, j. repeat split; auto; lia.
Qed.

(** X18.  [handleDateRangeChange] keeps the range of the slider valid.
    When the range is two integer indices into the quarter options, the
    first not after the second, then so is the range after the call,
    whatever the two arguments are: it is the range before, or the two
    integers that [parseInt] reads from the arguments.  The two options at
    these indices exist. *)
Theorem handleDateRangeChange_valid (quarterOptions : list QuarterOption)
    (dateRange : Number * Number) (newStart newEnd : JsVal) :
  Z.of_nat (length quarterOptions) < 2 ^ 32 ->
  validRange quarterOptions dateRange ->
  let after := handleDateRangeChange quarterOptions dateRange newStart newEnd in
  validRange quarterOptions after
  /\ (after = dateRange
      \/ exists i j, parseInt newStart = Ok (ofZ i) /\ parseInt newEnd = Ok (ofZ j)
           /\ after = (ofZ i, ofZ j))
  /\ exists i j startQuarter endQuarter,
       after = (ofZ i, ofZ j)
       /\ quarterOptions !! Z.to_nat i = Some startQuarter
       /\ quarterOptions !! Z.to_nat j = Some endQuarter.
Proof.
  intros Hlen Hvalid after.
  pose proof (handleDateRangeChange_cases quarterOptions dateRange newStart newEnd Hlen)
    as Hcases.
  fold after in Hcases.
  assert (Hafter : validRange quarterOptions after).
  { destruct Hcases as [-> | (i & j & _ & _ & -> & Hij)]; [exact Hvalid|].
    exists i, j. split; [reflexivity | exact Hij]. }
  split; [exact Hafter|]. split.
  - destruct Hcases as [E | (i & j & Ei & Ej & E & _)]; [now left|]. right. now exists i, j.
  - destruct Hafter as (i & j & E & Hi & Hj).
    destruct (lookup_lt_is_Some_2 quarterOptions (Z.to_nat i) ltac:(lia)) as [s Hs].
    destruct (lookup_lt_is_Some_2 quarterOptions (Z.to_nat j) ltac:(lia)) as [e He].
    now exists i, j, s, e.
Qed.

(** The slider of the twelve quarters of 2019 to 2021, moved from the whole
    range to the indices 3 and 4, given as text. *)
Lemma handleDateRangeChange_valid_witness :
  let after := handleDateRangeChange (quartersOfYears 2019 2021) (ofZ 0, ofZ 11)
                 (JStr "3") (JStr "4") in
  validRange (quartersOfYears 2019 2021) after
  /\ (after = (ofZ 0, ofZ 11)
      \/ exists i j, parseInt (JStr "3") = Ok (ofZ i) /\ parseInt (JStr "4") = Ok (ofZ j)
           /\ after = (ofZ i, ofZ j))
  /\ exists i j startQuarter endQuarter,
       after = (ofZ i, ofZ j)
       /\ quartersOfYears 2019 2021 !! Z.to_nat i = Some startQuarter
       /\ quartersOfYears 2019 2021 !! Z.to_nat j = Some endQuarter.
Proof.
  apply (handleDateRangeChange_valid (quartersOfYears 2019 2021) (ofZ 0, ofZ 11)
           (JStr "3") (JStr "4")).
  - vm_compute. reflexivity.
  - exists 0, 11. split; [reflexivity|]. vm_compute. repeat split; discriminate.
Defined.

(** X19.  [handleCompanyChange] keeps the selection a list of companies of
    the dataset without repetition.  The value [all] selects all
    companies; a name that is no company of the dataset changes nothing;
    a company of the dataset is taken out if it is selected and added at
    the end if it is not, and the selection after such a toggle has at most
    20 entries. *)
Theorem handleCompanyChange_selection (data : Dataset) (selectedCompanies : list string)
    (company : string) :
  NoDup (companies data) -> NoDup selectedCompanies ->
  (forall c, c ∈ selectedCompanies -> c ∈ companies data) ->
  let after := handleCompanyChange (Some data) selectedCompanies company in
  NoDup after
  /\ (forall c, c ∈ after -> c ∈ companies data)
  /\ (company = "all" -> after = companies data)
  /\ (company <> "all" -> company ∉ companies data -> after = selectedCompanies)
  /\ (company <> "all" -> company ∈ companies data ->
      Z.of_nat (length after) <= 20
      /\ (company ∈ selectedCompanies ->
          (company ∉ after) /\ forall c, c ∈ after -> c ∈ selectedCompanies)
      /\ (company ∉ selectedCompanies -> Z.of_nat (length selectedCompanies) < 20 ->
          after = selectedCompanies ++ [company])).
Proof.
  intros Hnd Hsel Hsub after. subst after. unfold handleCompanyChange.
  destruct (String.eqb_spec company "all") as [-> | Hall].
  { repeat split; auto; intros; congruence. }
  destruct (bool_decide (company ∈ companies data)) eqn:Hin; cbn [negb].
  2: { apply bool_decide_eq_false in Hin. repeat split; auto; intros; try congruence;
       contradiction. }
  apply bool_decide_eq_true in Hin.
  set (newSelection := if bool_decide (company ∈ selectedCompanies)
                       then List.filter (fun c => negb (String.eqb c company)) selectedCompanies
                       else selectedCompanies ++ [company]).
  assert (Hnew : NoDup newSelection /\ (forall c, c ∈ newSelection -> c ∈ companies data)
                 /\ (company ∈ selectedCompanies ->
                     (company ∉ newSelection)
                     /\ forall c, c ∈ newSelection -> c ∈ selectedCompanies)
                 /\ (company ∉ selectedCompanies -> newSelection = selectedCompanies ++ [company])).
  { subst newSelection. destruct (bool_decide (company ∈ selectedCompanies)) eqn:Hs.
    - apply bool_decide_eq_true in Hs.
      assert (Hf : forall c, c ∈ List.filter (fun c => negb (String.eqb c company))
                                   selectedCompanies
                             -> c ∈ selectedCompanies /\ c <> company).
      { intros c Hc. apply list_elem_of_In, filter_In in Hc as [Hc Hne].
        split; [now apply list_elem_of_In|]. apply negb_true_iff in Hne.
        now apply String.eqb_neq in Hne. }
      repeat split.
      + apply NoDup_ListNoDup, List.NoDup_filter, NoDup_ListNoDup, Hsel.
      + intros c Hc. now apply Hsub, Hf.
      + intros Hc. now apply Hf in Hc as [_ Hc].
      + intros c Hc. now apply Hf in Hc.
      + intros Hn. contradiction.
    - apply bool_decide_eq_false in Hs. repeat split.
      + apply NoDup_app. repeat split; auto.
        * intros c Hc Hc'. apply list_elem_of_singleton in Hc' as ->. contradiction.
        * apply NoDup_singleton.
      + intros c Hc. apply elem_of_app in Hc as [Hc | Hc]; [now apply Hsub|].
        now apply list_elem_of_singleton in Hc as ->.
      + contradiction.
      + contradiction. }
  destruct Hnew as (Hnd' & Hsub' & Hrem & Hadd).
  assert (Htake : forall c, c ∈ take 20 newSelection -> c ∈ newSelection).
  { intros c Hc. rewrite <- (take_drop 20 newSelection). apply elem_of_app. now left. }
  destruct (Z.ltb_spec 20 (Z.of_nat (length newSelection))) as [Hlong | Hshort].
  - split; [apply (sublist_NoDup _ _ Hnd'), sublist_take|]. split; [auto|].
    split; [congruence|]. split; [contradiction|]. intros _ _.
    split; [rewrite length_take; lia|]. split.
    + intros Hs. destruct (Hrem Hs) as [Hout Hin']. split; [auto | auto].
    + intros Hn Hlen. rewrite (Hadd Hn) in Hlong. rewrite length_app in Hlong.
      simpl in Hlong. lia.
  - split; [exact Hnd'|]. split; [exact Hsub'|].
    split; [congruence|]. split; [contradiction|]. intros _ _.
    split; [lia|]. split; [exact Hrem | auto].
Qed.

Lemma handleCompanyChange_selection_witness :
  let after := handleCompanyChange (Some manyCompaniesData) ["Company 7"; "Company 9"]
                 "Company 7" in
  after = ["Company 9"]
  /\ NoDup after
  /\ (forall c, c ∈ after -> c ∈ companies manyCompaniesData)
  /\ ("Company 7" = "all" -> after = companies manyCompaniesData)
  /\ ("Company 7" <> "all" -> "Company 7" ∉ companies manyCompaniesData ->
      after = ["Company 7"; "Company 9"])
  /\ ("Company 7" <> "all" -> "Company 7" ∈ companies manyCompaniesData ->
      Z.of_nat (length after) <= 20
      /\ ("Company 7" ∈ ["Company 7"; "Company 9"] ->
          ("Company 7" ∉ after) /\ forall c, c ∈ after -> c ∈ ["Company 7"; "Company 9"])
      /\ ("Company 7" ∉ ["Company 7"; "Company 9"] ->
          Z.of_nat (length ["Company 7"; "Company 9"]) < 20 ->
          after = ["Company 7"; "Company 9"] ++ ["Company 7"])).
Proof.
  split; [vm_compute; reflexivity|].
  apply (handleCompanyChange_selection manyCompaniesData ["Company 7"; "Company 9"]
           "Company 7").
  - refine (bool_decide_unpack _ _); vm_compute; exact I.
  - refine (bool_decide_unpack _ _); vm_compute; exact I.
  - intros c Hc. apply elem_of_cons in Hc as [-> | Hc].
    + refine (bool_decide_unpack _ _); vm_compute; exact I.
    + apply list_elem_of_singleton in Hc as ->.
      refine (bool_decide_unpack _ _); vm_compute; exact I.
Defined.

(** X20.  The selection of the dashboard and the limit of the filter.  With
    valid scalar parameters, the selection after the toggle of a company of
    the dataset is accepted by [secureFilterData], having at most 20
    entries.  The selection of all companies is refused as too long when
    the dataset has more than 50 companies. *)
Theorem selection_and_filter_limit (data : Dataset) (selectedCompanies : list string)
    (company : string) (vsy vey vsq veq : JsVal) (sy ey sq eq : Number) :
  validFilter vsy vey vsq veq sy ey sq eq ->
  (company <> "all" -> company ∈ companies data ->
   returns (secureFilterData (groupedData data)
              (Arr (map JStr (handleCompanyChange (Some data) selectedCompanies company)))
              vsy vey vsq veq))
  /\ (50 < Z.of_nat (length (companies data)) ->
      secureFilterData (groupedData data)
        (Arr (map JStr (handleCompanyChange (Some data) selectedCompanies "all")))
        vsy vey vsq veq
      = Throw (Error "Too many companies selected")).
Proof.
  intros Hv. split.
  - intros Hall Hin. eexists. apply secureFilterData_valid; [exact Hv|].
    rewrite length_map. unfold handleCompanyChange.
    destruct (String.eqb_spec company "all"); [contradiction|].
    rewrite (bool_decide_eq_true_2 _ Hin). cbn [negb].
    destruct (Z.ltb_spec 20 (Z.of_nat (length
                (if bool_decide (company ∈ selectedCompanies)
                 then List.filter (fun c => negb (String.eqb c company)) selectedCompanies
                 else selectedCompanies ++ [company])))); [rewrite length_take|]; lia.
  - intros Hmany. cbn [handleCompanyChange String.eqb Ascii.eqb Bool.eqb].
    pose proof (validFilter_truthy _ _ _ _ _ _ _ _ Hv) as (T1 & T2 & T3 & T4).
    destruct Hv as (E1 & E2 & E3 & E4 & Hgt).
    unfold secureFilterData. rewrite E1, E2, E3, E4. cbv [mbind Result_bind].
    rewrite T1, T2, T3, T4, Hgt. cbn [negb orb]. rewrite length_map.
    destruct (Z.ltb_spec 50 (Z.of_nat (length (companies data)))); [reflexivity | lia].
Qed.

Lemma selection_and_filter_limit_witness :
  returns (secureFilterData (groupedData manyCompaniesData)
             (Arr (map JStr (handleCompanyChange (Some manyCompaniesData) [] "Company 7")))
             (JNum (ofZ 2020)) (JNum (ofZ 2020)) JUndefined JUndefined)
  /\ secureFilterData (groupedData manyCompaniesData)
       (Arr (map JStr (handleCompanyChange (Some manyCompaniesData) [] "all")))
       (JNum (ofZ 2020)) (JNum (ofZ 2020)) JUndefined JUndefined
     = Throw (Error "Too many companies selected").
Proof.
  destruct (selection_and_filter_limit manyCompaniesData [] "Company 7"
              (JNum (ofZ 2020)) (JNum (ofZ 2020)) JUndefined JUndefined
              (ofZ 2020) (ofZ 2020) (ofZ 1) (ofZ 4)) as [Htoggle Hall].
  - repeat split; vm_compute; reflexivity.
  - split.
    + apply Htoggle; [discriminate|]. refine (bool_decide_unpack _ _); vm_compute; exact I.
    + apply Hall. vm_compute. reflexivity.
Defined.

Lemma asInteger_ofZ z : asInteger (JNum (ofZ z)) = Some z.
Proof. unfold asInteger, ofZ. now rewrite Qred_inject_Z. Qed.

(** X21.  [getCompanyColor] returns one of the 13 colours of its palette
    for every argument, never [undefined]: for an integer from 0 on, the
    colour at the index modulo 13, so that the indices [i] and [i + 13]
    share a colour; for a negative integer, as for every value that is no
    integer, the first colour. *)
Theorem getCompanyColor_palette (index : JsVal) :
  (exists c, getCompanyColor index = Some c /\ c ∈ colors)
  /\ (forall i, 0 <= i -> getCompanyColor (JNum (ofZ i)) = colors !! Z.to_nat (i mod 13))
  /\ (forall i, 0 <= i ->
        getCompanyColor (JNum (ofZ (i + 13))) = getCompanyColor (JNum (ofZ i)))
  /\ (forall i, i < 0 -> getCompanyColor (JNum (ofZ i)) = Some "#8884d8")
  /\ (asInteger index = None -> getCompanyColor index = Some "#8884d8").
Proof.
  assert (Hnat : forall i, 0 <= i ->
            getCompanyColor (JNum (ofZ i)) = colors !! Z.to_nat (i mod 13)).
  { intros i Hi. unfold getCompanyColor. rewrite asInteger_ofZ.
    destruct (Z.leb_spec 0 i); [reflexivity | lia]. }
  split; [|split; [exact Hnat|split; [|split]]].
  - unfold getCompanyColor.
    set (validIndex := match asInteger index with
                       | Some z => if 0 <=? z then z else 0
                       | None => 0
                       end).
    change (Z.of_nat (length colors)) with 13.
    pose proof (Z.mod_pos_bound validIndex 13 ltac:(lia)) as Hi.
    destruct (lookup_lt_is_Some_2 colors (Z.to_nat (validIndex mod 13))) as [c Hc].
    { change (length colors) with 13%nat. lia. }
    exists c. split; [exact Hc|]. now apply list_elem_of_lookup_2 in Hc.
  - intros i Hi. rewrite !Hnat by lia. do 2 f_equal.
    Z.to_euclidean_division_equations; lia.
  - intros i Hi. unfold getCompanyColor. rewrite asInteger_ofZ.
    destruct (Z.leb_spec 0 i); [lia | reflexivity].
  - intros E. unfold getCompanyColor. now rewrite E.
Qed.

(** ** The validator of strings *)

Lemma substring0_trimStart n t :
  trimStart t = t -> trimStart (substring0 n t) = substring0 n t.
Proof.
  intros Ht. destruct (trimStart_head t) as [E | (c & r & E & Hc)]; rewrite Ht in E; subst t.
  - now destruct n.
  - destruct n; [reflexivity|]. cbn [substring0 trimStart]. now rewrite Hc.
Qed.

(** X22.  What [validateString] returns holds none of the five characters
    that it removes, does not start with white space, and has at most
    [maxLength] code units.  When it is shorter than [maxLength] it was not
    cut: it does not end with white space either, and validating it again
    returns it unchanged.  (A string that was cut may end with white space,
    which a second validation removes.) *)
Theorem validateString_result (value : JsVal) (maxLength : nat) (s : string) :
  validateString value maxLength = Some s ->
  clean s
  /\ trimStart s = s
  /\ (String.length s <= maxLength)%nat
  /\ ((String.length s < maxLength)%nat ->
      trim s = s /\ validateString (JStr s) maxLength = Some s).
Proof.
  intros Hs. split; [now apply (validateString_clean value maxLength)|].
  split; [|split; [now apply (validateString_length value)|]].
  - destruct value as [| | | | |s0| |]; try discriminate. injection Hs as <-.
    apply substring0_trimStart, trim_trimStart.
  - intros Hshort. split; [|now apply (validateString_again value)].
    destruct value as [| | | | |s0| |]; try discriminate. injection Hs as <-.
    rewrite (substring0_short _ _ Hshort). apply trim_idem.
Qed.

(** A name with markup and white space around it; and a text that is cut
    in front of a space, which a second validation takes away. *)
Lemma validateString_result_witness :
  validateString (JStr "  <b>Procter & Gamble</b> ") 200 = Some "bProcter  Gamble/b"
  /\ (clean "bProcter  Gamble/b"
      /\ trimStart "bProcter  Gamble/b" = "bProcter  Gamble/b"
      /\ (String.length "bProcter  Gamble/b" <= 200)%nat
      /\ ((String.length "bProcter  Gamble/b" < 200)%nat ->
          trim "bProcter  Gamble/b" = "bProcter  Gamble/b"
          /\ validateString (JStr "bProcter  Gamble/b") 200 = Some "bProcter  Gamble/b"))
  /\ validateString (JStr "ab  cd") 3 = Some "ab "
  /\ validateString (JStr "ab ") 3 = Some "ab".
Proof.
  split; [vm_compute; reflexivity|]. split.
  - apply (validateString_result (JStr "  <b>Procter & Gamble</b> ") 200).
    vm_compute. reflexivity.
  - split; vm_compute; reflexivity.
Defined.

(** ** The loader *)

Lemma filter_nil_iff {A} (p : A -> bool) (l : list A) :
  List.filter p l = [] <-> forall x, x ∈ l -> p x = false.
Proof.
  split.
  - intros E x Hx. destruct (p x) eqn:Ep; [|reflexivity].
    assert (Hin : In x (List.filter p l)) by (apply filter_In; split; [now apply list_elem_of_In | exact Ep]).
    rewrite E in Hin. destruct Hin.
  - intros Hall. apply filter_none. intros x Hx. apply Hall. now apply list_elem_of_In.
Qed.

(** X23.  [loadSecureCSV] returns rows exactly when the response is OK, its
    content type (if it names one) holds [text/] or [application/], its
    content length (if it names one) does not read as more than 10 MiB, the
    text has at most 10 MiB code units, the parser completes with a table
    that is not empty, and the first row has every expected column.  The
    rows returned are those of the parser, unchanged; only the first row is
    checked, and columns beyond the expected ones do not matter. *)
Theorem loadSecureCSV_returns (parse : string -> Z -> Parsed) (response : Response)
    (expectedColumns : list string) (maxRows : Z) (rows : list Row) :
  loadSecureCSV parse response expectedColumns maxRows = Ok rows <->
  ok response = true
  /\ (forall ct, contentType response = Some ct ->
        ct = "" \/ str_includes "text/" ct = true \/ str_includes "application/" ct = true)
  /\ (forall cl, contentLength response = Some cl ->
        cl = "" \/ Num_gt (parseInt_auto cl) (ofZ MAX_FILE_SIZE) = false)
  /\ Z.of_nat (String.length (text response)) <= MAX_FILE_SIZE
  /\ parse (text response) maxRows = Complete (Some rows)
  /\ exists firstRow rest,
       rows = firstRow :: rest
       /\ forall col, col ∈ expectedColumns -> hasColumn firstRow col = true.
Proof.
  assert (Htype : (match contentType response with
                   | Some ct => Str_truthy ct && negb (str_includes "text/" ct)
                                && negb (str_includes "application/" ct)
                   | None => false
                   end) = false
                  <-> forall ct, contentType response = Some ct ->
                        ct = "" \/ str_includes "text/" ct = true
                        \/ str_includes "application/" ct = true).
  { destruct (contentType response) as [ct|]; [|split; [discriminate | reflexivity]].
    unfold Str_truthy. destruct (String.eqb_spec ct "") as [-> | Hne]; cbn [negb andb].
    - split; [intros _ ? [= <-]; now left | reflexivity].
    - destruct (str_includes "text/" ct) eqn:I1; cbn [negb andb].
      { split; [intros _ ? [= <-]; auto | reflexivity]. }
      destruct (str_includes "application/" ct) eqn:I2; cbn [negb].
      { split; [intros _ ? [= <-]; auto | reflexivity]. }
      split; [discriminate|]. intros Hct.
      destruct (Hct ct eq_refl) as [? | [? | ?]]; [contradiction | congruence | congruence]. }
  assert (Hlen : (match contentLength response with
                  | Some cl => Str_truthy cl && Num_gt (parseInt_auto cl) (ofZ MAX_FILE_SIZE)
                  | None => false
                  end) = false
                 <-> forall cl, contentLength response = Some cl ->
                       cl = "" \/ Num_gt (parseInt_auto cl) (ofZ MAX_FILE_SIZE) = false).
  { destruct (contentLength response) as [cl|]; [|split; [discriminate | reflexivity]].
    unfold Str_truthy. destruct (String.eqb_spec cl "") as [-> | Hne]; cbn [negb andb].
    - split; [intros _ ? [= <-]; now left | reflexivity].
    - split; [intros E ? [= <-]; now right|].
      intros Hcl. destruct (Hcl cl eq_refl) as [? | ?]; [contradiction | assumption]. }
  assert (Hcomplete : forall data,
            complete expectedColumns data = Ok rows
            <-> data = Some rows
                /\ exists firstRow rest,
                     rows = firstRow :: rest
                     /\ forall col, col ∈ expectedColumns -> hasColumn firstRow col = true).
  { intros data. unfold complete. destruct data as [[|firstRow rest]|].
    - split; [discriminate | intros [[= <-] (? & ? & ? & _)]; discriminate].
    - destruct (List.filter _ expectedColumns) as [|m ms] eqn:Em.
      + split.
        * intros [= <-]. split; [reflexivity|]. exists firstRow, rest. split; [reflexivity|].
          intros col Hcol. apply (proj1 (filter_nil_iff _ _) Em) in Hcol.
          now apply negb_false_iff in Hcol.
        * intros [[= <-] _]. reflexivity.
      + split; [discriminate|]. intros [[= <-] (f & r & [= <- <-] & Hall)].
        assert (Hm : In m (List.filter (fun col => negb (hasColumn firstRow col))
                             expectedColumns)) by (rewrite Em; now left).
        apply filter_In in Hm as [Hm Hmiss]. apply list_elem_of_In in Hm.
        rewrite (Hall m Hm) in Hmiss. discriminate.
    - split; [discriminate | intros [[=] _]]. }
  unfold loadSecureCSV. destruct (ok response); cbn [negb].
  2: { split; [discriminate | intros [[=] _]]. }
  destruct (match contentType response with Some _ => _ | None => _ end) eqn:Et.
  { split; [discriminate|]. intros (_ & Hct & _). apply Htype in Hct. discriminate. }
  destruct (match contentLength response with Some _ => _ | None => _ end) eqn:El.
  { split; [discriminate|]. intros (_ & _ & Hcl & _). apply Hlen in Hcl. discriminate. }
  destruct (Z.ltb_spec MAX_FILE_SIZE (Z.of_nat (String.length (text response)))) as [Hbig | Hfit].
  { split; [discriminate|]. intros (_ & _ & _ & Hsize & _). lia. }
  pose proof (proj1 Htype eq_refl) as Hct. pose proof (proj1 Hlen eq_refl) as Hcl.
  destruct (parse (text response) maxRows) as [data | msg].
  - rewrite Hcomplete. split.
    + intros [-> Hrows]. auto 7.
    + intros (_ & _ & _ & _ & [= ->] & Hrows). auto.
  - split; [discriminate | intros (_ & _ & _ & _ & [=] & _)].
Qed.

(** A parser that returns a table of one stock row, and a response whose
    content length does not read as a number. *)
Lemma loadSecureCSV_returns_witness :
  loadSecureCSV (fun _ _ => Complete (Some [appleStock]))
    {| ok := true; status := 200; statusText := "OK"; contentType := Some "text/csv";
       contentLength := Some "many"; text := "Symbol,CompanyName,CIK" |}
    ["Symbol"; "CompanyName"; "CIK"] MAX_ROWS
  = Ok [appleStock].
Proof.
  apply (proj2 (loadSecureCSV_returns _ _ _ _ _)).
  split; [reflexivity|]. split; [intros ct [= <-]; right; left; reflexivity|].
  split; [intros cl [= <-]; right; reflexivity|]. split; [vm_compute; discriminate|].
  split; [reflexivity|]. exists appleStock, []. split; [reflexivity|].
  intros col Hcol. repeat (apply elem_of_cons in Hcol as [-> | Hcol]; [vm_compute; reflexivity|]).
  now apply elem_of_nil in Hcol.
Defined.

(** ** The data of the chart *)

(** X24.  The chart has one entry for each quarter label among the filtered
    records, whatever the metrics are: no label twice, every label of a
    record and no other, the entries in non-decreasing order of their
    dates, and each entry with the date, the year and the quarter of the
    first filtered record that has its label. *)
Theorem chart_entries (selectedMetrics : string) (filtered : list CombinedRecord) :
  let chart := chartArray selectedMetrics filtered in
  Sorted byEntryDate chart
  /\ NoDup (map entry_quarter chart)
  /\ (forall label, label ∈ map entry_quarter chart
                    <-> exists r, r ∈ filtered /\ quarterLabel r = label)
  /\ (forall e, e ∈ chart ->
        exists first rest,
          labelled (entry_quarter e) filtered = first :: rest
          /\ entry_date e = date first /\ entry_year e = year first
          /\ quarterNum e = quarter first).
Proof.
  intros chart. subst chart.
  destruct (chartDataMap_charted selectedMetrics filtered) as (Hnd & Hown & Hall).
  split; [apply chartArray_sorted|]. split; [now rewrite chartArray_labels|]. split.
  - intros label. rewrite chartArray_labels. split.
    + intros Hin. destruct (own (chartDataMap selectedMetrics filtered) label) as [e|] eqn:El.
      * destruct (Hown _ _ El) as (_ & first & rest & Hl & _).
        exists first. apply labelled_elem. rewrite Hl. now left.
      * now apply own_None_keys in El.
    + intros (r & Hr & <-). apply Hall in Hr.
      destruct (decide (quarterLabel r ∈ map fst (chartDataMap selectedMetrics filtered)))
        as [|Hn]; [assumption|].
      now apply own_None_keys in Hn.
  - intros e He. apply chartArray_elem in He.
    destruct (Hown _ _ He) as (_ & first & rest & Hl & Hd & Hy & Hq & _).
    now exists first, rest.
Qed.

(** X25.  The series of an entry of the chart.  Under the key of a company
    and a metric, an entry holds the amount of the last filtered record of
    that company with the label of the entry, when the selected metrics
    are [all] or that metric; it has no such property when the company has
    no record with that label, or with other metrics. *)
Theorem chart_series (selectedMetrics : string) (filtered : list CombinedRecord)
    (e : ChartEntry) (name : string) :
  e ∈ chartArray selectedMetrics filtered ->
  let items := groupOf name (labelled (entry_quarter e) filtered) in
  own (series e) (name +:+ "_CCP")
  = (if String.eqb selectedMetrics "all" || String.eqb selectedMetrics "ccp"
     then option_map rec_ccp (last items) else None)
  /\ own (series e) (name +:+ "_LTD")
     = (if String.eqb selectedMetrics "all" || String.eqb selectedMetrics "ltd"
        then option_map rec_ltd (last items) else None).
Proof.
  intros He items. subst items. apply chartArray_elem in He.
  destruct (chartDataMap_charted selectedMetrics filtered) as (_ & Hown & _).
  destruct (Hown _ _ He) as (_ & first & rest & Hl & _ & _ & _ & Hs).
  rewrite Hs, Hl, own_writeSeries_CCP, own_writeSeries_LTD. cbn [own].
  split; destruct (_ || _); try reflexivity;
    now destruct (last (groupOf name (first :: rest))).
Qed.

(** Two filings of Apple in Q4 2020, among the records of [quarters] with
    one more: the chart holds the amount of the later one. *)
Lemma chart_series_witness :
  let filtered := [record "Apple Inc." "3" 2020 4 (day 2020 12 26);
                   record "Microsoft" "6" 2020 4 (day 2020 12 31);
                   {| id := "7"; company := "Apple Inc."; rec_symbol := "AAPL"; cik := "1";
                      year := 2020; quarter := 4; date := day 2020 12 31;
                      dateString := "2020-12-31"; quarterLabel := "Q4 2020";
                      rec_ccp := ofZ 7; rec_ltd := ofZ 9; rec_formName := "10-K";
                      rec_formURL := "https://www.sec.gov/" |}] in
  exists e,
    chartArray "all" filtered = [e]
    /\ own (series e) "Apple Inc._CCP" = Some (ofZ 7)
    /\ own (series e) "Apple Inc._LTD" = Some (ofZ 9).
Proof.
  intros filtered. eexists. split; [vm_compute; reflexivity|].
  match goal with
  | |- own (series ?e) _ = _ /\ _ =>
      destruct (chart_series "all" filtered e "Apple Inc.") as [Hc Hl]
  end.
  - vm_compute. left.
  - split; [etransitivity; [exact Hc|] | etransitivity; [exact Hl|]];
      vm_compute; reflexivity.
Defined.

Lemma chart_entries_witness :
  let chart := chartArray "ccp" (concat (map snd quarters)) in
  map entry_quarter chart = ["Q4 2019"; "Q1 2020"; "Q3 2020"; "Q4 2020"; "Q1 2021"]
  /\ Sorted byEntryDate chart
  /\ NoDup (map entry_quarter chart).
Proof.
  intros chart. split; [vm_compute; reflexivity|].
  destruct (chart_entries "ccp" (concat (map snd quarters))) as (Hs & Hnd & _).
  split; assumption.
Defined.

(** ** The slider and the filter *)

Lemma slide_valid quarterOptions events dateRange :
  Z.of_nat (length quarterOptions) < 2 ^ 32 ->
  validRange quarterOptions dateRange ->
  validRange quarterOptions (slide quarterOptions events dateRange).
Proof.
  intros Hlen. unfold slide. revert dateRange.
  induction events as [|[newStart newEnd] events IH]; intros dateRange Hv; cbn [fold_left].
  - exact Hv.
  - apply IH. cbn [fst snd].
    destruct (handleDateRangeChange_cases quarterOptions dateRange newStart newEnd Hlen)
      as [-> | (i & j & _ & _ & -> & Hij)]; [exact Hv|].
    exists i, j. split; [reflexivity | exact Hij].
Qed.

(** X26.  The slider never breaks the filter.  Once the quarter options are
    there and the range is set to their first and last index, then after
    any series of calls of [handleDateRangeChange], with any arguments, the
    range is two indices of options, the first not after the second, and
    [secureFilterData], called as the dashboard calls it with the years and
    quarters of these two options and a selection of at most 50 entries,
    returns. *)
Theorem slider_keeps_filter_valid (minYear maxYear : JsVal) (quarterOptions : list QuarterOption)
    (events : list (JsVal * JsVal)) :
  generateSecureQuarterOptions minYear maxYear = Ok quarterOptions ->
  exists i j startQuarter endQuarter,
    slide quarterOptions events (initialRange quarterOptions) = (ofZ i, ofZ j)
    /\ 0 <= i <= j
    /\ quarterOptions !! Z.to_nat i = Some startQuarter
    /\ quarterOptions !! Z.to_nat j = Some endQuarter
    /\ forall g elems, Z.of_nat (length elems) <= 50 ->
         returns (secureFilterData g (Arr elems)
                    (JNum (opt_year startQuarter)) (JNum (opt_year endQuarter))
                    (JNum (opt_quarter startQuarter)) (JNum (opt_quarter endQuarter))).
Proof.
  intros Hopts. pose proof Hopts as Hinv.
  apply generateSecureQuarterOptions_inv in Hinv
    as (lo & hi & _ & _ & Hlo & Hhi & Hspan & ->).
  pose proof (quartersOfYears_length lo hi ltac:(lia)) as Hlen.
  assert (Hinit : validRange (quartersOfYears lo hi) (initialRange (quartersOfYears lo hi))).
  { unfold initialRange. rewrite Num_sub_ofZ by lia.
    exists 0, (Z.of_nat (length (quartersOfYears lo hi)) - 1). split; [reflexivity | lia]. }
  destruct (slide_valid (quartersOfYears lo hi) events _ ltac:(lia) Hinit)
    as (i & j & E & Hij & Hj).
  destruct (lookup_lt_is_Some_2 (quartersOfYears lo hi) (Z.to_nat i) ltac:(lia)) as [s Hs].
  destruct (lookup_lt_is_Some_2 (quartersOfYears lo hi) (Z.to_nat j) ltac:(lia)) as [e He].
  exists i, j, s, e. split; [exact E|]. split; [exact Hij|]. split; [exact Hs|].
  split; [exact He|]. intros g elems Helems.
  apply quartersOfYears_at in Hs as (sy & sq & -> & Esy & Esq & Hsy & Hsq); [|lia].
  apply quartersOfYears_at in He as (ey & eq & -> & Eey & Eeq & Hey & Heq); [|lia].
  assert (Hse : sy <= ey).
  { subst sy ey. rewrite !Z2Nat.id by lia. Z.to_euclidean_division_equations; lia. }
  cbn [quarterOption opt_year opt_quarter]. eexists.
  apply secureFilterData_valid; [|exact Helems]. apply validFilter_numbers; lia.
Qed.

(** The options of 2019 to 2021; the slider is moved to the indices 3 and
    4, then asked for an end before the start, for an index beyond the
    options and for something that is no number, which change nothing. *)
Lemma slider_keeps_filter_valid_witness :
  slide (quartersOfYears 2019 2021)
    [(JStr "3", JStr "4"); (JStr "4", JNum (ofZ 3)); (JNum (ofZ 3), JStr "12");
     (JStr "later", JNum (ofZ 4)); (JSymbol, JNum (ofZ 4))]
    (initialRange (quartersOfYears 2019 2021))
  = (ofZ 3, ofZ 4)
  /\ exists i j startQuarter endQuarter,
       slide (quartersOfYears 2019 2021)
         [(JStr "3", JStr "4"); (JStr "4", JNum (ofZ 3)); (JNum (ofZ 3), JStr "12");
          (JStr "later", JNum (ofZ 4)); (JSymbol, JNum (ofZ 4))]
         (initialRange (quartersOfYears 2019 2021))
       = (ofZ i, ofZ j)
       /\ 0 <= i <= j
       /\ quartersOfYears 2019 2021 !! Z.to_nat i = Some startQuarter
       /\ quartersOfYears 2019 2021 !! Z.to_nat j = Some endQuarter
       /\ forall g elems, Z.of_nat (length elems) <= 50 ->
            returns (secureFilterData g (Arr elems)
                       (JNum (opt_year startQuarter)) (JNum (opt_year endQuarter))
                       (JNum (opt_quarter startQuarter)) (JNum (opt_quarter endQuarter))).
Proof.
  split; [vm_compute; reflexivity|].
  apply (slider_keeps_filter_valid (JNum (ofZ 2019)) (JNum (ofZ 2021))).
  vm_compute. reflexivity.
Defined.
